(** * Greenspot Grocer ETL: a shallow embedding of [greenspot_etl.py]

    The development follows the Python class [GreenspotETL]:
    - Part 1 models the text primitives the script relies on
      ([str.strip], [str.lower], [str.split(', ')], [re.match],
      [int], [float], [datetime.strptime]);
    - Part 2 models the field normalisers ([clean_vendor_data],
      [normalize_unit], [normalize_location], [parse_date]);
    - Part 3 models the in-memory containers of the class and
      [process_row] / [parse_csv_data] in a state-and-exception monad;
    - Part 4 models the load phases and [run_etl] against a keyed sink;
    - Part 5 gives the vocabulary of the properties, Part 6 the lemmas
      and Part 7 the theorems;
    - Part 8 proves further properties of the normalisers, of the row
      pass and of whole runs, with [print_summary].

    Text is ASCII: a character is a code point below 128 and the
    character predicates below are Python's on that range. *)

From Stdlib Require Import ZArith QArith Ascii String.
From stdpp Require Import gmap strings list fin_maps pretty.

Local Open Scope string_scope.
Local Open Scope Z_scope.

(* ===================================================================== *)
(** * Part 1: Python text primitives                                      *)
(* ===================================================================== *)

Module Text.

Definition code (c : ascii) : N := N_of_ascii c.

Definition in_range (lo hi : N) (c : ascii) : bool :=
  ((lo <=? code c) && (code c <=? hi))%N.

(** [str.isspace] on one ASCII character; [\s] of [re] agrees with
    it: TAB, LF, VT, FF, CR, FS, GS, RS, US and SPACE. *)
Definition isspace (c : ascii) : bool :=
  in_range 9 13 c || in_range 28 32 c.

(** [\d] and [str.isdigit] on ASCII. *)
Definition isdigit (c : ascii) : bool := in_range 48 57 c.

(** [[A-Z]] and [[a-z]]. *)
Definition isupper (c : ascii) : bool := in_range 65 90 c.
Definition islower (c : ascii) : bool := in_range 97 122 c.

Definition lower_char (c : ascii) : ascii :=
  if isupper c then ascii_of_N (code c + 32) else c.

Definition upper_char (c : ascii) : ascii :=
  if islower c then ascii_of_N (code c - 32) else c.

Fixpoint map_chars (f : ascii -> ascii) (s : string) : string :=
  match s with
  | EmptyString => EmptyString
  | String c s' => String (f c) (map_chars f s')
  end.

(** [s.lower()] and [s.upper()]. *)
Definition lower : string -> string := map_chars lower_char.
Definition upper : string -> string := map_chars upper_char.

(** The white space that [int] and [float] skip around ASCII text
    ([Py_ISSPACE]): TAB, LF, VT, FF, CR and SPACE. *)
Definition isspace_c (c : ascii) : bool :=
  in_range 9 13 c || in_range 32 32 c.

(** Dropping the leading characters of a class. *)
Fixpoint lstrip_with (sp : ascii -> bool) (s : string) : string :=
  match s with
  | String c s' => if sp c then lstrip_with sp s' else s
  | EmptyString => EmptyString
  end.

(** Dropping the trailing characters of a class: a character is
    dropped when it is in the class and all that follows it has been
    dropped. *)
Fixpoint rstrip_with (sp : ascii -> bool) (s : string) : string :=
  match s with
  | EmptyString => EmptyString
  | String c s' =>
      match rstrip_with sp s' with
      | EmptyString => if sp c then EmptyString else String c EmptyString
      | t => String c t
      end
  end.

Definition strip_with (sp : ascii -> bool) (s : string) : string :=
  rstrip_with sp (lstrip_with sp s).

(** [s.lstrip()], [s.rstrip()] and [s.strip()]. *)
Definition lstrip : string -> string := lstrip_with isspace.
Definition rstrip : string -> string := rstrip_with isspace.
Definition strip : string -> string := strip_with isspace.

(** [s.split(', ')]: the pieces between the non-overlapping
    occurrences of comma-space, scanned left to right; [cur] holds
    the piece being read, reversed. There is always at least one
    piece. *)
Fixpoint split_from (cur : list ascii) (s : string) : list string :=
  match s with
  | EmptyString => [string_of_list_ascii (rev cur)]
  | String "," (String " " rest) =>
      string_of_list_ascii (rev cur) :: split_from [] rest
  | String c rest => split_from (c :: cur) rest
  end.

Definition split_comma_space (s : string) : list string := split_from [] s.

(** The value of a run of decimal digits, most significant first. *)
Definition digit_value (c : ascii) : Z := Z.of_N (code c) - 48.

Fixpoint digits_value (acc : Z) (s : string) : Z :=
  match s with
  | EmptyString => acc
  | String c s' => digits_value (10 * acc + digit_value c) s'
  end.

Fixpoint all_chars (f : ascii -> bool) (s : string) : bool :=
  match s with
  | EmptyString => true
  | String c s' => f c && all_chars f s'
  end.

End Text.

(* --------------------------------------------------------------------- *)
(** ** A backtracking matcher for the regular expressions of the script  *)
(* --------------------------------------------------------------------- *)

(** The fragment of [re] that the script and [strptime] use: character
    classes, sequence, ordered alternation, greedy repetition of a
    class and numbered groups. Matching is by backtracking with the
    first success returned, as in [re.match]. *)
Module Regex.

Inductive re : Type :=
| Eps
| Cls (f : ascii -> bool)
| Seq (a b : re)
| Alt (a b : re)
| Star (f : ascii -> bool)
| Group (i : nat) (a : re).

Definition Chr (c : ascii) : re := Cls (fun x => bool_decide (x = c)).
Definition Plus (f : ascii -> bool) : re := Seq (Cls f) (Star f).
Definition Opt (a : re) : re := Alt a Eps.

Fixpoint Times (n : nat) (a : re) : re :=
  match n with
  | O => Eps
  | S n' => Seq a (Times n' a)
  end.

(** Group contents found so far, latest first. *)
Definition captures := list (nat * string).

Definition group (i : nat) (cs : captures) : option string :=
  snd <$> List.find (fun p => bool_decide (fst p = i)) cs.

(** What was read between [s] and its suffix [rest]. *)
Definition consumed (s rest : string) : string :=
  substring 0 (String.length s - String.length rest) s.

(** Greedy repetition of a class: read as many characters as the
    class allows and give one back at a time while the continuation
    fails. *)
Fixpoint star {R} (f : ascii -> bool) (s : string)
         (k : string -> option R) : option R :=
  match s with
  | String c s' =>
      if f c then
        match star f s' k with
        | Some r => Some r
        | None => k s
        end
      else k s
  | EmptyString => k s
  end.

Fixpoint run {R} (r : re) (s : string) (cs : captures)
         (k : string -> captures -> option R) : option R :=
  match r with
  | Eps => k s cs
  | Cls f =>
      match s with
      | String c s' => if f c then k s' cs else None
      | EmptyString => None
      end
  | Seq a b => run a s cs (fun s1 cs1 => run b s1 cs1 k)
  | Alt a b =>
      match run a s cs k with
      | Some x => Some x
      | None => run b s cs k
      end
  | Star f => star f s (fun s1 => k s1 cs)
  | Group i a => run a s cs (fun s1 cs1 => k s1 ((i, consumed s s1) :: cs1))
  end.

(** [re.match(r, s)]: anchored at the start only. The result holds
    the groups and the unread rest of [s]. *)
Definition rmatch (r : re) (s : string) : option (captures * string) :=
  run r s [] (fun rest cs => Some (cs, rest)).

End Regex.

(* --------------------------------------------------------------------- *)
(** ** Python values, exceptions and the conversions [int] and [float]   *)
(* --------------------------------------------------------------------- *)

Module Py.

(** The exceptions the modelled code can raise. *)
Inductive exn : Type :=
| ValueError
| OverflowError
| AttributeError
| KeyError.

Inductive result (A : Type) : Type :=
| Ok (a : A)
| Raise (e : exn).
Arguments Ok {A} a.
Arguments Raise {A} e.

(** A Python [float]: the exact rational a finite value stands for
    (rounding to binary64 is not modelled), an infinity, or NaN. *)
Inductive pyfloat : Type :=
| Finite (q : Q)
| Infinity (negative : bool)
| NotANumber.

(** One cell of the DataFrame that [pd.read_csv] returns: an integer
    or a float in a numeric column, text otherwise. An empty field is
    the float NaN in every column. *)
Inductive cell : Type :=
| CInt (z : Z)
| CFloat (f : pyfloat)
| CStr (s : string).

Definition NaN : cell := CFloat NotANumber.

(** [pd.isna(x)] and [pd.notna(x)] on a cell. *)
Definition isna (c : cell) : bool :=
  match c with
  | CFloat NotANumber => true
  | _ => false
  end.

Definition notna (c : cell) : bool := negb (isna c).

(** Digits with single underscores between them, as [int] accepts
    them: [prev] tells whether the previous character was a digit. *)
Fixpoint int_digits (prev : bool) (acc : Z) (s : string) : option Z :=
  match s with
  | EmptyString => if prev then Some acc else None
  | String c s' =>
      if Text.isdigit c then int_digits true (10 * acc + Text.digit_value c) s'
      else if bool_decide (c = "_"%char) && prev then int_digits false acc s'
      else None
  end.

(** [int(s)] for text, base ten: surrounding white space, an optional
    sign, digits. The limit on the number of digits is not modelled. *)
Definition int_of_string (s : string) : result Z :=
  let t := Text.strip_with Text.isspace_c s in
  let signed :=
    match t with
    | String "+" r => int_digits false 0 r
    | String "-" r => Z.opp <$> int_digits false 0 r
    | _ => int_digits false 0 t
    end in
  match signed with
  | Some z => Ok z
  | None => Raise ValueError
  end.

(** [int(x)]: truncation towards zero for a float. *)
Definition int (c : cell) : result Z :=
  match c with
  | CInt z => Ok z
  | CFloat (Finite q) => Ok (Z.quot (Qnum q) (Z.pos (Qden q)))
  | CFloat (Infinity _) => Raise OverflowError
  | CFloat NotANumber => Raise ValueError
  | CStr s => int_of_string s
  end.

(** The longest [digitpart] at the head of [s]: its value on top of
    [acc], the number of digits read, and the rest. *)
Fixpoint read_digits (acc : Z) (n : nat) (s : string) : Z * nat * string :=
  match s with
  | String c s' =>
      if Text.isdigit c then read_digits (10 * acc + Text.digit_value c) (S n) s'
      else if bool_decide (c = "_"%char) && negb (Nat.eqb n 0) then
        match s' with
        | String d s'' =>
            if Text.isdigit d
            then read_digits (10 * acc + Text.digit_value d) (S n) s''
            else (acc, n, s)
        | EmptyString => (acc, n, s)
        end
      else (acc, n, s)
  | EmptyString => (acc, n, s)
  end.

(** [mantissa * 10 ^ e] as a rational. *)
Definition scale10 (mantissa e : Z) : Q :=
  if 0 <=? e then Qmake (mantissa * 10 ^ e) 1
  else Qmake mantissa (Z.to_pos (10 ^ (- e))).

(** The exponent part of a float literal, or nothing at the end. *)
Definition read_exponent (s : string) : option Z :=
  match s with
  | EmptyString => Some 0
  | String c r =>
      if bool_decide (c = "e"%char) || bool_decide (c = "E"%char) then
        let '(neg, r') :=
          match r with
          | String "+" r' => (false, r')
          | String "-" r' => (true, r')
          | _ => (false, r)
          end in
        match read_digits 0 0 r' with
        | (v, S _, EmptyString) => Some (if neg then - v else v)
        | _ => None
        end
      else None
  end.

(** [floatnumber] of the grammar of [float]. *)
Definition read_floatnumber (s : string) : option Q :=
  let '(m1, n1, r1) := read_digits 0 0 s in
  match r1 with
  | String "." r2 =>
      let '(m2, n2, r3) := read_digits m1 0 r2 in
      if Nat.eqb n1 0 && Nat.eqb n2 0 then None
      else (fun e => scale10 m2 (e - Z.of_nat n2)) <$> read_exponent r3
  | _ =>
      if Nat.eqb n1 0 then None
      else scale10 m1 <$> read_exponent r1
  end.

Definition read_absfloat (negative : bool) (s : string) : option pyfloat :=
  let l := Text.lower s in
  if bool_decide (l = "inf") || bool_decide (l = "infinity")
  then Some (Infinity negative)
  else if bool_decide (l = "nan") then Some NotANumber
  else (fun q => Finite (if negative then Qopp q else q)) <$> read_floatnumber s.

(** [float(s)] for text. *)
Definition float_of_string (s : string) : result pyfloat :=
  let t := Text.strip_with Text.isspace_c s in
  let parsed :=
    match t with
    | String "+" r => read_absfloat false r
    | String "-" r => read_absfloat true r
    | _ => read_absfloat false t
    end in
  match parsed with
  | Some f => Ok f
  | None => Raise ValueError
  end.

(** [float(x)]. *)
Definition float (c : cell) : result pyfloat :=
  match c with
  | CInt z => Ok (Finite (Qmake z 1))
  | CFloat f => Ok f
  | CStr s => float_of_string s
  end.

(** [x.strip()]: only text has the method. *)
Definition strip (c : cell) : result string :=
  match c with
  | CStr s => Ok (Text.strip s)
  | _ => Raise AttributeError
  end.

(** [str(n)] for an integer. *)
Definition str_of_int (z : Z) : string := pretty z.

End Py.

(* --------------------------------------------------------------------- *)
(** ** [datetime.strptime(s, '%m/%d/%Y')] and [strftime('%Y-%m-%d')]      *)
(* --------------------------------------------------------------------- *)

Module Datetime.
Import Regex.

Record date : Type := { year : Z; month : Z; day : Z }.

Definition digit : re := Cls Text.isdigit.
Definition digit_in (lo hi : N) : re := Cls (Text.in_range lo hi).

(** The expressions [_strptime] substitutes for the directives:
    [%m] is [1[0-2]|0[1-9]|[1-9]],
    [%d] is [3[0-1]|[1-2]\d|0[1-9]|[1-9]| [1-9]],
    [%Y] is [\d\d\d\d]. *)
Definition re_m : re :=
  Alt (Seq (Chr "1") (digit_in 48 50))
    (Alt (Seq (Chr "0") (digit_in 49 57)) (digit_in 49 57)).

Definition re_d : re :=
  Alt (Seq (Chr "3") (digit_in 48 49))
    (Alt (Seq (digit_in 49 50) digit)
       (Alt (Seq (Chr "0") (digit_in 49 57))
          (Alt (digit_in 49 57) (Seq (Chr " ") (digit_in 49 57))))).

Definition re_Y : re := Times 4 digit.

Definition format_regex : re :=
  Seq (Group 1 re_m)
    (Seq (Chr "/") (Seq (Group 2 re_d) (Seq (Chr "/") (Group 3 re_Y)))).

Definition is_leap (y : Z) : bool :=
  (y mod 4 =? 0) && (negb (y mod 100 =? 0) || (y mod 400 =? 0)).

Definition days_in_month (y m : Z) : Z :=
  if m =? 2 then (if is_leap y then 29 else 28)
  else if (m =? 4) || (m =? 6) || (m =? 9) || (m =? 11) then 30
  else 31.

(** [int(found_dict[...])]: the value of a matched group, which is
    made of digits, after a space at most. *)
Definition group_int (i : nat) (cs : captures) : Z :=
  match group i cs with
  | Some s => Text.digits_value 0 (Text.lstrip_with Text.isspace_c s)
  | None => 0
  end.

(** [datetime.strptime(s, '%m/%d/%Y')]: the expression must match at
    the start, nothing may remain, and the fields must form a date
    of the calendar ([MINYEAR] is 1). *)
Definition strptime (s : string) : Py.result date :=
  match rmatch format_regex s with
  | None => Py.Raise Py.ValueError
  | Some (cs, rest) =>
      if negb (bool_decide (rest = "")) then Py.Raise Py.ValueError
      else
        let y := group_int 3 cs in
        let m := group_int 1 cs in
        let d := group_int 2 cs in
        if (1 <=? y) && (d <=? days_in_month y m)
        then Py.Ok {| year := y; month := m; day := d |}
        else Py.Raise Py.ValueError
  end.

Definition zero_pad (width : nat) (s : string) : string :=
  string_of_list_ascii (repeat "0"%char (width - String.length s)) +:+ s.

(** [d.strftime('%Y-%m-%d')], the year padded to four digits (for a
    year below 1000 the padding of [%Y] depends on the C library). *)
Definition strftime (d : date) : string :=
  zero_pad 4 (pretty (year d)) +:+ "-" +:+
  zero_pad 2 (pretty (month d)) +:+ "-" +:+
  zero_pad 2 (pretty (day d)).

End Datetime.

(* ===================================================================== *)
(** * Part 2: the field normalisers of [GreenspotETL]                     *)
(* ===================================================================== *)

Import Py.

(** The dictionary [clean_vendor_data] returns. *)
Module VendorData.
Record t : Type := {
  vendor_name : string;
  address : string;
  city : string;
  state : string;
  zip_code : string
}.
End VendorData.

(** [r'([^,]+),?\s+([A-Z]{2})\s+(\d{5})'] *)
Definition location_pattern : Regex.re :=
  Regex.Seq (Regex.Group 1 (Regex.Plus (fun c => negb (bool_decide (c = ","%char)))))
    (Regex.Seq (Regex.Opt (Regex.Chr ","))
       (Regex.Seq (Regex.Plus Text.isspace)
          (Regex.Seq (Regex.Group 2 (Regex.Times 2 (Regex.Cls Text.isupper)))
             (Regex.Seq (Regex.Plus Text.isspace)
                (Regex.Group 3 (Regex.Times 5 (Regex.Cls Text.isdigit))))))).

(** [match.group(i).strip()] *)
Definition group_strip (i : nat) (cs : Regex.captures) : string :=
  Text.strip (default "" (Regex.group i cs)).

(** [clean_vendor_data(vendor_string)]: [None] for a missing or blank
    string, otherwise the fields read from the pieces of
    ["Name, Address, City, State Zip"]. *)
Definition clean_vendor_data (vendor_string : cell) : result (option VendorData.t) :=
  if isna vendor_string then Ok None
  else
    match vendor_string with
    | CStr s =>
        if bool_decide (Text.strip s = "") then Ok None
        else
          let parts := Text.split_comma_space s in
          let vendor_data :=
            {| VendorData.vendor_name :=
                 if bool_decide (0 < length parts)%nat
                 then Text.strip (default "" (parts !! 0%nat))
                 else "Unknown Vendor";
               VendorData.address :=
                 if bool_decide (1 < length parts)%nat
                 then Text.strip (default "" (parts !! 1%nat))
                 else "";
               VendorData.city := "";
               VendorData.state := "";
               VendorData.zip_code := "" |} in
          if bool_decide (2 < length parts)%nat then
            let location := Text.strip (default "" (parts !! 2%nat)) in
            match Regex.rmatch location_pattern location with
            | Some (cs, _) =>
                Ok (Some {| VendorData.vendor_name := VendorData.vendor_name vendor_data;
                            VendorData.address := VendorData.address vendor_data;
                            VendorData.city := group_strip 1 cs;
                            VendorData.state := group_strip 2 cs;
                            VendorData.zip_code := group_strip 3 cs |})
            | None => Ok (Some vendor_data)
            end
          else Ok (Some vendor_data)
    | _ => Raise AttributeError
    end.

(** The table of [normalize_unit]. *)
Definition unit_mappings : gmap string string :=
  list_to_map [ ("12 ounce can", "12 oz can");
                ("12-oz can", "12 oz can");
                ("36 oz can", "36 oz can");
                ("bunch", "bunch");
                ("dozen", "dozen") ].

(** [normalize_unit(unit)] *)
Definition normalize_unit (unit : cell) : result string :=
  if isna unit then Ok "each"
  else
    match unit with
    | CStr s =>
        let unit := Text.strip (Text.lower s) in
        Ok (default unit (unit_mappings !! unit))
    | _ => Raise AttributeError
    end.

(** [normalize_location(location)] *)
Definition normalize_location (location : cell) : result string :=
  if isna location then Ok "GENERAL"
  else
    match location with
    | CStr s => Ok (Text.strip (Text.upper s))
    | _ => Raise AttributeError
    end.

(** [datetime.strptime(str(date_str).strip(), '%m/%d/%Y')]: the text of
    a number has no ['/'], so the format cannot match it. *)
Definition strptime_cell (date_str : cell) : result Datetime.date :=
  match date_str with
  | CStr s => Datetime.strptime (Text.strip s)
  | _ => Raise ValueError
  end.

(** Whether [str(x).strip()] is empty: the text of a number never is. *)
Definition str_strip_empty (x : cell) : bool :=
  match x with
  | CStr s => bool_decide (Text.strip s = "")
  | _ => false
  end.

(* ===================================================================== *)
(** * Part 3: the containers of the class and the row pass                *)
(* ===================================================================== *)

Module Vendor.
(** [{'vendor_id': ..., **vendor_data}] *)
Record t : Type := { vendor_id : Z; data : VendorData.t }.
End Vendor.

Module Product.
Record t : Type := {
  product_id : Z;
  product_name : string;
  category : string;
  unit_of_measure : string;
  location_code : string
}.
End Product.

Module Purchase.
Record t : Type := {
  product_id : Z;
  vendor_id : Z;
  quantity_ordered : Z;
  unit_cost : pyfloat;
  purchase_date : option string
}.
End Purchase.

Module Sale.
Record t : Type := {
  product_id : Z;
  customer_id : option Z;
  quantity_sold : Z;
  unit_price : pyfloat;
  sale_date : option string
}.
End Sale.

(** One row of the DataFrame, one field per column the script reads:
    ['Item num'], ['description'], ['item type'], ['Unit'],
    ['Location'], ['vendor'], ['cost'], ['Quantity'],
    ['purchase date'], ['quantity on-hand'], ['price'], ['cust'],
    ['date sold']. *)
Module Row.
Record t : Type := {
  Item_num : cell;
  description : cell;
  item_type : cell;
  Unit : cell;
  Location : cell;
  vendor : cell;
  cost : cell;
  Quantity : cell;
  purchase_date : cell;
  quantity_on_hand : cell;
  price : cell;
  cust : cell;
  date_sold : cell
}.

Definition cells (r : t) : list cell :=
  [ Item_num r; description r; item_type r; Unit r; Location r; vendor r;
    cost r; Quantity r; purchase_date r; quantity_on_hand r; price r;
    cust r; date_sold r ].
End Row.

(** What the module logger receives at the levels WARNING and ERROR
    (the INFO lines are left out). *)
Inductive log_record : Type :=
| WARNING_could_not_parse_date (date_str : cell)
| ERROR_parsing_csv (e : exn)
| ERROR_connection_failed
| ERROR_etl_failed (e : exn).

(** The data containers of [GreenspotETL.__init__], with the log. *)
Record GreenspotETL : Type := {
  vendors : gmap string Vendor.t;
  products : gmap Z Product.t;
  customers : gset Z;
  categories : gmap string Z;
  purchases : list Purchase.t;
  sales : list Sale.t;
  inventory : gmap Z Z;
  logged : list log_record
}.

Definition init : GreenspotETL :=
  {| vendors := ∅; products := ∅; customers := ∅; categories := ∅;
     purchases := []; sales := []; inventory := ∅; logged := [] |}.

Definition set_vendors (v : gmap string Vendor.t) (s : GreenspotETL) :=
  {| vendors := v; products := products s; customers := customers s;
     categories := categories s; purchases := purchases s; sales := sales s;
     inventory := inventory s; logged := logged s |}.
Definition set_products (p : gmap Z Product.t) (s : GreenspotETL) :=
  {| vendors := vendors s; products := p; customers := customers s;
     categories := categories s; purchases := purchases s; sales := sales s;
     inventory := inventory s; logged := logged s |}.
Definition set_customers (c : gset Z) (s : GreenspotETL) :=
  {| vendors := vendors s; products := products s; customers := c;
     categories := categories s; purchases := purchases s; sales := sales s;
     inventory := inventory s; logged := logged s |}.
Definition set_categories (c : gmap string Z) (s : GreenspotETL) :=
  {| vendors := vendors s; products := products s; customers := customers s;
     categories := c; purchases := purchases s; sales := sales s;
     inventory := inventory s; logged := logged s |}.
Definition set_purchases (l : list Purchase.t) (s : GreenspotETL) :=
  {| vendors := vendors s; products := products s; customers := customers s;
     categories := categories s; purchases := l; sales := sales s;
     inventory := inventory s; logged := logged s |}.
Definition set_sales (l : list Sale.t) (s : GreenspotETL) :=
  {| vendors := vendors s; products := products s; customers := customers s;
     categories := categories s; purchases := purchases s; sales := l;
     inventory := inventory s; logged := logged s |}.
Definition set_inventory (i : gmap Z Z) (s : GreenspotETL) :=
  {| vendors := vendors s; products := products s; customers := customers s;
     categories := categories s; purchases := purchases s; sales := sales s;
     inventory := i; logged := logged s |}.
Definition set_logged (l : list log_record) (s : GreenspotETL) :=
  {| vendors := vendors s; products := products s; customers := customers s;
     categories := categories s; purchases := purchases s; sales := sales s;
     inventory := inventory s; logged := l |}.

(** ** The monad of the methods: the object is threaded through, and an
    exception keeps the object as it was when it was raised. *)
Definition M (A : Type) : Type := GreenspotETL → result A * GreenspotETL.

Global Instance M_ret : MRet M := λ A a s, (Ok a, s).
Global Instance M_bind : MBind M := λ A B k c s,
  match c s with
  | (Ok a, s') => k a s'
  | (Raise e, s') => (Raise e, s')
  end.

Definition lift {A} (r : result A) : M A := λ s, (r, s).
Definition raise {A} (e : exn) : M A := λ s, (Raise e, s).
Definition gets {A} (f : GreenspotETL → A) : M A := λ s, (Ok (f s), s).
Definition modify (f : GreenspotETL → GreenspotETL) : M unit := λ s, (Ok tt, f s).
Definition log (r : log_record) : M unit :=
  modify (λ s, set_logged (logged s ++ [r]) s).

(** [try: c except Exception as e: h e] *)
Definition try_except {A} (c : M A) (h : exn → M A) : M A := λ s,
  match c s with
  | (Raise e, s') => h e s'
  | r => r
  end.

(** [d[k]] raises [KeyError] when the key is missing. *)
Definition subscript {K V} `{Countable K} (d : gmap K V) (k : K) : result V :=
  match d !! k with
  | Some v => Ok v
  | None => Raise KeyError
  end.

(** [parse_date(date_str)] *)
Definition parse_date (date_str : cell) : M (option string) :=
  if isna date_str then mret None
  else
    match strptime_cell date_str with
    | Ok date_obj => mret (Some (Datetime.strftime date_obj))
    | Raise ValueError =>
        log (WARNING_could_not_parse_date date_str);; mret None
    | Raise e => raise e
    end.

(** [value if pd.notna(x) else default] *)
Definition if_notna {A} (x : cell) (value : result A) (default : A) : result A :=
  if notna x then value else Ok default.

(** The three blocks of [process_row], in the order of the source. *)

(** Lines 154-167, "Extract product information": a product the
    dictionary does not hold yet is defined, and its category. *)
Definition extract_product (row : Row.t) (item_num : Z) : M unit :=
  known ← gets (λ s, bool_decide (is_Some (products s !! item_num)));
  if negb known then
    category_name ← lift (if_notna (Row.item_type row)
                            (strip (Row.item_type row)) "General");
    product_name ← lift (if_notna (Row.description row)
                           (strip (Row.description row))
                           ("Product " +:+ str_of_int item_num));
    unit_of_measure ← lift (normalize_unit (Row.Unit row));
    location_code ← lift (normalize_location (Row.Location row));
    modify (λ s, set_products
      (<[item_num := {| Product.product_id := item_num;
                        Product.product_name := product_name;
                        Product.category := category_name;
                        Product.unit_of_measure := unit_of_measure;
                        Product.location_code := location_code |}]>
         (products s)) s);;
    (* Track categories *)
    modify (λ s,
      if bool_decide (is_Some (categories s !! category_name)) then s
      else set_categories
             (<[category_name := Z.of_nat (size (categories s)) + 1]>
                (categories s)) s)
  else mret tt.

(** Lines 169-191, "Process vendor information (for purchases)". *)
Definition process_vendor (row : Row.t) (item_num : Z) : M unit :=
  if notna (Row.vendor row) && notna (Row.cost row) then
    vendor_data ← lift (clean_vendor_data (Row.vendor row));
    match vendor_data with
    | Some vendor_data =>
        let vendor_key := VendorData.vendor_name vendor_data in
        modify (λ s,
          if bool_decide (is_Some (vendors s !! vendor_key)) then s
          else set_vendors
                 (<[vendor_key :=
                      {| Vendor.vendor_id := Z.of_nat (size (vendors s)) + 1;
                         Vendor.data := vendor_data |}]> (vendors s)) s);;
        (* Record purchase *)
        vs ← gets vendors;
        v ← lift (subscript vs vendor_key);
        quantity_ordered ← lift (if_notna (Row.Quantity row)
                                   (int (Row.Quantity row)) 0);
        unit_cost ← lift (float (Row.cost row));
        purchase_date ← parse_date (Row.purchase_date row);
        modify (λ s, set_purchases
          (purchases s ++
             [{| Purchase.product_id := item_num;
                 Purchase.vendor_id := Vendor.vendor_id v;
                 Purchase.quantity_ordered := quantity_ordered;
                 Purchase.unit_cost := unit_cost;
                 Purchase.purchase_date := purchase_date |}]) s);;
        (* Update inventory *)
        stocked ← gets (λ s, bool_decide (is_Some (inventory s !! item_num)));
        if negb stocked then
          quantity ← lift (if_notna (Row.quantity_on_hand row)
                             (int (Row.quantity_on_hand row)) 0);
          modify (λ s, set_inventory (<[item_num := quantity]> (inventory s)) s)
        else mret tt
    | None => mret tt
    end
  else mret tt.

(** Lines 193-206, "Process sales information". *)
Definition process_sales (row : Row.t) (item_num : Z) : M unit :=
  if notna (Row.price row) && notna (Row.date_sold row) then
    customer_id ←
      (if notna (Row.cust row) && negb (str_strip_empty (Row.cust row)) then
         customer_id ← lift (int (Row.cust row));
         modify (λ s, set_customers ({[customer_id]} ∪ customers s) s);;
         mret (Some customer_id)
       else mret None);
    quantity_sold ← lift (if_notna (Row.Quantity row)
                            (int (Row.Quantity row)) 0);
    unit_price ← lift (float (Row.price row));
    sale_date ← parse_date (Row.date_sold row);
    modify (λ s, set_sales
      (sales s ++
         [{| Sale.product_id := item_num;
             Sale.customer_id := customer_id;
             Sale.quantity_sold := quantity_sold;
             Sale.unit_price := unit_price;
             Sale.sale_date := sale_date |}]) s)
  else mret tt.

(** [process_row(row)] *)
Definition process_row (row : Row.t) : M unit :=
  item_num ← lift (int (Row.Item_num row));
  extract_product row item_num;;
  process_vendor row item_num;;
  process_sales row item_num.

(** [df.dropna(how='all')]: a row is dropped when every cell is NaN. *)
Definition dropna_all (df : list Row.t) : list Row.t :=
  filter (λ row, ¬ forallb isna (Row.cells row)) df.

(** The loop of [parse_csv_data] over [df.iterrows()]. *)
Fixpoint iterrows (df : list Row.t) : M unit :=
  match df with
  | [] => mret tt
  | row :: rest =>
      (if isna (Row.Item_num row) then mret tt (* continue *)
       else process_row row);;
      iterrows rest
  end.

(** [parse_csv_data(csv_file)], from the DataFrame on: an exception is
    logged and raised again. *)
Definition parse_csv_data (df : list Row.t) : M unit :=
  try_except (iterrows (dropna_all df))
    (λ e, log (ERROR_parsing_csv e);; raise e).

(* ===================================================================== *)
(** * Part 4: the sink and the load phases                                *)
(* ===================================================================== *)

(** Modelled from the spec: the relational sink. The schema of the MySQL
    database is not among the sources; the spec gives seven relations,
    the dimension tables with insert-if-absent on their key
    ([INSERT IGNORE]: a row whose key is present is dropped without an
    error) and the fact tables append-only ([INSERT]: every row is
    added). A dimension table is a finite map from its key to the other
    columns, a fact table the list of its rows in insertion order. Other
    constraints of a schema (foreign keys, NOT NULL) are not modelled. *)
Module Sink.

Record category_row : Type := { category_name : string; description : string }.

Record product_row : Type := {
  product_name : string;
  category_id : Z;
  unit_of_measure : string;
  location_code : string;
  primary_vendor_id : option Z
}.

Record customer_row : Type := { first_name : string; last_name : string }.

Record purchase_order_row : Type := {
  po_product_id : Z;
  po_vendor_id : Z;
  quantity_ordered : Z;
  unit_cost : pyfloat;
  purchase_date : option string;
  status : string
}.

Record sales_transaction_row : Type := {
  st_product_id : Z;
  st_customer_id : option Z;
  quantity_sold : Z;
  unit_price : pyfloat;
  sale_date : option string
}.

Record database : Type := {
  product_categories : gmap Z category_row;
  vendors : gmap Z VendorData.t;
  products : gmap Z product_row;
  customers : gmap Z customer_row;
  inventory : gmap Z Z;
  purchase_orders : list purchase_order_row;
  sales_transactions : list sales_transaction_row
}.

Definition empty : database :=
  {| product_categories := ∅; vendors := ∅; products := ∅; customers := ∅;
     inventory := ∅; purchase_orders := []; sales_transactions := [] |}.

(** [INSERT IGNORE INTO t ... VALUES (key, row)] *)
Definition insert_ignore {V} (key : Z) (row : V) (t : gmap Z V) : gmap Z V :=
  match t !! key with
  | Some _ => t
  | None => <[key := row]> t
  end.

(** [INSERT INTO t ... VALUES row] *)
Definition insert {V} (row : V) (t : list V) : list V := t ++ [row].

Definition set_product_categories t (db : database) :=
  {| product_categories := t; vendors := vendors db; products := products db;
     customers := customers db; inventory := inventory db;
     purchase_orders := purchase_orders db;
     sales_transactions := sales_transactions db |}.
Definition set_vendors t (db : database) :=
  {| product_categories := product_categories db; vendors := t;
     products := products db; customers := customers db;
     inventory := inventory db; purchase_orders := purchase_orders db;
     sales_transactions := sales_transactions db |}.
Definition set_products t (db : database) :=
  {| product_categories := product_categories db; vendors := vendors db;
     products := t; customers := customers db; inventory := inventory db;
     purchase_orders := purchase_orders db;
     sales_transactions := sales_transactions db |}.
Definition set_customers t (db : database) :=
  {| product_categories := product_categories db; vendors := vendors db;
     products := products db; customers := t; inventory := inventory db;
     purchase_orders := purchase_orders db;
     sales_transactions := sales_transactions db |}.
Definition set_inventory t (db : database) :=
  {| product_categories := product_categories db; vendors := vendors db;
     products := products db; customers := customers db; inventory := t;
     purchase_orders := purchase_orders db;
     sales_transactions := sales_transactions db |}.
Definition set_purchase_orders t (db : database) :=
  {| product_categories := product_categories db; vendors := vendors db;
     products := products db; customers := customers db;
     inventory := inventory db; purchase_orders := t;
     sales_transactions := sales_transactions db |}.
Definition set_sales_transactions t (db : database) :=
  {| product_categories := product_categories db; vendors := vendors db;
     products := products db; customers := customers db;
     inventory := inventory db; purchase_orders := purchase_orders db;
     sales_transactions := t |}.

End Sink.

(** The loops of the dimension phases take the items in the order of
    their second argument. The phases themselves pass the items in the
    order of [map_to_list] and [elements] rather than in the insertion
    order of the Python dictionary: the tables are keyed, and
    [load_order_immaterial] below shows that every order of the same
    items loads the same tables. *)

(** The loop of [load_categories]: one [INSERT IGNORE] per item. *)
Definition load_categories_items (items : list (string * Z)) (db : Sink.database)
  : Sink.database :=
  foldl (λ db '(category_name, category_id),
           Sink.set_product_categories
             (Sink.insert_ignore category_id
                {| Sink.category_name := category_name;
                   Sink.description := category_name +:+ " products" |}
                (Sink.product_categories db)) db)
        db items.

(** [load_categories()] *)
Definition load_categories (self : GreenspotETL) (db : Sink.database) : Sink.database :=
  load_categories_items (map_to_list (categories self)) db.

(** The loop of [load_vendors]. *)
Definition load_vendors_items (items : list (string * Vendor.t)) (db : Sink.database)
  : Sink.database :=
  foldl (λ db '(_, vendor_data),
           Sink.set_vendors
             (Sink.insert_ignore (Vendor.vendor_id vendor_data)
                (Vendor.data vendor_data) (Sink.vendors db)) db)
        db items.

(** [load_vendors()] *)
Definition load_vendors (self : GreenspotETL) (db : Sink.database) : Sink.database :=
  load_vendors_items (map_to_list (vendors self)) db.

(** The inner loop of [load_products]: the vendor of the first purchase
    of the product, the scan stopping there ([break]). *)
Fixpoint find_primary_vendor (product_id : Z) (purchases : list Purchase.t) : option Z :=
  match purchases with
  | [] => None
  | purchase :: rest =>
      if bool_decide (Purchase.product_id purchase = product_id)
      then Some (Purchase.vendor_id purchase)
      else find_primary_vendor product_id rest
  end.

(** The row [load_products] writes for one product; the subscript
    [self.categories[product['category']]] can raise [KeyError]. *)
Definition product_values (self : GreenspotETL) (product : Product.t)
  : result (Z * Sink.product_row) :=
  let primary_vendor_id :=
    find_primary_vendor (Product.product_id product) (purchases self) in
  match subscript (categories self) (Product.category product) with
  | Ok category_id =>
      Ok (Product.product_id product,
          {| Sink.product_name := Product.product_name product;
             Sink.category_id := category_id;
             Sink.unit_of_measure := Product.unit_of_measure product;
             Sink.location_code := Product.location_code product;
             Sink.primary_vendor_id := primary_vendor_id |})
  | Raise e => Raise e
  end.

(** The loop of [load_products]. *)
Fixpoint load_products_items (self : GreenspotETL) (items : list (Z * Product.t))
         (db : Sink.database) : result Sink.database :=
  match items with
  | [] => Ok db
  | (_, product) :: rest =>
      match product_values self product with
      | Ok (product_id, row) =>
          load_products_items self rest
            (Sink.set_products
               (Sink.insert_ignore product_id row (Sink.products db)) db)
      | Raise e => Raise e
      end
  end.

(** [load_products()]: an exception other than the connector's [Error]
    leaves the phase before its commit. *)
Definition load_products (self : GreenspotETL) (db : Sink.database)
  : result Sink.database :=
  load_products_items self (map_to_list (products self)) db.

(** The loop of [load_customers]. *)
Definition load_customers_items (items : list Z) (db : Sink.database)
  : Sink.database :=
  foldl (λ db customer_id,
           Sink.set_customers
             (Sink.insert_ignore customer_id
                {| Sink.first_name := "Customer";
                   Sink.last_name := str_of_int customer_id |}
                (Sink.customers db)) db)
        db items.

(** [load_customers()] *)
Definition load_customers (self : GreenspotETL) (db : Sink.database) : Sink.database :=
  load_customers_items (elements (customers self)) db.

(** The loop of [load_inventory]. *)
Definition load_inventory_items (items : list (Z * Z)) (db : Sink.database)
  : Sink.database :=
  foldl (λ db '(product_id, quantity),
           Sink.set_inventory
             (Sink.insert_ignore product_id quantity (Sink.inventory db)) db)
        db items.

(** [load_inventory()] *)
Definition load_inventory (self : GreenspotETL) (db : Sink.database) : Sink.database :=
  load_inventory_items (map_to_list (inventory self)) db.

(** The values [load_purchases] passes for one purchase. *)
Definition purchase_values (purchase : Purchase.t) : Sink.purchase_order_row :=
  {| Sink.po_product_id := Purchase.product_id purchase;
     Sink.po_vendor_id := Purchase.vendor_id purchase;
     Sink.quantity_ordered := Purchase.quantity_ordered purchase;
     Sink.unit_cost := Purchase.unit_cost purchase;
     Sink.purchase_date := Purchase.purchase_date purchase;
     Sink.status := "received" |}.

(** [load_purchases()] *)
Definition load_purchases (self : GreenspotETL) (db : Sink.database) : Sink.database :=
  foldl (λ db purchase,
           Sink.set_purchase_orders
             (Sink.insert (purchase_values purchase) (Sink.purchase_orders db)) db)
        db (purchases self).

Definition sale_values (sale : Sale.t) : Sink.sales_transaction_row :=
  {| Sink.st_product_id := Sale.product_id sale;
     Sink.st_customer_id := Sale.customer_id sale;
     Sink.quantity_sold := Sale.quantity_sold sale;
     Sink.unit_price := Sale.unit_price sale;
     Sink.sale_date := Sale.sale_date sale |}.

(** [load_sales()] *)
Definition load_sales (self : GreenspotETL) (db : Sink.database) : Sink.database :=
  foldl (λ db sale,
           Sink.set_sales_transactions
             (Sink.insert (sale_values sale) (Sink.sales_transactions db)) db)
        db (sales self).

(** [run_etl(csv_file)], from the DataFrame on. [connected] is the
    result of [connect_database]. Every phase commits at its end, so
    the [rollback] of the handler returns the sink to the last
    completed phase. The result is the returned flag, the sink and the
    object. *)
Definition run_etl (connected : bool) (df : list Row.t) (db : Sink.database)
           (self : GreenspotETL) : bool * Sink.database * GreenspotETL :=
  if negb connected then
    (false, db, set_logged (logged self ++ [ERROR_connection_failed]) self)
  else
    match parse_csv_data df self with
    | (Raise e, self) =>
        (false, db, set_logged (logged self ++ [ERROR_etl_failed e]) self)
    | (Ok _, self) =>
        let db := load_categories self db in
        let db := load_vendors self db in
        match load_products self db with
        | Raise e =>
            (false, db, set_logged (logged self ++ [ERROR_etl_failed e]) self)
        | Ok db =>
            let db := load_customers self db in
            let db := load_inventory self db in
            let db := load_purchases self db in
            let db := load_sales self db in
            (true, db, self)
        end
    end.

(** [main()]: a new object, then [run_etl]. *)
Definition main (connected : bool) (df : list Row.t) (db : Sink.database)
  : bool * Sink.database * GreenspotETL :=
  run_etl connected df db init.

(** ** The summary *)

(** ["=" * 50] *)
Definition rule : string := string_of_list_ascii (repeat "="%char 50).

(** [len(x)] inside an f-string. *)
Definition str_of_len (n : nat) : string := str_of_int (Z.of_nat n).

(** [print_summary()]: the strings it passes to [print], one per
    call; the first starts with a line feed. *)
Definition print_summary (self : GreenspotETL) : list string :=
  [ String "010"%char rule;
    "ETL SUMMARY";
    rule;
    "Categories loaded: " +:+ str_of_len (size (categories self));
    "Vendors loaded: " +:+ str_of_len (size (vendors self));
    "Products loaded: " +:+ str_of_len (size (products self));
    "Customers loaded: " +:+ str_of_len (size (customers self));
    "Inventory records: " +:+ str_of_len (size (inventory self));
    "Purchase orders: " +:+ str_of_len (length (purchases self));
    "Sales transactions: " +:+ str_of_len (length (sales self));
    rule ].

(* ===================================================================== *)
(** * Part 5: the vocabulary of the properties                            *)
(* ===================================================================== *)

(** ** What one row asks of the object *)

(** [int(row['Quantity']) if pd.notna(row['Quantity']) else 0] *)
Definition quantity_of (row : Row.t) : result Z :=
  if_notna (Row.Quantity row) (int (Row.Quantity row)) 0.

(** [int(row['quantity on-hand']) if pd.notna(...) else 0] *)
Definition on_hand_of (row : Row.t) : result Z :=
  if_notna (Row.quantity_on_hand row) (int (Row.quantity_on_hand row)) 0.

(** The condition of the second block. *)
Definition vendor_gate (row : Row.t) : bool :=
  notna (Row.vendor row) && notna (Row.cost row).

(** The condition of the third block. *)
Definition sale_gate (row : Row.t) : bool :=
  notna (Row.price row) && notna (Row.date_sold row).

(** The customer of a sale row: [None] when the cell is missing or blank. *)
Definition customer_of (row : Row.t) : result (option Z) :=
  if notna (Row.cust row) && negb (str_strip_empty (Row.cust row)) then
    match int (Row.cust row) with
    | Ok c => Ok (Some c)
    | Raise e => Raise e
    end
  else Ok None.

(** The record the first block builds, its conversions in the order of
    the source. *)
Definition product_fields (row : Row.t) (n : Z) : result Product.t :=
  match if_notna (Row.item_type row) (strip (Row.item_type row)) "General" with
  | Raise e => Raise e
  | Ok category_name =>
    match if_notna (Row.description row) (strip (Row.description row))
            ("Product " +:+ str_of_int n) with
    | Raise e => Raise e
    | Ok product_name =>
      match normalize_unit (Row.Unit row) with
      | Raise e => Raise e
      | Ok unit_of_measure =>
        match normalize_location (Row.Location row) with
        | Raise e => Raise e
        | Ok location_code =>
            Ok {| Product.product_id := n;
                  Product.product_name := product_name;
                  Product.category := category_name;
                  Product.unit_of_measure := unit_of_measure;
                  Product.location_code := location_code |}
        end
      end
    end
  end.

(** ** The updates of the containers *)

Definition add_product (n : Z) (p : Product.t) (s : GreenspotETL) : GreenspotETL :=
  let s1 := set_products (<[n := p]> (products s)) s in
  if bool_decide (is_Some (categories s1 !! Product.category p)) then s1
  else set_categories
         (<[Product.category p := Z.of_nat (size (categories s1)) + 1]>
            (categories s1)) s1.

Definition add_vendor (vd : VendorData.t) (s : GreenspotETL) : GreenspotETL :=
  if bool_decide (is_Some (vendors s !! VendorData.vendor_name vd)) then s
  else set_vendors
         (<[VendorData.vendor_name vd :=
              {| Vendor.vendor_id := Z.of_nat (size (vendors s)) + 1;
                 Vendor.data := vd |}]> (vendors s)) s.

Definition add_customer (c : option Z) (s : GreenspotETL) : GreenspotETL :=
  match c with
  | Some customer_id => set_customers ({[customer_id]} ∪ customers s) s
  | None => s
  end.

(** ** The runs of [process_row], one constructor per path *)

Inductive product_step (row : Row.t) (n : Z) (s : GreenspotETL)
  : result unit → GreenspotETL → Prop :=
| ps_known :
    is_Some (products s !! n) → product_step row n s (Ok ()) s
| ps_raises e :
    products s !! n = None →
    product_fields row n = Raise e →
    product_step row n s (Raise e) s
| ps_defined p :
    products s !! n = None →
    product_fields row n = Ok p →
    product_step row n s (Ok ()) (add_product n p s).

Inductive snapshot_step (row : Row.t) (n : Z) (s : GreenspotETL)
  : result unit → GreenspotETL → Prop :=
| ss_stocked :
    is_Some (inventory s !! n) → snapshot_step row n s (Ok ()) s
| ss_on_hand_raises e :
    inventory s !! n = None →
    on_hand_of row = Raise e →
    snapshot_step row n s (Raise e) s
| ss_snapshot q :
    inventory s !! n = None →
    on_hand_of row = Ok q →
    snapshot_step row n s (Ok ()) (set_inventory (<[n := q]> (inventory s)) s).

Inductive vendor_step (row : Row.t) (n : Z) (s : GreenspotETL)
  : result unit → GreenspotETL → Prop :=
| vs_no_vendor :
    vendor_gate row = false → vendor_step row n s (Ok ()) s
| vs_blank_vendor :
    vendor_gate row = true →
    clean_vendor_data (Row.vendor row) = Ok None →
    vendor_step row n s (Ok ()) s
| vs_vendor_raises e :
    vendor_gate row = true →
    clean_vendor_data (Row.vendor row) = Raise e →
    vendor_step row n s (Raise e) s
| vs_quantity_raises vd e :
    vendor_gate row = true →
    clean_vendor_data (Row.vendor row) = Ok (Some vd) →
    quantity_of row = Raise e →
    vendor_step row n s (Raise e) (add_vendor vd s)
| vs_cost_raises vd q e :
    vendor_gate row = true →
    clean_vendor_data (Row.vendor row) = Ok (Some vd) →
    quantity_of row = Ok q →
    float (Row.cost row) = Raise e →
    vendor_step row n s (Raise e) (add_vendor vd s)
| vs_purchase vd v q c d l r s' :
    vendor_gate row = true →
    clean_vendor_data (Row.vendor row) = Ok (Some vd) →
    vendors (add_vendor vd s) !! VendorData.vendor_name vd = Some v →
    quantity_of row = Ok q →
    float (Row.cost row) = Ok c →
    parse_date (Row.purchase_date row) (add_vendor vd s)
      = (Ok d, set_logged l (add_vendor vd s)) →
    snapshot_step row n
      (set_purchases
         (purchases s ++
            [{| Purchase.product_id := n;
                Purchase.vendor_id := Vendor.vendor_id v;
                Purchase.quantity_ordered := q;
                Purchase.unit_cost := c;
                Purchase.purchase_date := d |}])
         (set_logged l (add_vendor vd s))) r s' →
    vendor_step row n s r s'.

Inductive sale_step (row : Row.t) (n : Z) (s : GreenspotETL)
  : result unit → GreenspotETL → Prop :=
| sl_no_sale :
    sale_gate row = false → sale_step row n s (Ok ()) s
| sl_customer_raises e :
    sale_gate row = true →
    customer_of row = Raise e →
    sale_step row n s (Raise e) s
| sl_quantity_raises c e :
    sale_gate row = true →
    customer_of row = Ok c →
    quantity_of row = Raise e →
    sale_step row n s (Raise e) (add_customer c s)
| sl_price_raises c q e :
    sale_gate row = true →
    customer_of row = Ok c →
    quantity_of row = Ok q →
    float (Row.price row) = Raise e →
    sale_step row n s (Raise e) (add_customer c s)
| sl_sale c q p d l :
    sale_gate row = true →
    customer_of row = Ok c →
    quantity_of row = Ok q →
    float (Row.price row) = Ok p →
    parse_date (Row.date_sold row) (add_customer c s)
      = (Ok d, set_logged l (add_customer c s)) →
    sale_step row n s (Ok ())
      (set_sales
         (sales s ++
            [{| Sale.product_id := n;
                Sale.customer_id := c;
                Sale.quantity_sold := q;
                Sale.unit_price := p;
                Sale.sale_date := d |}])
         (set_logged l (add_customer c s))).

Inductive row_step (row : Row.t) (s : GreenspotETL)
  : result unit → GreenspotETL → Prop :=
| rs_item_raises e :
    int (Row.Item_num row) = Raise e → row_step row s (Raise e) s
| rs_product_raises n e s1 :
    int (Row.Item_num row) = Ok n →
    product_step row n s (Raise e) s1 →
    row_step row s (Raise e) s1
| rs_vendor_raises n e s1 s2 :
    int (Row.Item_num row) = Ok n →
    product_step row n s (Ok ()) s1 →
    vendor_step row n s1 (Raise e) s2 →
    row_step row s (Raise e) s2
| rs_sale n s1 s2 r s3 :
    int (Row.Item_num row) = Ok n →
    product_step row n s (Ok ()) s1 →
    vendor_step row n s1 (Ok ()) s2 →
    sale_step row n s2 r s3 →
    row_step row s r s3.

(** ** The invariant of the containers *)

(** Surrogate keys handed out as [len(d) + 1]: they lie between 1 and
    the size of the dictionary, and two entries never share one. *)
Definition ids_ok {V} (id : V → Z) (d : gmap string V) : Prop :=
  (∀ k v, d !! k = Some v → 1 ≤ id v ≤ Z.of_nat (size d)) ∧
  (∀ k1 k2 v1 v2, d !! k1 = Some v1 → d !! k2 = Some v2 →
                  id v1 = id v2 → k1 = k2).

Record etl_inv (s : GreenspotETL) : Prop := {
  inv_vendors : ids_ok Vendor.vendor_id (vendors s);
  inv_categories : ids_ok id (categories s);
  inv_purchases : Forall (λ f,
      is_Some (products s !! Purchase.product_id f) ∧
      ∃ k v, vendors s !! k = Some v ∧ Vendor.vendor_id v = Purchase.vendor_id f)
    (purchases s);
  inv_sales : Forall (λ f,
      is_Some (products s !! Sale.product_id f) ∧
      ∀ c, Sale.customer_id f = Some c → c ∈ customers s)
    (sales s);
  inv_inventory : ∀ p, is_Some (inventory s !! p) → is_Some (products s !! p);
  inv_products : ∀ k p, products s !! k = Some p →
    Product.product_id p = k ∧ is_Some (categories s !! Product.category p)
}.

(** The objects the row loop can reach from a new one. *)
Definition reachable (s : GreenspotETL) : Prop :=
  ∃ df, (iterrows df init).2 = s.

(** ** The load phases, table by table *)

Global Instance result_ret : MRet result := λ A, Ok.
Global Instance result_bind : MBind result := λ A B f r,
  match r with
  | Ok a => f a
  | Raise e => Raise e
  end.

Definition result_to_option {A} (r : result A) : option A :=
  match r with
  | Ok a => Some a
  | Raise _ => None
  end.

(** A sequence of [INSERT IGNORE] statements on one table. *)
Definition insert_all_ignore {V} (rows : list (Z * V)) (t : gmap Z V) : gmap Z V :=
  foldl (λ t '(key, row), Sink.insert_ignore key row t) t rows.

Definition category_rows (items : list (string * Z)) : list (Z * Sink.category_row) :=
  (λ '(category_name, category_id),
     (category_id,
      {| Sink.category_name := category_name;
         Sink.description := category_name +:+ " products" |})) <$> items.

Definition vendor_rows (items : list (string * Vendor.t)) : list (Z * VendorData.t) :=
  (λ '(_, vendor_data), (Vendor.vendor_id vendor_data, Vendor.data vendor_data))
    <$> items.

Definition product_rows (self : GreenspotETL) (items : list (Z * Product.t))
  : result (list (Z * Sink.product_row)) :=
  mapM (λ '(_, product), product_values self product) items.

Definition customer_rows (items : list Z) : list (Z * Sink.customer_row) :=
  (λ customer_id,
     (customer_id,
      {| Sink.first_name := "Customer";
         Sink.last_name := str_of_int customer_id |})) <$> items.

(** ** Rows and predicates the statements speak of *)

(** Whether the row, once processed, appends a purchase for product [p]:
    an item number that is [p], a vendor and a cost that are present,
    and a vendor string that is not blank. *)
Definition emits_purchase (p : Z) (row : Row.t) : bool :=
  notna (Row.Item_num row) &&
  match int (Row.Item_num row) with
  | Ok n => bool_decide (n = p)
  | Raise _ => false
  end &&
  vendor_gate row &&
  match clean_vendor_data (Row.vendor row) with
  | Ok (Some _) => true
  | _ => false
  end.

(** Whether the second block reaches [self.purchases.append]: a vendor
    and a cost that are present, and a vendor string that is not
    blank. *)
Definition records_purchase (row : Row.t) : bool :=
  vendor_gate row &&
  match clean_vendor_data (Row.vendor row) with
  | Ok (Some _) => true
  | _ => false
  end.


(** Characters of the pieces of a vendor string. *)
Definition not_comma (c : ascii) : bool := negb (bool_decide (c = ","%char)).
Definition not_digit (c : ascii) : bool := negb (Text.isdigit c).


(** A purchase line of the export: the sale columns are empty. *)
Definition purchase_row (item_num : cell) (vendor cost quantity date on_hand : cell)
  : Row.t :=
  {| Row.Item_num := item_num; Row.description := CStr "Bennet Farm free-range eggs";
     Row.item_type := CStr "Dairy"; Row.Unit := CStr "dozen";
     Row.Location := CStr "D12"; Row.vendor := vendor;
     Row.cost := cost; Row.Quantity := quantity; Row.purchase_date := date;
     Row.quantity_on_hand := on_hand; Row.price := NaN; Row.cust := NaN;
     Row.date_sold := NaN |}.

(** A line that carries a purchase and a sale at once. *)
Definition full_row (item_num : cell) (vendor cost quantity : cell)
           (price cust date_sold : cell) : Row.t :=
  {| Row.Item_num := item_num; Row.description := CStr "Freshness White beans";
     Row.item_type := CStr "Canned"; Row.Unit := CStr "12 ounce can";
     Row.Location := CStr "a2"; Row.vendor := vendor;
     Row.cost := cost; Row.Quantity := quantity;
     Row.purchase_date := CStr "2/2/2022";
     Row.quantity_on_hand := CInt 50; Row.price := price; Row.cust := cust;
     Row.date_sold := date_sold |}.

Definition bennet : cell := CStr "Bennet Farms, Rt. 17, Evansville, IL 55446".
Definition freshness : cell := CStr "Freshness Inc., 202 E. Maple St., St. Joseph, MO 45678".

(** The value [parse_date] returns for a cell. *)
Definition date_of (date_str : cell) : option string :=
  if isna date_str then None
  else
    match strptime_cell date_str with
    | Ok date_obj => Some (Datetime.strftime date_obj)
    | Raise _ => None
    end.

(** Two purchase lines of product 1000 from the same vendor, with 40
    and then 25 on hand. *)
Definition snapshots_40_then_25 : list Row.t :=
  [ purchase_row (CInt 1000) bennet (CFloat (Finite 2.35)) (CInt 25)
      (CStr "2/1/2022") (CInt 40);
    purchase_row (CInt 1000) bennet (CFloat (Finite 2.35)) (CInt 25)
      (CStr "2/8/2022") (CInt 25) ].

(** Two purchase lines of product 1000, from vendor A and then from
    vendor B. *)
Definition vendor_A_then_B : list Row.t :=
  [ purchase_row (CInt 1000) bennet (CFloat (Finite 2.35)) (CInt 25)
      (CStr "2/1/2022") (CInt 40);
    purchase_row (CInt 1000) freshness (CFloat (Finite 2.5)) (CInt 20)
      (CStr "2/8/2022") (CInt 25) ].

(** A line with a first-time item, a vendor with a cost, and a price
    with a sale date. *)
Definition purchase_and_sale_row : Row.t :=
  full_row (CInt 1100) freshness (CFloat (Finite 0.69)) (CInt 40)
    (CFloat (Finite 1.49)) (CInt 198765) (CStr "2/2/2022").

(** The same line with a quantity that is not a number. *)
Definition bad_quantity_row : Row.t :=
  full_row (CInt 1100) freshness (CFloat (Finite 0.69)) (CStr "forty")
    (CFloat (Finite 1.49)) (CInt 198765) (CStr "2/2/2022").



(** A purchase line whose item number is text that is not a number. *)
Definition bad_item_row : Row.t :=
  purchase_row (CStr "10O0") bennet (CFloat (Finite 2.35)) (CInt 25)
    (CStr "2/1/2022") (CInt 40).

(** A purchase line without an item number. *)
Definition no_item_row : Row.t :=
  purchase_row NaN bennet (CFloat (Finite 2.35)) (CInt 25)
    (CStr "2/1/2022") (CInt 40).

Definition good_row : Row.t :=
  purchase_row (CInt 1000) bennet (CFloat (Finite 2.35)) (CInt 25)
    (CStr "2/1/2022") (CInt 40).

(** ** What an expression has read *)

(** [matches r p cs]: the expression [r] can read exactly the text [p],
    its groups then holding [cs], latest first. *)
Inductive matches : Regex.re → string → Regex.captures → Prop :=
| m_eps : matches Regex.Eps "" []
| m_cls f c : f c = true → matches (Regex.Cls f) (String c "") []
| m_seq a b p q ca cb :
    matches a p ca → matches b q cb →
    matches (Regex.Seq a b) (p +:+ q) (cb ++ ca)%list
| m_alt_l a b p cs : matches a p cs → matches (Regex.Alt a b) p cs
| m_alt_r a b p cs : matches b p cs → matches (Regex.Alt a b) p cs
| m_star f p : Text.all_chars f p = true → matches (Regex.Star f) p []
| m_group i a p cs : matches a p cs → matches (Regex.Group i a) p ((i, p) :: cs).

(** A date of the calendar, as [datetime] accepts them. *)
Definition valid_date (d : Datetime.date) : Prop :=
  1 ≤ Datetime.year d ≤ 9999 ∧
  1 ≤ Datetime.month d ≤ 12 ∧
  1 ≤ Datetime.day d ≤ Datetime.days_in_month (Datetime.year d) (Datetime.month d).

(** ** Growth of the containers *)

(** [grows s s']: every entry of a dictionary of [s] is in [s'] with
    the same value, every customer of [s] is in [s'], and the lists of
    [s'] start with those of [s]. *)
Definition grows (s s' : GreenspotETL) : Prop :=
  vendors s ⊆ vendors s' ∧
  products s ⊆ products s' ∧
  customers s ⊆ customers s' ∧
  categories s ⊆ categories s' ∧
  purchases s `prefix_of` purchases s' ∧
  sales s `prefix_of` sales s' ∧
  inventory s ⊆ inventory s' ∧
  logged s `prefix_of` logged s'.

(** ** The rows behind the entries *)

(** Whether the row is processed with item number [n]: the first such
    row defines the product. *)
Definition defines_product (n : Z) (row : Row.t) : bool :=
  notna (Row.Item_num row) &&
  match int (Row.Item_num row) with
  | Ok m => bool_decide (m = n)
  | Raise _ => false
  end.

(** Whether the row is processed and names vendor [k] in its second
    block. *)
Definition names_vendor (k : string) (row : Row.t) : bool :=
  notna (Row.Item_num row) && vendor_gate row &&
  match clean_vendor_data (Row.vendor row) with
  | Ok (Some vd) => bool_decide (VendorData.vendor_name vd = k)
  | _ => false
  end.

(** The rows that are processed and reach [self.purchases.append],
    and those that reach [self.sales.append]. *)
Definition purchase_line (row : Row.t) : bool :=
  notna (Row.Item_num row) && records_purchase row.

Definition sale_line (row : Row.t) : bool :=
  notna (Row.Item_num row) && sale_gate row.

(** The purchase the second block builds from a row, the vendor id
    being the one [self.vendors] holds for the cleaned name. *)
Definition purchase_of (s : GreenspotETL) (row : Row.t) (f : Purchase.t) : Prop :=
  int (Row.Item_num row) = Ok (Purchase.product_id f) ∧
  (∃ vd v, clean_vendor_data (Row.vendor row) = Ok (Some vd) ∧
           vendors s !! VendorData.vendor_name vd = Some v ∧
           Purchase.vendor_id f = Vendor.vendor_id v) ∧
  quantity_of row = Ok (Purchase.quantity_ordered f) ∧
  float (Row.cost row) = Ok (Purchase.unit_cost f) ∧
  Purchase.purchase_date f = date_of (Row.purchase_date row).

(** The sale the third block builds from a row. *)
Definition sale_of (row : Row.t) (g : Sale.t) : Prop :=
  int (Row.Item_num row) = Ok (Sale.product_id g) ∧
  customer_of row = Ok (Sale.customer_id g) ∧
  quantity_of row = Ok (Sale.quantity_sold g) ∧
  float (Row.price row) = Ok (Sale.unit_price g) ∧
  Sale.sale_date g = date_of (Row.date_sold row).

(** ** Whole runs *)

(** Whether [parse_csv_data] processes the row. *)
Definition has_item (row : Row.t) : bool := notna (Row.Item_num row).

(** A cell that holds a number: what [pd.read_csv] gives for a field
    of a column it read as numeric. *)
Definition is_number (c : cell) : bool :=
  match c with
  | CStr _ => false
  | _ => notna c
  end.

(** A second line of item 1000: another description, category, unit
    and location, the same vendor name with another address, and a
    sale. *)
Definition second_line : Row.t :=
  {| Row.Item_num := CInt 1000; Row.description := CStr "Large eggs";
     Row.item_type := CStr "Produce"; Row.Unit := CStr "each";
     Row.Location := CStr "p1"; Row.vendor := CStr "Bennet Farms, 1 Main St.";
     Row.cost := CFloat (Finite 2.5); Row.Quantity := CInt 10;
     Row.purchase_date := CStr "2/8/2022";
     Row.quantity_on_hand := CInt 30; Row.price := CFloat (Finite 5.49);
     Row.cust := CInt 198765; Row.date_sold := CStr "2/9/2022" |}.

Definition two_lines : list Row.t := [good_row; second_line].

(** A purchase line whose location column was read as numbers. *)
Definition numeric_location_row : Row.t :=
  {| Row.Item_num := CInt 1000; Row.description := CStr "Bennet Farm free-range eggs";
     Row.item_type := CStr "Dairy"; Row.Unit := CStr "dozen";
     Row.Location := CInt 12; Row.vendor := bennet;
     Row.cost := CFloat (Finite 2.35); Row.Quantity := CInt 25;
     Row.purchase_date := CStr "2/1/2022";
     Row.quantity_on_hand := CInt 40; Row.price := NaN; Row.cust := NaN;
     Row.date_sold := NaN |}.

(* ===================================================================== *)
(** * Part 6: proofs                                                      *)
(* ===================================================================== *)

Ltac run_M :=
  unfold mbind, M_bind, mret, M_ret, lift, gets, modify, raise, log,
    try_except, subscript in *;
  simpl in *.

(** ** [parse_date] *)

Lemma strptime_raises s e : Datetime.strptime s = Raise e → e = ValueError.
Proof. unfold Datetime.strptime. repeat case_match; congruence. Qed.

Lemma strptime_cell_raises c e : strptime_cell c = Raise e → e = ValueError.
Proof. destruct c; simpl; try congruence. apply strptime_raises. Qed.

(** [parse_date] never raises: it returns the date and leaves the
    object alone, or returns [None], with a warning when the cell is
    not NaN. *)
Lemma parse_date_cases (c : cell) (s : GreenspotETL) :
  (∃ d, strptime_cell c = Ok d ∧ isna c = false ∧
        parse_date c s = (Ok (Some (Datetime.strftime d)), s)) ∨
  (isna c = true ∧ parse_date c s = (Ok None, s)) ∨
  (strptime_cell c = Raise ValueError ∧ isna c = false ∧
   parse_date c s =
     (Ok None, set_logged (logged s ++ [WARNING_could_not_parse_date c]) s)).
Proof.
  unfold parse_date. destruct (isna c) eqn:Hna; [by right; left|].
  destruct (strptime_cell c) as [d|e] eqn:E.
  - left. by exists d.
  - apply strptime_cell_raises in E as ->. by right; right.
Qed.

Lemma set_logged_id s : set_logged (logged s) s = s.
Proof. by destruct s. Qed.

Lemma parse_date_run (c : cell) (s : GreenspotETL) :
  ∃ d l, parse_date c s = (Ok d, set_logged l s).
Proof.
  destruct (parse_date_cases c s) as [(d & _ & _ & ->)|[[_ ->]|(_ & _ & ->)]].
  - exists (Some (Datetime.strftime d)), (logged s). by rewrite set_logged_id.
  - exists None, (logged s). by rewrite set_logged_id.
  - by eexists _, _.
Qed.

(** ** What the updates leave alone *)

Lemma add_vendor_frame vd s :
  products (add_vendor vd s) = products s ∧
  customers (add_vendor vd s) = customers s ∧
  categories (add_vendor vd s) = categories s ∧
  purchases (add_vendor vd s) = purchases s ∧
  sales (add_vendor vd s) = sales s ∧
  inventory (add_vendor vd s) = inventory s ∧
  logged (add_vendor vd s) = logged s.
Proof. unfold add_vendor. by case_bool_decide. Qed.

Lemma add_vendor_lookup vd s :
  is_Some (vendors (add_vendor vd s) !! VendorData.vendor_name vd).
Proof.
  unfold add_vendor. case_bool_decide; [done|].
  simpl. rewrite lookup_insert_is_Some'. by left.
Qed.

Lemma add_product_frame n p s :
  vendors (add_product n p s) = vendors s ∧
  products (add_product n p s) = <[n := p]> (products s) ∧
  customers (add_product n p s) = customers s ∧
  purchases (add_product n p s) = purchases s ∧
  sales (add_product n p s) = sales s ∧
  inventory (add_product n p s) = inventory s ∧
  logged (add_product n p s) = logged s.
Proof. unfold add_product. simpl. by case_bool_decide. Qed.

Lemma add_customer_frame c s :
  vendors (add_customer c s) = vendors s ∧
  products (add_customer c s) = products s ∧
  categories (add_customer c s) = categories s ∧
  purchases (add_customer c s) = purchases s ∧
  sales (add_customer c s) = sales s ∧
  inventory (add_customer c s) = inventory s ∧
  logged (add_customer c s) = logged s.
Proof. by destruct c. Qed.

(** ** The blocks follow their step relations *)

Lemma extract_product_step row n s :
  product_step row n s (extract_product row n s).1 (extract_product row n s).2.
Proof.
  unfold extract_product. run_M.
  case_bool_decide as Hk; simpl; [by apply ps_known|].
  assert (products s !! n = None) as Hn by by apply eq_None_not_Some.
  pose proof (ps_raises row n s) as Hr.
  pose proof (ps_defined row n s) as Hd.
  unfold product_fields, add_product in *.
  destruct (if_notna (Row.item_type row) _ _) as [cat|]; simpl; [|by apply Hr].
  destruct (if_notna (Row.description row) _ _) as [name|]; simpl; [|by apply Hr].
  destruct (normalize_unit _) as [unit|]; simpl; [|by apply Hr].
  destruct (normalize_location _) as [loc|]; simpl; [|by apply Hr].
  exact (Hd (Product.Build_t n name cat unit loc) Hn eq_refl).
Qed.

Lemma process_vendor_step row n s :
  vendor_step row n s (process_vendor row n s).1 (process_vendor row n s).2.
Proof.
  unfold process_vendor. fold (vendor_gate row).
  destruct (vendor_gate row) eqn:Hg; [|by constructor].
  run_M. fold (quantity_of row) (on_hand_of row).
  destruct (clean_vendor_data (Row.vendor row)) as [[vd|]|e] eqn:Hc; simpl;
    [|by apply vs_blank_vendor|by apply vs_vendor_raises].
  fold (add_vendor vd s).
  destruct (add_vendor_lookup vd s) as [v Hv]. rewrite Hv.
  destruct (quantity_of row) as [q|e] eqn:Hq; simpl; [|by eapply vs_quantity_raises].
  destruct (float (Row.cost row)) as [c|e] eqn:Hf; simpl; [|by eapply vs_cost_raises].
  destruct (parse_date_run (Row.purchase_date row) (add_vendor vd s)) as (d & l & Hd).
  rewrite Hd. simpl.
  destruct (add_vendor_frame vd s) as (_ & _ & _ & Hpu & _ & Hi & _).
  rewrite Hpu.
  eapply vs_purchase; eauto.
  case_bool_decide as Hs; simpl.
  - by apply ss_stocked.
  - assert (inventory (add_vendor vd s) !! n = None) as Hn
      by by apply eq_None_not_Some.
    destruct (on_hand_of row) as [h|e] eqn:Hh; simpl.
    + by apply (ss_snapshot row n (set_purchases _ (set_logged l (add_vendor vd s)))).
    + by apply ss_on_hand_raises.
Qed.

Lemma process_sales_step row n s :
  sale_step row n s (process_sales row n s).1 (process_sales row n s).2.
Proof.
  unfold process_sales. fold (sale_gate row).
  destruct (sale_gate row) eqn:Hg; [|by constructor].
  run_M. fold (quantity_of row).
  pose proof (sl_customer_raises row n s) as H1.
  pose proof (sl_quantity_raises row n s) as H2.
  pose proof (sl_price_raises row n s) as H3.
  pose proof (sl_sale row n s) as H4.
  unfold customer_of in *.
  destruct (notna (Row.cust row) && negb (str_strip_empty (Row.cust row))); simpl.
  - destruct (int (Row.cust row)) as [c|e]; simpl; [|by apply H1].
    specialize (H2 (Some c)). specialize (H3 (Some c)). specialize (H4 (Some c)).
    simpl in *.
    destruct (quantity_of row) as [q|e] eqn:Hq; simpl; [|by eapply H2].
    destruct (float (Row.price row)) as [p|e] eqn:Hf; simpl; [|by eapply H3].
    destruct (parse_date_run (Row.date_sold row)
                (set_customers ({[c]} ∪ customers s) s)) as (d & l & Hd).
    rewrite Hd. simpl. by eapply H4.
  - specialize (H2 None). specialize (H3 None). specialize (H4 None).
    simpl in *.
    destruct (quantity_of row) as [q|e] eqn:Hq; simpl; [|by eapply H2].
    destruct (float (Row.price row)) as [p|e] eqn:Hf; simpl; [|by eapply H3].
    destruct (parse_date_run (Row.date_sold row) s) as (d & l & Hd).
    rewrite Hd. simpl. by eapply H4.
Qed.

Lemma process_row_step row s :
  row_step row s (process_row row s).1 (process_row row s).2.
Proof.
  unfold process_row.
  pose proof (extract_product_step row) as Hp.
  pose proof (process_vendor_step row) as Hv.
  pose proof (process_sales_step row) as Hs.
  unfold mbind, M_bind, lift.
  destruct (int (Row.Item_num row)) as [n|e] eqn:Hi; [|by apply rs_item_raises].
  specialize (Hp n s).
  destruct (extract_product row n s) as [[[]|e] s1]; simpl in *;
    [|by eapply rs_product_raises].
  specialize (Hv n s1).
  destruct (process_vendor row n s1) as [[[]|e] s2]; simpl in *;
    [|by eapply rs_vendor_raises].
  specialize (Hs n s2).
  destruct (process_sales row n s2) as [r s3]; simpl in *.
  by eapply rs_sale.
Qed.

(** ** The invariant holds of every object the row loop reaches *)

Lemma ids_ok_empty {V} (id : V → Z) : ids_ok id ∅.
Proof. split; intros *; by rewrite lookup_empty. Qed.

(** A new key that receives [len(d) + 1] keeps the ids in range and
    apart. *)
Lemma ids_ok_insert {V} (id : V → Z) (d : gmap string V) k x :
  ids_ok id d → d !! k = None → id x = Z.of_nat (size d) + 1 →
  ids_ok id (<[k := x]> d).
Proof.
  intros [Hb Hi] Hn Hx. split.
  - intros k' v. rewrite map_size_insert_None by done.
    rewrite lookup_insert. case_decide; intros Hk; simplify_eq/=; [lia|].
    specialize (Hb k' v Hk). lia.
  - intros k1 k2 v1 v2. rewrite !lookup_insert.
    repeat case_decide; intros H1 H2 Heq; simplify_eq/=; try done.
    + specialize (Hb k2 v2 H2). lia.
    + specialize (Hb k1 v1 H1). lia.
    + by eapply Hi.
Qed.

Lemma etl_inv_init : etl_inv init.
Proof.
  split; simpl; try done; try apply ids_ok_empty.
  intros p [? H]. by rewrite lookup_empty in H.
Qed.

Lemma etl_inv_logged s l : etl_inv s → etl_inv (set_logged l s).
Proof. intros []. by split. Qed.

Lemma product_fields_id row n p : product_fields row n = Ok p → Product.product_id p = n.
Proof.
  unfold product_fields. repeat case_match; intros; by simplify_eq/=.
Qed.

Lemma etl_inv_add_product n p s :
  etl_inv s → Product.product_id p = n → etl_inv (add_product n p s).
Proof.
  intros [Hv Hcs Hp Hs Hi Hpr] Hid.
  destruct (add_product_frame n p s) as (Ev & Ep & Ec & Epu & Esa & Ei & _).
  assert (Hmono : ∀ k, is_Some (products s !! k) →
                       is_Some (products (add_product n p s) !! k)).
  { intros k Hk. rewrite Ep, lookup_insert_is_Some'. by right. }
  assert (Hcat : ∀ c, c = Product.category p ∨ is_Some (categories s !! c) →
                      is_Some (categories (add_product n p s) !! c)).
  { intros c. unfold add_product. simpl. case_bool_decide as Hc; simpl.
    - by intros [->|].
    - rewrite lookup_insert_is_Some'. intros [->|]; auto. }
  split.
  - by rewrite Ev.
  - unfold add_product. simpl. case_bool_decide as Hk; simpl; [done|].
    apply ids_ok_insert; [done| |done]. by apply eq_None_not_Some.
  - rewrite Epu, Ev. eapply Forall_impl; [exact Hp|].
    intros f [H1 H2]. split; [by apply Hmono|done].
  - rewrite Esa, Ec. eapply Forall_impl; [exact Hs|].
    intros f [H1 H2]. split; [by apply Hmono|done].
  - rewrite Ei. intros k Hk. apply Hmono. auto.
  - intros k q. rewrite Ep, lookup_insert. case_decide; intros ?; simplify_eq/=.
    + split; [done|]. apply Hcat. by left.
    + destruct (Hpr k q) as [? ?]; [done|]. split; [done|]. apply Hcat. by right.
Qed.

Lemma etl_inv_add_vendor vd s : etl_inv s → etl_inv (add_vendor vd s).
Proof.
  intros [Hv Hc Hp Hs Hi Hpr]. unfold add_vendor.
  case_bool_decide as Hk; [by split|].
  assert (vendors s !! VendorData.vendor_name vd = None) as Hn
    by by apply eq_None_not_Some.
  split; simpl; try done.
  - by apply ids_ok_insert.
  - eapply Forall_impl; [exact Hp|].
    intros f [H1 (k & v & H2 & H3)]. split; [done|].
    exists k, v. split; [|done].
    rewrite lookup_insert_ne; [done|]. intros Heq. congruence.
Qed.

Lemma etl_inv_add_purchase s k v f :
  etl_inv s →
  is_Some (products s !! Purchase.product_id f) →
  vendors s !! k = Some v →
  Purchase.vendor_id f = Vendor.vendor_id v →
  etl_inv (set_purchases (purchases s ++ [f]) s).
Proof.
  intros [Hv Hc Hp Hs Hi Hpr] Hn Hk Hid. split; simpl; try done.
  apply Forall_app. split; [done|].
  apply Forall_singleton. split; [done|]. by exists k, v.
Qed.

Lemma etl_inv_snapshot s n q :
  etl_inv s → is_Some (products s !! n) →
  etl_inv (set_inventory (<[n := q]> (inventory s)) s).
Proof.
  intros [Hv Hc Hp Hs Hi Hpr] Hn. split; simpl; try done.
  intros p. rewrite lookup_insert_is_Some'. intros [->|]; auto.
Qed.

Lemma etl_inv_add_customer c s : etl_inv s → etl_inv (add_customer c s).
Proof.
  intros [Hv Hc Hp Hs Hi Hpr]. destruct c as [c|]; [|by split].
  split; simpl; try done.
  eapply Forall_impl; [exact Hs|].
  intros f [H1 H2]. split; [done|]. intros c' Hc'.
  apply elem_of_union. right. by apply H2.
Qed.

Lemma etl_inv_add_sale s f :
  etl_inv s →
  is_Some (products s !! Sale.product_id f) →
  (∀ c, Sale.customer_id f = Some c → c ∈ customers s) →
  etl_inv (set_sales (sales s ++ [f]) s).
Proof.
  intros [Hv Hc Hp Hs Hi Hpr] Hn Hcu. split; simpl; try done.
  apply Forall_app. split; [done|]. by apply Forall_singleton.
Qed.

Lemma product_step_inv row n s r s' :
  product_step row n s r s' → etl_inv s →
  etl_inv s' ∧ (r = Ok () → is_Some (products s' !! n)).
Proof.
  intros Hstep Hinv. destruct Hstep as [Hk|e Hn He|p Hn Hp].
  - done.
  - done.
  - split; [by eapply etl_inv_add_product, product_fields_id|].
    intros _. destruct (add_product_frame n p s) as (_ & -> & _).
    rewrite lookup_insert_is_Some'. by left.
Qed.

Lemma snapshot_step_inv row n s r s' :
  snapshot_step row n s r s' → etl_inv s → is_Some (products s !! n) →
  etl_inv s' ∧ products s' = products s.
Proof.
  intros Hstep Hinv Hn. destruct Hstep; try done.
  split; [by apply etl_inv_snapshot|done].
Qed.

Lemma vendor_step_inv row n s r s' :
  vendor_step row n s r s' → etl_inv s → is_Some (products s !! n) →
  etl_inv s' ∧ products s' = products s.
Proof.
  intros Hstep Hinv Hn.
  destruct Hstep as [| | |vd e|vd q e|vd v q c d l r s' Hg Hc Hv Hq Hf Hd Hsnap];
    try done.
  - split; [by apply etl_inv_add_vendor|]. by destruct (add_vendor_frame vd s).
  - split; [by apply etl_inv_add_vendor|]. by destruct (add_vendor_frame vd s).
  - destruct (add_vendor_frame vd s) as (Ep & _ & _ & Epu & _).
    eapply snapshot_step_inv in Hsnap as [H1 H2]; simpl; rewrite ?Ep; try done.
    + split; [done|]. rewrite H2. simpl. by rewrite Ep.
    + rewrite <- Epu.
      apply (etl_inv_add_purchase (set_logged l (add_vendor vd s))
               (VendorData.vendor_name vd) v); simpl; rewrite ?Ep; try done.
      by apply etl_inv_logged, etl_inv_add_vendor.
Qed.

Lemma sale_step_inv row n s r s' :
  sale_step row n s r s' → etl_inv s → is_Some (products s !! n) →
  etl_inv s' ∧ products s' = products s.
Proof.
  intros Hstep Hinv Hn.
  destruct Hstep as [|e|c e|c q e|c q p d l Hg Hc Hq Hf Hd]; try done.
  - split; [by apply etl_inv_add_customer|]. by destruct (add_customer_frame c s) as (_ & ? & _).
  - split; [by apply etl_inv_add_customer|]. by destruct (add_customer_frame c s) as (_ & ? & _).
  - destruct (add_customer_frame c s) as (_ & Ep & _ & _ & Esa & _).
    split; [|done]. rewrite <- Esa.
    apply (etl_inv_add_sale (set_logged l (add_customer c s))); simpl; rewrite ?Ep; try done.
    + by apply etl_inv_logged, etl_inv_add_customer.
    + intros c' ->. simpl. apply elem_of_union. left. by apply elem_of_singleton.
Qed.

Lemma row_step_inv row s r s' : row_step row s r s' → etl_inv s → etl_inv s'.
Proof.
  intros Hstep Hinv.
  destruct Hstep as [e He|n e s1 Hi Hp|n e s1 s2 Hi Hp Hv|n s1 s2 r s3 Hi Hp Hv Hs].
  - done.
  - by eapply product_step_inv in Hp as [? _].
  - eapply product_step_inv in Hp as [? Hk]; [|done].
    by eapply vendor_step_inv in Hv as [? _]; auto.
  - eapply product_step_inv in Hp as [? Hk]; [|done].
    eapply vendor_step_inv in Hv as [? Hpr]; auto.
    eapply sale_step_inv in Hs as [? _]; auto.
    rewrite Hpr. auto.
Qed.

Lemma process_row_inv row s : etl_inv s → etl_inv (process_row row s).2.
Proof. intros Hinv. eapply row_step_inv; [apply process_row_step|done]. Qed.

Lemma iterrows_cons row rest s :
  iterrows (row :: rest) s =
    if isna (Row.Item_num row) then iterrows rest s
    else match process_row row s with
         | (Ok _, s') => iterrows rest s'
         | (Raise e, s') => (Raise e, s')
         end.
Proof.
  simpl. unfold mbind, M_bind, mret, M_ret.
  destruct (isna (Row.Item_num row)); [done|].
  by destruct (process_row row s) as [[[]|e] s'].
Qed.

Lemma iterrows_inv df s : etl_inv s → etl_inv (iterrows df s).2.
Proof.
  revert s. induction df as [|row rest IH]; intros s Hinv; [done|].
  rewrite iterrows_cons. destruct (isna (Row.Item_num row)); [by apply IH|].
  pose proof (process_row_inv row s Hinv) as H.
  destruct (process_row row s) as [[[]|e] s']; simpl in *; auto.
Qed.

Lemma reachable_inv s : reachable s → etl_inv s.
Proof. intros [df <-]. apply iterrows_inv, etl_inv_init. Qed.

Lemma parse_csv_data_inv df s : etl_inv s → etl_inv (parse_csv_data df s).2.
Proof.
  intros Hinv. unfold parse_csv_data, try_except.
  pose proof (iterrows_inv (dropna_all df) s Hinv) as H.
  destruct (iterrows (dropna_all df) s) as [[[]|e] s']; simpl in *; [done|].
  run_M. by apply etl_inv_logged.
Qed.

(** ** The load phases *)

Section insert_all_ignore.
Context {V : Type}.
Implicit Types (rows : list (Z * V)) (t : gmap Z V).

(** The key of a row that is offered is in the table afterwards, with
    the row that was there first. *)
Lemma insert_ignore_lookup key row t k :
  Sink.insert_ignore key row t !! k =
    match t !! k with
    | Some v => Some v
    | None => if bool_decide (key = k) then Some row else None
    end.
Proof.
  unfold Sink.insert_ignore. destruct (t !! key) as [v|] eqn:Hkey.
  - destruct (t !! k) eqn:Hk; [done|]. case_bool_decide; [congruence|done].
  - rewrite lookup_insert. case_decide as Hd; simplify_eq.
    + by rewrite Hkey, bool_decide_eq_true_2.
    + rewrite bool_decide_eq_false_2 by done. by destruct (t !! k).
Qed.

Lemma insert_all_ignore_lookup rows t k :
  insert_all_ignore rows t !! k =
    match t !! k with
    | Some v => Some v
    | None => snd <$> List.find (λ r, bool_decide (r.1 = k)) rows
    end.
Proof.
  revert t. induction rows as [|[key row] rows IH]; intros t; simpl.
  - by destruct (t !! k).
  - unfold insert_all_ignore in *. simpl. rewrite IH, insert_ignore_lookup.
    destruct (t !! k); [done|]. by case_bool_decide.
Qed.

(** Offering the same rows again changes nothing. *)
Lemma insert_all_ignore_idemp rows t :
  insert_all_ignore rows (insert_all_ignore rows t) = insert_all_ignore rows t.
Proof.
  apply map_eq. intros k. rewrite !insert_all_ignore_lookup.
  destruct (t !! k); [done|]. by destruct (List.find _ rows).
Qed.
End insert_all_ignore.

Lemma load_categories_table items db :
  load_categories_items items db =
    Sink.set_product_categories
      (insert_all_ignore (category_rows items) (Sink.product_categories db)) db.
Proof.
  unfold load_categories_items, category_rows, insert_all_ignore. revert db.
  induction items as [|[name id] l IH]; intros db; simpl; [by destruct db|].
  by rewrite IH.
Qed.

Lemma load_vendors_table items db :
  load_vendors_items items db =
    Sink.set_vendors (insert_all_ignore (vendor_rows items) (Sink.vendors db)) db.
Proof.
  unfold load_vendors_items, vendor_rows, insert_all_ignore. revert db.
  induction items as [|[name v] l IH]; intros db; simpl; [by destruct db|].
  by rewrite IH.
Qed.

Lemma load_products_table self items db :
  load_products_items self items db =
    rows ← product_rows self items;
    Ok (Sink.set_products (insert_all_ignore rows (Sink.products db)) db).
Proof.
  unfold product_rows, insert_all_ignore. revert db.
  induction items as [|[k p] l IH]; intros db; simpl; [by destruct db|].
  unfold mbind at 2. unfold result_bind at 1.
  destruct (product_values self p) as [[pid row]|e]; [|done].
  rewrite IH. simpl. unfold mbind, mret, result_bind, result_ret.
  by destruct (mapM _ l).
Qed.

Lemma load_customers_table items db :
  load_customers_items items db =
    Sink.set_customers (insert_all_ignore (customer_rows items) (Sink.customers db)) db.
Proof.
  unfold load_customers_items, customer_rows, insert_all_ignore. revert db.
  induction items as [|c l IH]; intros db; simpl; [by destruct db|].
  by rewrite IH.
Qed.

Lemma load_inventory_table items db :
  load_inventory_items items db =
    Sink.set_inventory (insert_all_ignore items (Sink.inventory db)) db.
Proof.
  unfold load_inventory_items, insert_all_ignore. revert db.
  induction items as [|[k q] l IH]; intros db; simpl; [by destruct db|].
  by rewrite IH.
Qed.

Lemma load_purchases_table self db :
  load_purchases self db =
    Sink.set_purchase_orders
      (Sink.purchase_orders db ++ (purchase_values <$> purchases self)) db.
Proof.
  unfold load_purchases. generalize (purchases self). intros l. revert db.
  induction l as [|f l IH]; intros db; simpl.
  - rewrite app_nil_r. by destruct db.
  - rewrite IH. simpl. unfold Sink.insert. by rewrite <- app_assoc.
Qed.

Lemma load_sales_table self db :
  load_sales self db =
    Sink.set_sales_transactions
      (Sink.sales_transactions db ++ (sale_values <$> sales self)) db.
Proof.
  unfold load_sales. generalize (sales self). intros l. revert db.
  induction l as [|f l IH]; intros db; simpl.
  - rewrite app_nil_r. by destruct db.
  - rewrite IH. simpl. unfold Sink.insert. by rewrite <- app_assoc.
Qed.

(** ** The primary vendor *)

Lemma find_primary_vendor_find p (l : list Purchase.t) :
  find_primary_vendor p l =
    Purchase.vendor_id <$> List.find (λ f, bool_decide (Purchase.product_id f = p)) l.
Proof.
  induction l as [|f l IH]; simpl; [done|]. by case_bool_decide.
Qed.

Lemma find_primary_vendor_first p (pre post : list Purchase.t) fA :
  Forall (λ f, Purchase.product_id f ≠ p) pre →
  Purchase.product_id fA = p →
  find_primary_vendor p (pre ++ fA :: post) = Some (Purchase.vendor_id fA).
Proof.
  intros Hpre HA. induction Hpre as [|f pre Hf Hpre IH]; simpl.
  - by rewrite bool_decide_eq_true_2.
  - by rewrite bool_decide_eq_false_2.
Qed.

Lemma find_primary_vendor_none p (l : list Purchase.t) :
  Forall (λ f, Purchase.product_id f ≠ p) l → find_primary_vendor p l = None.
Proof.
  induction 1 as [|f l Hf Hl IH]; simpl; [done|].
  by rewrite bool_decide_eq_false_2.
Qed.

Lemma product_values_ok self product key row :
  product_values self product = Ok (key, row) →
  key = Product.product_id product ∧
  Sink.primary_vendor_id row =
    find_primary_vendor (Product.product_id product) (purchases self).
Proof.
  unfold product_values. destruct (subscript _ _); intros; by simplify_eq/=.
Qed.

(** The rows of the product phase hold, for every product of the
    dictionary, a row under its number with the primary vendor the scan
    finds. *)
Lemma product_rows_find self (l : list (Z * Product.t)) rows p :
  product_rows self l = Ok rows →
  Exists (λ kp, Product.product_id kp.2 = p) l →
  ∃ row, List.find (λ r : Z * Sink.product_row, bool_decide (r.1 = p)) rows = Some (p, row) ∧
         Sink.primary_vendor_id row = find_primary_vendor p (purchases self).
Proof.
  unfold product_rows. revert rows.
  induction l as [|[k prod] l IH]; intros rows Hm Hex.
  - by apply Exists_nil in Hex.
  - simpl in Hm. unfold mbind, result_bind in Hm.
    destruct (product_values self prod) as [[key row]|e] eqn:Hv; [|done].
    destruct (mapM _ l) as [rows'|e] eqn:Hm'; [|done].
    unfold mret, result_ret in Hm. simplify_eq. simpl.
    apply product_values_ok in Hv as [-> Hrow].
    case_bool_decide as Hp.
    + subst p. by exists row.
    + apply IH; [done|]. apply Exists_cons in Hex as [Hex|Hex]; [done|done].
Qed.

(** ** The inventory keeps the first snapshot *)

Lemma product_step_inventory row n s r s' :
  product_step row n s r s' → inventory s' = inventory s.
Proof.
  intros []; try done. by destruct (add_product_frame n p s) as (_&_&_&_&_&?&_).
Qed.

Lemma sale_step_inventory row n s r s' :
  sale_step row n s r s' → inventory s' = inventory s.
Proof.
  intros []; try done; simpl;
    by destruct (add_customer_frame c s) as (_&_&_&_&_&?&_).
Qed.

(** What a second block that returned did to the entry of product [p]:
    an entry stays, and a missing one is written by a row that records
    a purchase of [p], from its on-hand cell. *)
Lemma vendor_step_inventory row n s s' p :
  vendor_step row n s (Ok ()) s' →
  match inventory s !! p with
  | Some q => inventory s' !! p = Some q
  | None =>
      if bool_decide (n = p) && vendor_gate row &&
         match clean_vendor_data (Row.vendor row) with
         | Ok (Some _) => true
         | _ => false
         end
      then ∃ h, on_hand_of row = Ok h ∧ inventory s' !! p = Some h
      else inventory s' !! p = None
  end.
Proof.
  intros Hstep.
  inversion Hstep as [Hg|Hg Hc| | | |vd v q c d l r s2 Hg Hc Hv Hq Hf Hd Hsnap];
    subst.
  - rewrite Hg, andb_false_r. by destruct (inventory s' !! p).
  - rewrite Hc, andb_false_r. by destruct (inventory s' !! p).
  - rewrite Hg, Hc, !andb_true_r.
    destruct (add_vendor_frame vd s) as (_&_&_&_&_&Hi&_).
    inversion Hsnap as [Hst| |h Hnone Hh]; subst; simpl in *; rewrite Hi in *.
    + destruct (inventory s !! p) eqn:Hp; [done|].
      case_bool_decide; [subst; destruct Hst; congruence|done].
    + rewrite lookup_insert. case_decide as Hnp.
      * subst p. rewrite Hnone, bool_decide_eq_true_2 by done. by exists h.
      * rewrite bool_decide_eq_false_2 by done. by destruct (inventory s !! p).
Qed.

Lemma row_step_inventory row s s' p :
  isna (Row.Item_num row) = false →
  row_step row s (Ok ()) s' →
  match inventory s !! p with
  | Some q => inventory s' !! p = Some q
  | None =>
      if emits_purchase p row
      then ∃ h, on_hand_of row = Ok h ∧ inventory s' !! p = Some h
      else inventory s' !! p = None
  end.
Proof.
  intros Hna Hstep.
  inversion Hstep as [| | |n s1 s2 r s3 Hi Hp Hv Hs]; subst.
  apply sale_step_inventory in Hs. apply product_step_inventory in Hp.
  pose proof (vendor_step_inventory _ _ _ _ p Hv) as H.
  rewrite Hs. rewrite Hp in H.
  unfold emits_purchase, notna. by rewrite Hna, Hi.
Qed.

Lemma iterrows_inventory df s s' p :
  iterrows df s = (Ok (), s') →
  inventory s' !! p =
    match inventory s !! p with
    | Some q => Some q
    | None => row ← List.find (emits_purchase p) df; result_to_option (on_hand_of row)
    end.
Proof.
  revert s. induction df as [|row rest IH]; intros s Hrun.
  - simpl in Hrun. unfold mret, M_ret in Hrun. simplify_eq.
    by destruct (inventory s' !! p).
  - rewrite iterrows_cons in Hrun. simpl.
    destruct (isna (Row.Item_num row)) eqn:Hna.
    + unfold emits_purchase at 1, notna. rewrite Hna. simpl. by apply IH.
    + pose proof (process_row_step row s) as Hstep.
      destruct (process_row row s) as [[[]|e] s1]; [|done]. simpl in Hstep.
      pose proof (row_step_inventory _ _ _ p Hna Hstep) as H.
      rewrite (IH _ Hrun).
      destruct (inventory s !! p); [by rewrite H|].
      destruct (emits_purchase p row).
      * destruct H as (h & Hh & ->). simpl. by rewrite Hh.
      * by rewrite H.
Qed.

(** The rows [dropna] removes have no item number: they emit nothing. *)
Lemma find_emits_dropna p df :
  List.find (emits_purchase p) (dropna_all df) = List.find (emits_purchase p) df.
Proof.
  unfold dropna_all. induction df as [|row rest IH]; [done|].
  rewrite filter_cons. case_decide as Hd; simpl.
  - destruct (emits_purchase p row); [done|apply IH].
  - apply Is_true_true in Hd.
    simpl in Hd. apply andb_prop in Hd as [Hna _].
    unfold emits_purchase at 2, notna. rewrite Hna. apply IH.
Qed.

Lemma parse_csv_data_ok df s s' :
  parse_csv_data df s = (Ok (), s') → iterrows (dropna_all df) s = (Ok (), s').
Proof.
  unfold parse_csv_data, try_except.
  destruct (iterrows (dropna_all df) s) as [[[]|e] s1]; [done|].
  run_M. done.
Qed.

(** ** What a row adds *)

Lemma parse_date_value c s : (parse_date c s).1 = Ok (date_of c).
Proof.
  unfold date_of.
  destruct (parse_date_cases c s) as [(d & Hd & Hna & ->)|[[Hna ->]|(Hd & Hna & ->)]];
    by rewrite Hna, ?Hd.
Qed.

Lemma mapM_result_ok {A B} (f : A → result B) (l : list A) :
  Forall (λ x, ∃ y, f x = Ok y) l → ∃ ys, mapM f l = Ok ys.
Proof.
  induction 1 as [|x l [y Hy] _ [ys IH]]; [by exists []|].
  exists (y :: ys).
  change (mapM f (x :: l)) with (y ← f x; k ← mapM f l; mret (y :: k)).
  by rewrite Hy, IH.
Qed.

(** The subscript of [load_products] finds every category. *)
Lemma product_rows_ok s :
  etl_inv s → ∃ rows, product_rows s (map_to_list (products s)) = Ok rows.
Proof.
  intros Hinv. apply mapM_result_ok, Forall_forall.
  intros [k p] Hin. apply elem_of_map_to_list in Hin.
  destruct (inv_products _ Hinv k p Hin) as [_ [c Hc]].
  unfold product_values, subscript. rewrite Hc. by eexists.
Qed.

Lemma find_map_to_list {V} (m : gmap Z V) k :
  snd <$> List.find (λ r : Z * V, bool_decide (r.1 = k)) (map_to_list m) = m !! k.
Proof.
  destruct (List.find _ (map_to_list m)) as [[k' v]|] eqn:Hf; simpl.
  - apply find_some in Hf as [Hin Hk]. apply bool_decide_eq_true_1 in Hk.
    simpl in Hk. subst k'. symmetry.
    by apply elem_of_map_to_list, list_elem_of_In.
  - destruct (m !! k) as [v|] eqn:Hm; [|done].
    apply elem_of_map_to_list, list_elem_of_In in Hm.
    eapply find_none in Hf; [|exact Hm]. simpl in Hf.
    by rewrite bool_decide_eq_true_2 in Hf.
Qed.

(** When the row pass ends, [run_etl] reaches the end of its phases. *)
Lemma main_inventory df s :
  parse_csv_data df init = (Ok (), s) →
  ∃ db, main true df Sink.empty = (true, db, s) ∧
        Sink.inventory db = insert_all_ignore (map_to_list (inventory s)) ∅.
Proof.
  intros Hrun. unfold main, run_etl. simpl.
  pose proof (parse_csv_data_inv df init etl_inv_init) as Hinv.
  rewrite Hrun in *. simpl in Hinv.
  unfold load_products. rewrite load_products_table.
  destruct (product_rows_ok s Hinv) as [rows ->].
  simpl. eexists. split; [done|].
  unfold load_inventory, load_customers, load_vendors, load_categories.
  by rewrite load_sales_table, load_purchases_table, load_inventory_table,
    load_customers_table, load_vendors_table, load_categories_table.
Qed.

(** ** The order of the statements of a phase does not matter *)

Lemma find_key_NoDup {V} (rows : list (Z * V)) k v :
  NoDup rows.*1 → (k, v) ∈ rows →
  List.find (λ r : Z * V, bool_decide (r.1 = k)) rows = Some (k, v).
Proof.
  induction rows as [|[k' v'] rows IH]; intros Hnd Hin.
  - by apply elem_of_nil in Hin.
  - simpl in *. apply NoDup_cons in Hnd as [Hk' Hnd].
    apply elem_of_cons in Hin as [Heq|Hin].
    + simplify_eq. by rewrite bool_decide_eq_true_2.
    + case_bool_decide as Hk; [|by apply IH]. subst k'.
      exfalso. apply Hk'. apply list_elem_of_fmap. by exists (k, v).
Qed.

Lemma find_key_perm {V} (rows rows' : list (Z * V)) k :
  NoDup rows.*1 → rows ≡ₚ rows' →
  List.find (λ r : Z * V, bool_decide (r.1 = k)) rows =
  List.find (λ r : Z * V, bool_decide (r.1 = k)) rows'.
Proof.
  intros Hnd Hperm.
  assert (Hnd' : NoDup rows'.*1) by by rewrite <- Hperm.
  destruct (List.find _ rows) as [[k1 v1]|] eqn:H1.
  - apply find_some in H1 as [Hin Hk]. apply bool_decide_eq_true_1 in Hk.
    simpl in Hk. subst k1. symmetry. apply find_key_NoDup; [done|].
    rewrite <- Hperm. by apply list_elem_of_In.
  - destruct (List.find _ rows') as [[k2 v2]|] eqn:H2; [|done].
    apply find_some in H2 as [Hin Hk].
    eapply find_none in H1; [|apply list_elem_of_In; rewrite Hperm;
                              apply list_elem_of_In, Hin].
    simpl in *. congruence.
Qed.

(** Rows with distinct keys load the same table in every order. *)
Lemma insert_all_ignore_perm {V} (rows rows' : list (Z * V)) (t : gmap Z V) :
  NoDup rows.*1 → rows ≡ₚ rows' →
  insert_all_ignore rows t = insert_all_ignore rows' t.
Proof.
  intros Hnd Hperm. apply map_eq. intros k.
  rewrite !insert_all_ignore_lookup. destruct (t !! k); [done|].
  by rewrite (find_key_perm rows rows' k).
Qed.

Lemma ids_ok_NoDup {V} (id : V → Z) (d : gmap string V) :
  ids_ok id d → NoDup ((λ kv, id kv.2) <$> map_to_list d).
Proof.
  intros [_ Hinj]. apply NoDup_fmap_2_strong; [|apply NoDup_map_to_list].
  intros [k1 v1] [k2 v2] H1 H2 Heq. simpl in Heq.
  apply elem_of_map_to_list in H1, H2.
  assert (k1 = k2) as -> by by eapply Hinj. congruence.
Qed.

Lemma mapM_result_cons {A B} (f : A → result B) x l ys :
  mapM f (x :: l) = Ok ys ↔
  ∃ y ys0, f x = Ok y ∧ mapM f l = Ok ys0 ∧ ys = y :: ys0.
Proof.
  change (mapM f (x :: l)) with (y ← f x; k ← mapM f l; mret (y :: k)).
  unfold mbind, mret, result_bind, result_ret.
  destruct (f x) as [y|e]; [|split; [done|by intros (? & ? & ? & _)]].
  destruct (mapM f l) as [ys0|e].
  - split; [intros [= <-]; by exists y, ys0|].
    by intros (? & ? & [= <-] & [= <-] & ->).
  - split; [done|]. by intros (? & ? & _ & ? & _).
Qed.

Lemma mapM_result_perm {A B} (f : A → result B) l l' ys :
  l ≡ₚ l' → mapM f l = Ok ys → ∃ ys', mapM f l' = Ok ys' ∧ ys ≡ₚ ys'.
Proof.
  intros Hperm. revert ys.
  induction Hperm as [|x l l' Hperm IH|x1 x2 l|l1 l2 l3 H12 IH12 H23 IH23];
    intros ys Hm.
  - by exists ys.
  - apply mapM_result_cons in Hm as (y & ys0 & Hy & Hl & ->).
    destruct (IH _ Hl) as (ys0' & Hl' & Hp).
    exists (y :: ys0'). split; [|by constructor].
    apply mapM_result_cons. by exists y, ys0'.
  - apply mapM_result_cons in Hm as (y2 & ys1 & Hy2 & Hl & ->).
    apply mapM_result_cons in Hl as (y1 & ys0 & Hy1 & Hl & ->).
    exists (y1 :: y2 :: ys0). split; [|by constructor].
    apply mapM_result_cons. exists y1, (y2 :: ys0). split; [done|].
    split; [|done]. apply mapM_result_cons. by exists y2, ys0.
  - destruct (IH12 _ Hm) as (ys2 & H2 & Hp2).
    destruct (IH23 _ H2) as (ys3 & H3 & Hp3).
    exists ys3. split; [done|]. by etrans.
Qed.

Lemma product_rows_keys self items rows :
  product_rows self items = Ok rows →
  Forall (λ kp : Z * Product.t, Product.product_id kp.2 = kp.1) items →
  rows.*1 = items.*1.
Proof.
  unfold product_rows. revert rows.
  induction items as [|[k p] l IH]; intros rows Hm Hall.
  - change (Ok [] = Ok rows) in Hm. by simplify_eq.
  - apply mapM_result_cons in Hm as ([k' row] & ys0 & Hy & Hl & ->).
    apply Forall_cons in Hall as [Hk Hall]. simpl in *.
    apply product_values_ok in Hy as [-> _].
    f_equal; [done|]. by apply IH.
Qed.

(** The dimension phases load the same tables whatever the order in
    which the items of the containers are taken: the insertion order of
    the Python dictionaries gives what [map_to_list] gives. *)
Lemma load_order_immaterial (self : GreenspotETL) (db : Sink.database) :
  etl_inv self →
  (∀ items, items ≡ₚ map_to_list (categories self) →
            load_categories_items items db = load_categories self db) ∧
  (∀ items, items ≡ₚ map_to_list (vendors self) →
            load_vendors_items items db = load_vendors self db) ∧
  (∀ items, items ≡ₚ map_to_list (products self) →
            load_products_items self items db = load_products self db) ∧
  (∀ items, items ≡ₚ elements (customers self) →
            load_customers_items items db = load_customers self db) ∧
  (∀ items, items ≡ₚ map_to_list (inventory self) →
            load_inventory_items items db = load_inventory self db).
Proof.
  intros Hinv. repeat split; intros items Hperm.
  - unfold load_categories. rewrite !load_categories_table. f_equal.
    unfold category_rows.
    apply insert_all_ignore_perm; [|by rewrite Hperm].
    rewrite Hperm, <- list_fmap_compose.
    erewrite list_fmap_ext; [apply (ids_ok_NoDup id), (inv_categories _ Hinv)|].
    by intros i [k v].
  - unfold load_vendors. rewrite !load_vendors_table. f_equal.
    unfold vendor_rows.
    apply insert_all_ignore_perm; [|by rewrite Hperm].
    rewrite Hperm, <- list_fmap_compose.
    erewrite list_fmap_ext;
      [apply (ids_ok_NoDup Vendor.vendor_id), (inv_vendors _ Hinv)|].
    by intros i [k v].
  - unfold load_products. rewrite !load_products_table.
    destruct (product_rows_ok self Hinv) as [rows Hrows].
    symmetry in Hperm.
    destruct (mapM_result_perm _ _ _ _ Hperm Hrows) as (rows' & Hrows' & Hp).
    unfold product_rows in *. rewrite Hrows, Hrows'. simpl. do 2 f_equal.
    symmetry. apply insert_all_ignore_perm; [|done].
    rewrite (product_rows_keys self _ _ Hrows); [apply NoDup_fst_map_to_list|].
    apply Forall_forall. intros [k p] Hin. apply elem_of_map_to_list in Hin.
    by destruct (inv_products _ Hinv k p Hin).
  - unfold load_customers. rewrite !load_customers_table. f_equal.
    unfold customer_rows.
    apply insert_all_ignore_perm; [|by rewrite Hperm].
    rewrite Hperm, <- list_fmap_compose.
    erewrite list_fmap_ext; [rewrite list_fmap_id; apply NoDup_elements|].
    by intros i c.
  - unfold load_inventory. rewrite !load_inventory_table. f_equal.
    apply insert_all_ignore_perm; [|done].
    rewrite Hperm. apply NoDup_fst_map_to_list.
Qed.

(** ** Rows whose cells all convert *)

Lemma product_step_defined row n s r s1 p :
  product_step row n s r s1 →
  products s !! n = None →
  product_fields row n = Ok p →
  r = Ok () ∧ s1 = add_product n p s.
Proof.
  intros Hstep Hnew Hp. destruct Hstep as [[x Hx]|e Hn He|p' Hn Hp'].
  - congruence.
  - congruence.
  - split; [done|]. congruence.
Qed.

Lemma vendor_step_purchase row n s r s2 vd q c h :
  vendor_step row n s r s2 →
  vendor_gate row = true →
  clean_vendor_data (Row.vendor row) = Ok (Some vd) →
  quantity_of row = Ok q →
  float (Row.cost row) = Ok c →
  on_hand_of row = Ok h →
  inventory s !! n = None →
  r = Ok () ∧
  ∃ v l,
    vendors (add_vendor vd s) !! VendorData.vendor_name vd = Some v ∧
    s2 = set_inventory (<[n := h]> (inventory s))
           (set_purchases
              (purchases s ++
                 [{| Purchase.product_id := n;
                     Purchase.vendor_id := Vendor.vendor_id v;
                     Purchase.quantity_ordered := q;
                     Purchase.unit_cost := c;
                     Purchase.purchase_date := date_of (Row.purchase_date row) |}])
              (set_logged l (add_vendor vd s))).
Proof.
  intros Hstep Hg Hc Hq Hf Hh Hnone.
  destruct Hstep as [| | | | |vd' v q' c' d l r s' _ Hc' Hv Hq' Hf' Hd Hsnap];
    try congruence.
  assert (vd' = vd) as -> by congruence.
  assert (q' = q) as -> by congruence.
  assert (c' = c) as -> by congruence.
  assert (d = date_of (Row.purchase_date row)) as ->.
  { pose proof (parse_date_value (Row.purchase_date row) (add_vendor vd s)) as Hval.
    rewrite Hd in Hval. simpl in Hval. congruence. }
  destruct (add_vendor_frame vd s) as (_&_&_&_&_&Hi&_).
  inversion Hsnap as [[x Hx]|e Hn He|h' Hn Hh']; subst; simpl in *; rewrite Hi in *.
  - congruence.
  - congruence.
  - split; [done|]. exists v, l. split; [done|]. congruence.
Qed.

Lemma sale_step_sale row n s r s3 cu q pr :
  sale_step row n s r s3 →
  sale_gate row = true →
  customer_of row = Ok cu →
  quantity_of row = Ok q →
  float (Row.price row) = Ok pr →
  r = Ok () ∧
  ∃ l,
    s3 = set_sales
           (sales s ++
              [{| Sale.product_id := n;
                  Sale.customer_id := cu;
                  Sale.quantity_sold := q;
                  Sale.unit_price := pr;
                  Sale.sale_date := date_of (Row.date_sold row) |}])
           (set_logged l (add_customer cu s)).
Proof.
  intros Hstep Hg Hc Hq Hf.
  destruct Hstep as [| | | |cu' q' p' d l _ Hc' Hq' Hf' Hd]; try congruence.
  assert (cu' = cu) as -> by congruence.
  assert (q' = q) as -> by congruence.
  assert (p' = pr) as -> by congruence.
  assert (d = date_of (Row.date_sold row)) as ->.
  { pose proof (parse_date_value (Row.date_sold row) (add_customer cu s)) as Hval.
    rewrite Hd in Hval. simpl in Hval. congruence. }
  split; [done|]. by exists l.
Qed.

(** ** The facts of a row, and the conversions that end the run *)











(** ** Rows that raise *)

Lemma process_row_item_raises row s e :
  int (Row.Item_num row) = Raise e → process_row row s = (Raise e, s).
Proof. intros H. unfold process_row, mbind, M_bind, lift. by rewrite H. Qed.

Lemma dropna_all_keep row rest :
  isna (Row.Item_num row) = false →
  dropna_all (row :: rest) = row :: dropna_all rest.
Proof.
  intros Hna. unfold dropna_all. rewrite filter_cons.
  case_decide as Hd; [done|]. simpl in Hd. by rewrite Hna in Hd.
Qed.

(** An exception of the row loop ends the run: nothing is loaded. *)
Lemma main_raises df db e s :
  iterrows (dropna_all df) init = (Raise e, s) →
  main true df db =
    (false, db, set_logged (logged s ++ [ERROR_parsing_csv e; ERROR_etl_failed e]) s).
Proof.
  intros H. unfold main, run_etl, parse_csv_data, try_except. rewrite H.
  run_M. by rewrite <- app_assoc.
Qed.


(** ** [normalize_unit] *)

Lemma lower_char_idemp c : Text.lower_char (Text.lower_char c) = Text.lower_char c.
Proof. by destruct c as [[] [] [] [] [] [] [] []]. Qed.

Lemma isspace_lower_char c : Text.isspace (Text.lower_char c) = Text.isspace c.
Proof. by destruct c as [[] [] [] [] [] [] [] []]. Qed.

Lemma lower_idemp s : Text.lower (Text.lower s) = Text.lower s.
Proof.
  unfold Text.lower. induction s as [|c s IH]; simpl; [done|].
  by rewrite lower_char_idemp, IH.
Qed.

Section strip.
Variable sp : ascii → bool.

Section map_chars.
Variable f : ascii → ascii.
Hypothesis f_space : ∀ c, sp (f c) = sp c.

Lemma lstrip_map_chars s :
  Text.lstrip_with sp (Text.map_chars f s) = Text.map_chars f (Text.lstrip_with sp s).
Proof.
  induction s as [|c s IH]; simpl; [done|].
  rewrite f_space. by destruct (sp c).
Qed.

Lemma rstrip_map_chars s :
  Text.rstrip_with sp (Text.map_chars f s) = Text.map_chars f (Text.rstrip_with sp s).
Proof.
  induction s as [|c s IH]; simpl; [done|].
  rewrite IH, f_space. destruct (Text.rstrip_with sp s); simpl; [|done].
  by destruct (sp c).
Qed.

Lemma strip_map_chars s :
  Text.strip_with sp (Text.map_chars f s) = Text.map_chars f (Text.strip_with sp s).
Proof. unfold Text.strip_with. by rewrite lstrip_map_chars, rstrip_map_chars. Qed.
End map_chars.

Lemma rstrip_idemp s :
  Text.rstrip_with sp (Text.rstrip_with sp s) = Text.rstrip_with sp s.
Proof.
  induction s as [|c s IH]; simpl; [done|].
  destruct (Text.rstrip_with sp s) as [|d r] eqn:Hr.
  - destruct (sp c) eqn:Hc; simpl; [done|]. by rewrite Hc.
  - simpl in *. by rewrite IH.
Qed.

Lemma rstrip_nonspace c s :
  sp c = false →
  Text.rstrip_with sp (String c s) = String c (Text.rstrip_with sp s).
Proof. intros Hc. simpl. rewrite Hc. by destruct (Text.rstrip_with sp s). Qed.

Lemma lstrip_head s :
  Text.lstrip_with sp s = "" ∨
  ∃ c t, Text.lstrip_with sp s = String c t ∧ sp c = false.
Proof.
  induction s as [|c s IH]; simpl; [by left|].
  destruct (sp c) eqn:Hc; [done|]. right. by exists c, s.
Qed.

Lemma strip_with_idemp s :
  Text.strip_with sp (Text.strip_with sp s) = Text.strip_with sp s.
Proof.
  unfold Text.strip_with.
  destruct (lstrip_head s) as [->|(c & t & -> & Hc)]; [done|].
  rewrite rstrip_nonspace by done. simpl. rewrite Hc.
  rewrite <- rstrip_nonspace by done. apply rstrip_idemp.
Qed.
End strip.

Lemma lower_strip s : Text.lower (Text.strip s) = Text.strip (Text.lower s).
Proof. symmetry. apply strip_map_chars, isspace_lower_char. Qed.

Lemma strip_idemp s : Text.strip (Text.strip s) = Text.strip s.
Proof. apply strip_with_idemp. Qed.

(** The table, as a function of the key. *)
Lemma unit_mappings_lookup t :
  default t (unit_mappings !! t) =
    if bool_decide (t = "12 ounce can" ∨ t = "12-oz can") then "12 oz can" else t.
Proof.
  unfold unit_mappings. simpl.
  rewrite !lookup_insert, lookup_empty.
  repeat case_decide; subst; simpl; try done; naive_solver.
Qed.

(** ** [clean_vendor_data] on the documented format *)

Lemma split_from_other cur c rest :
  not_comma c = true →
  Text.split_from cur (String c rest) = Text.split_from (c :: cur) rest.
Proof. by destruct c as [[] [] [] [] [] [] [] []]. Qed.

Lemma split_from_piece cur piece rest :
  Text.all_chars not_comma piece = true →
  Text.split_from cur (piece +:+ ", " +:+ rest) =
    string_of_list_ascii (rev cur ++ list_ascii_of_string piece)
      :: Text.split_from [] rest.
Proof.
  revert cur. induction piece as [|c piece IH]; intros cur Hp.
  - simpl. by rewrite app_nil_r.
  - simpl in Hp. apply andb_prop in Hp as [Hc Hp].
    change (String c piece +:+ ", " +:+ rest)
      with (String c (piece +:+ ", " +:+ rest)).
    rewrite split_from_other, IH by done. simpl. by rewrite <- app_assoc.
Qed.

Lemma all_chars_tail f c s :
  Text.all_chars f (String c s) = true → Text.all_chars f s = true.
Proof. simpl. by intros [_ ?]%andb_prop. Qed.

Lemma all_chars_lstrip f sp s :
  Text.all_chars f s = true → Text.all_chars f (Text.lstrip_with sp s) = true.
Proof.
  induction s as [|c s IH]; simpl; [done|]. intros [Hc Hs]%andb_prop.
  destruct (sp c); [by apply IH|]. simpl. by rewrite Hc, Hs.
Qed.

Lemma all_chars_rstrip f sp s :
  Text.all_chars f s = true → Text.all_chars f (Text.rstrip_with sp s) = true.
Proof.
  induction s as [|c s IH]; simpl; [done|]. intros [Hc Hs]%andb_prop.
  specialize (IH Hs). destruct (Text.rstrip_with sp s); simpl in *.
  - destruct (sp c); simpl; [done|]. by rewrite Hc.
  - by rewrite Hc, IH.
Qed.

Lemma all_chars_strip f s :
  Text.all_chars f s = true → Text.all_chars f (Text.strip s) = true.
Proof. intros. by apply all_chars_rstrip, all_chars_lstrip. Qed.

Section run.
(** A property of the text that is kept when characters are read. *)
Variable P : string → Prop.
Hypothesis P_tail : ∀ c s, P (String c s) → P s.

Lemma star_continues {R} f s (k : string → option R) x :
  Regex.star f s k = Some x → P s → ∃ s', P s' ∧ k s' = Some x.
Proof.
  induction s as [|c s IH]; simpl; intros Hrun Hs; [by exists ""|].
  destruct (f c); [|by eexists].
  destruct (Regex.star f s k) as [y|] eqn:Hstar; [|by eexists].
  simplify_eq. apply IH; [done|]. by eapply P_tail.
Qed.

(** A match calls its continuation on what is left of the text. *)
Lemma run_continues {R} r s cs (k : string → Regex.captures → option R) x :
  Regex.run r s cs k = Some x → P s → ∃ s' cs', P s' ∧ k s' cs' = Some x.
Proof.
  revert s cs k. induction r as [|f|a IHa b IHb|a IHa b IHb|f|i a IHa];
    intros s cs k Hrun Hs; simpl in Hrun.
  - by exists s, cs.
  - destruct s as [|c s]; [done|]. destruct (f c); [|done].
    exists s, cs. split; [by eapply P_tail|done].
  - apply IHa in Hrun as (s1 & cs1 & Hs1 & Hrun); [|done]. by apply IHb in Hrun.
  - destruct (Regex.run a s cs k) as [y|] eqn:Ha.
    + simplify_eq. by eapply IHa.
    + by eapply IHb.
  - apply star_continues in Hrun as (s' & Hs' & Hk); [|done]. by exists s', cs.
  - apply IHa in Hrun as (s1 & cs1 & Hs1 & Hrun); [|done].
    by exists s1, ((i, Regex.consumed s s1) :: cs1).
Qed.
End run.

(** The pattern needs five digits: text without a digit does not match. *)
Lemma location_pattern_needs_digit s :
  Text.all_chars not_digit s = true → Regex.rmatch location_pattern s = None.
Proof.
  intros Hs. destruct (Regex.rmatch location_pattern s) as [x|] eqn:Hm; [|done].
  exfalso. unfold Regex.rmatch, location_pattern in Hm.
  pose proof (λ R, @run_continues (λ t, Text.all_chars not_digit t = true)
                (all_chars_tail not_digit) R) as Hcont.
  do 5 (change (Regex.run (Regex.Seq ?a ?b) ?t ?cs ?k)
          with (Regex.run a t cs (λ s1 cs1, Regex.run b s1 cs1 k)) in Hm;
        apply Hcont in Hm as (? & ? & ? & Hm); [|done]).
  simpl in Hm.
  match type of Hm with
  | match ?t with _ => _ end = _ => destruct t as [|c t']; [done|]
  end.
  match goal with
  | H : Text.all_chars not_digit (String c t') = true |- _ =>
      simpl in H; apply andb_prop in H as [Hc _]
  end.
  unfold not_digit in Hc. by destruct (Text.isdigit c).
Qed.

(** Text that strips to nothing holds white space only. *)
Lemma rstrip_empty sp s :
  Text.rstrip_with sp s = "" → Text.all_chars sp s = true.
Proof.
  induction s as [|c s IH]; simpl; [done|].
  destruct (Text.rstrip_with sp s); [|done].
  destruct (sp c); [|done]. intros _. by apply IH.
Qed.

Lemma lstrip_spaces sp s :
  Text.all_chars sp (Text.lstrip_with sp s) = true →
  Text.all_chars sp s = true.
Proof.
  induction s as [|c s IH]; simpl; [done|].
  destruct (sp c) eqn:Hc; [done|]. simpl. by rewrite Hc.
Qed.

Lemma strip_empty s : Text.strip s = "" → Text.all_chars Text.isspace s = true.
Proof. intros H. by apply lstrip_spaces, rstrip_empty. Qed.

Lemma all_chars_app f s t :
  Text.all_chars f (s +:+ t) = Text.all_chars f s && Text.all_chars f t.
Proof.
  induction s as [|c s IH]; simpl; [done|]. by rewrite IH, andb_assoc.
Qed.

(** On every vendor string of the documented format
    "Name, Address, City, State Zip" whose name, address and city hold
    no comma and whose city holds no digit, the pieces are cut at the
    comma before the state as well, and city, state and zip come out
    empty. *)
Lemma documented_format_loses_location (name address city state_zip : string) :
  Text.all_chars not_comma name = true →
  Text.all_chars not_comma address = true →
  Text.all_chars not_comma city = true →
  Text.all_chars not_digit city = true →
  clean_vendor_data
    (CStr (name +:+ ", " +:+ address +:+ ", " +:+ city +:+ ", " +:+ state_zip)) =
    Ok (Some {| VendorData.vendor_name := Text.strip name;
                VendorData.address := Text.strip address;
                VendorData.city := "";
                VendorData.state := "";
                VendorData.zip_code := "" |}).
Proof.
  intros Hname Haddr Hcity Hdigit. unfold clean_vendor_data. simpl.
  rewrite bool_decide_eq_false_2.
  2: { intros Hblank%strip_empty. rewrite all_chars_app in Hblank.
       apply andb_prop in Hblank as [_ Hblank]. simpl in Hblank. done. }
  unfold Text.split_comma_space. rewrite !split_from_piece by done. simpl.
  rewrite !string_of_list_ascii_of_string.
  destruct (Text.split_from [] state_zip) as [|x l] eqn:Hl; simpl;
    by rewrite location_pattern_needs_digit by by apply all_chars_strip.
Qed.

(* ===================================================================== *)
(** * Part 7: the claims                                                  *)
(* ===================================================================== *)

(** C1 (as amended). When the row pass ends without an exception, the
    quantity the inventory dictionary holds for a product is the
    on-hand value of the first row, in source order, that records a
    purchase of that product (0 when that cell is empty), and the
    product has no entry when no row does: the guard
    [if item_num not in self.inventory] keeps the first snapshot. The
    inventory table of a sink that was empty holds the same value. *)
Theorem inventory_keeps_first_snapshot df self p :
  parse_csv_data df init = (Ok (), self) →
  inventory self !! p =
    (row ← List.find (emits_purchase p) df; result_to_option (on_hand_of row)) ∧
  Sink.inventory (main true df Sink.empty).1.2 !! p = inventory self !! p.
Proof.
  intros Hrun. split.
  - apply parse_csv_data_ok in Hrun.
    rewrite (iterrows_inventory _ _ _ p Hrun), find_emits_dropna. done.
  - destruct (main_inventory df self Hrun) as (db & -> & Hdb). simpl.
    by rewrite Hdb, insert_all_ignore_lookup, lookup_empty, find_map_to_list.
Qed.

Lemma inventory_keeps_first_snapshot_witness :
  inventory (parse_csv_data snapshots_40_then_25 init).2 !! 1000 = Some 40 ∧
  Sink.inventory (main true snapshots_40_then_25 Sink.empty).1.2 !! 1000 = Some 40.
Proof.
  destruct (inventory_keeps_first_snapshot snapshots_40_then_25
              (parse_csv_data snapshots_40_then_25 init).2 1000) as [H1 H2].
  - vm_compute. reflexivity.
  - split.
    + rewrite H1. vm_compute. reflexivity.
    + rewrite H2, H1. vm_compute. reflexivity.
Defined.

(** With on-hand quantities 40 and then 25 for one product, both rows
    recording a purchase, the inventory holds 40, not 25. *)
Lemma last_write_wins_fails :
  let self := (parse_csv_data snapshots_40_then_25 init).2 in
  (parse_csv_data snapshots_40_then_25 init).1 = Ok () ∧
  length (purchases self) = 2%nat ∧
  inventory self !! 1000 = Some 40 ∧
  inventory self !! 1000 ≠ Some 25 ∧
  Sink.inventory (main true snapshots_40_then_25 Sink.empty).1.2 !! 1000 ≠ Some 25.
Proof. vm_compute. repeat split; congruence. Qed.

(** C2. [clean_vendor_data] on the vendor string of the spec: the name
    and the address are read, but the piece after the second
    comma-space is ["Evansville"] alone, which the pattern
    "City, State Zip" does not match, so that city, state and zip stay
    empty. The string without a comma gives its name and nothing
    else. *)
Theorem clean_vendor_data_examples :
  clean_vendor_data (CStr "Bennet Farms, Rt. 17, Evansville, IL 55446") =
    Ok (Some {| VendorData.vendor_name := "Bennet Farms";
                VendorData.address := "Rt. 17";
                VendorData.city := "";
                VendorData.state := "";
                VendorData.zip_code := "" |}) ∧
  Text.split_comma_space "Bennet Farms, Rt. 17, Evansville, IL 55446" =
    ["Bennet Farms"; "Rt. 17"; "Evansville"; "IL 55446"] ∧
  Regex.rmatch location_pattern "Evansville" = None ∧
  clean_vendor_data (CStr "Acme") =
    Ok (Some {| VendorData.vendor_name := "Acme";
                VendorData.address := "";
                VendorData.city := "";
                VendorData.state := "";
                VendorData.zip_code := "" |}).
Proof. by vm_compute. Qed.

(** C3. When the pipeline succeeds, the row written to the products
    table for a product that the sink did not hold carries as
    [primary_vendor_id] the vendor of the first purchase fact, in the
    order the facts were accumulated, whose product is that product:
    the vendor A of a first fact wins over any vendor B of a later one,
    and the value is null when no purchase fact is for the product. *)
Theorem primary_vendor_is_first_purchase df db0 db self p :
  main true df db0 = (true, db, self) →
  is_Some (products self !! p) →
  Sink.products db0 !! p = None →
  ∃ row,
    Sink.products db !! p = Some row ∧
    Sink.primary_vendor_id row =
      (Purchase.vendor_id <$>
         List.find (λ f, bool_decide (Purchase.product_id f = p)) (purchases self)) ∧
    (∀ (pre : list Purchase.t) fA mid fB post,
        purchases self = (pre ++ fA :: mid ++ fB :: post)%list →
        Forall (λ f, Purchase.product_id f ≠ p) pre →
        Purchase.product_id fA = p →
        Purchase.product_id fB = p →
        Sink.primary_vendor_id row = Some (Purchase.vendor_id fA)) ∧
    (Forall (λ f, Purchase.product_id f ≠ p) (purchases self) →
     Sink.primary_vendor_id row = None).
Proof.
  unfold main, run_etl. simpl. intros Hrun [prod Hprod] Hnone.
  pose proof (parse_csv_data_inv df init etl_inv_init) as Hinv.
  destruct (parse_csv_data df init) as [[[]|e] s]; [|done]. simpl in Hinv.
  unfold load_products, load_categories, load_vendors, load_customers,
    load_inventory in Hrun.
  rewrite load_products_table in Hrun. unfold mbind, result_bind in Hrun.
  destruct (product_rows s _) as [rows|e] eqn:Hrows; [|done].
  rewrite load_categories_table, load_vendors_table, load_customers_table,
    load_inventory_table, load_purchases_table, load_sales_table in Hrun.
  simplify_eq/=.
  destruct (product_rows_find _ _ _ p Hrows) as (row & Hfind & Hrow).
  { apply Exists_exists. exists (p, prod). split.
    - by apply elem_of_map_to_list.
    - simpl. by destruct (inv_products _ Hinv p prod). }
  exists row. rewrite insert_all_ignore_lookup, Hnone, Hfind. split; [done|].
  rewrite Hrow. split; [apply find_primary_vendor_find|]. split.
  - intros pre fA mid fB post -> Hpre HA _. by apply find_primary_vendor_first.
  - apply find_primary_vendor_none.
Qed.

Lemma primary_vendor_is_first_purchase_witness :
  ∃ row,
    Sink.products (main true vendor_A_then_B Sink.empty).1.2 !! 1000 = Some row ∧
    Sink.primary_vendor_id row = Some 1.
Proof.
  destruct (primary_vendor_is_first_purchase vendor_A_then_B Sink.empty
              (main true vendor_A_then_B Sink.empty).1.2
              (main true vendor_A_then_B Sink.empty).2 1000)
    as (row & Hrow & Hfirst & _).
  - vm_compute. reflexivity.
  - vm_compute. eauto.
  - vm_compute. reflexivity.
  - exists row. split; [exact Hrow|]. rewrite Hfirst. vm_compute. reflexivity.
Defined.

(** C4 (as amended). A row whose item number is missing is passed over:
    the object is the one the following rows start from. A row whose
    item number is present but does not convert creates nothing
    either, but [int] raises: the loop stops at that row with the
    object unchanged, the following rows are not processed, and a run
    whose first row is such a row fails with the sink untouched. *)
Theorem missing_item_skipped_unparseable_item_raises row rest s db :
  (isna (Row.Item_num row) = true →
   iterrows (row :: rest) s = iterrows rest s) ∧
  (∀ e, isna (Row.Item_num row) = false →
        int (Row.Item_num row) = Raise e →
        process_row row s = (Raise e, s) ∧
        iterrows (row :: rest) s = (Raise e, s) ∧
        main true (row :: rest) db =
          (false, db, set_logged [ERROR_parsing_csv e; ERROR_etl_failed e] init)).
Proof.
  split.
  - intros Hna. by rewrite iterrows_cons, Hna.
  - intros e Hna He. split; [by apply process_row_item_raises|].
    assert (∀ s, iterrows (row :: rest) s = (Raise e, s)) as Hit.
    { intros s0. by rewrite iterrows_cons, Hna, (process_row_item_raises _ _ _ He). }
    split; [done|].
    rewrite (main_raises _ db e init); [done|].
    rewrite dropna_all_keep by done.
    by rewrite iterrows_cons, Hna, (process_row_item_raises _ _ _ He).
Qed.

Lemma missing_item_skipped_unparseable_item_raises_witness :
  iterrows [no_item_row; good_row] init = iterrows [good_row] init ∧
  iterrows [bad_item_row; good_row] init = (Raise ValueError, init) ∧
  main true [bad_item_row; good_row] Sink.empty =
    (false, Sink.empty,
     set_logged [ERROR_parsing_csv ValueError; ERROR_etl_failed ValueError] init).
Proof.
  split.
  - apply (missing_item_skipped_unparseable_item_raises
             no_item_row [good_row] init Sink.empty). reflexivity.
  - apply (missing_item_skipped_unparseable_item_raises
             bad_item_row [good_row] init Sink.empty); reflexivity.
Defined.

(** A row with an item number that is not a number does not let the
    pass go on to the next row: the row after it, which alone defines
    product 1000, is not processed, and the run fails. *)
Lemma unparseable_item_stops_the_pass :
  (parse_csv_data [bad_item_row; good_row] init).1 = Raise ValueError ∧
  products (parse_csv_data [bad_item_row; good_row] init).2 !! 1000 = None ∧
  is_Some (products (parse_csv_data [good_row] init).2 !! 1000) ∧
  (main true [bad_item_row; good_row] Sink.empty).1 = (false, Sink.empty).
Proof. vm_compute. repeat split; eauto. Qed.

(** C5 (as amended). Take a row with an item number that is not yet a
    key of [products], a vendor string that is not blank with a cost
    that converts, and a price that converts with a sale date that is
    present, and whose other cells convert where the code converts
    them (the product texts, the quantity, the on-hand quantity, the
    customer). Processing that row in a reachable object returns
    without an exception and adds exactly one product, one purchase
    fact with one inventory snapshot, and one sale fact: the three
    blocks are not alternatives. *)
Theorem one_row_yields_product_purchase_and_sale
        row self n p vd q c h cu pr :
  reachable self →
  int (Row.Item_num row) = Ok n →
  products self !! n = None →
  product_fields row n = Ok p →
  vendor_gate row = true →
  clean_vendor_data (Row.vendor row) = Ok (Some vd) →
  quantity_of row = Ok q →
  float (Row.cost row) = Ok c →
  on_hand_of row = Ok h →
  sale_gate row = true →
  customer_of row = Ok cu →
  float (Row.price row) = Ok pr →
  let self' := (process_row row self).2 in
  (process_row row self).1 = Ok () ∧
  products self' = <[n := p]> (products self) ∧
  (∃ v, vendors self' !! VendorData.vendor_name vd = Some v ∧
        purchases self' =
          (purchases self ++
             [{| Purchase.product_id := n;
                 Purchase.vendor_id := Vendor.vendor_id v;
                 Purchase.quantity_ordered := q;
                 Purchase.unit_cost := c;
                 Purchase.purchase_date := date_of (Row.purchase_date row) |}])%list) ∧
  inventory self !! n = None ∧
  inventory self' = <[n := h]> (inventory self) ∧
  sales self' =
    (sales self ++
       [{| Sale.product_id := n;
           Sale.customer_id := cu;
           Sale.quantity_sold := q;
           Sale.unit_price := pr;
           Sale.sale_date := date_of (Row.date_sold row) |}])%list.
Proof.
  intros Hreach Hn Hnew Hp Hvg Hvd Hq Hc Hh Hsg Hcu Hpr.
  apply reachable_inv in Hreach as Hinv.
  assert (inventory self !! n = None) as Hnone.
  { apply eq_None_not_Some. intros Hs. apply (inv_inventory _ Hinv) in Hs.
    destruct Hs. congruence. }
  pose proof (process_row_step row self) as Hstep.
  destruct (process_row row self) as [r s']. simpl in *.
  destruct (add_product_frame n p self) as (Ev1 & Ep1 & Ec1 & Epu1 & Esa1 & Ei1 & _).
  destruct Hstep as [e He|n' e s1 Hi Hps|n' e s1 s2 Hi Hps Hvs|n' s1 s2 r s3 Hi Hps Hvs Hss];
    try congruence; assert (n' = n) as -> by congruence.
  - by destruct (product_step_defined _ _ _ _ _ p Hps).
  - destruct (product_step_defined _ _ _ _ _ p Hps) as [_ ->]; [done..|].
    edestruct (vendor_step_purchase _ _ _ _ _ vd q c h Hvs) as [? _];
      rewrite ?Ei1; done.
  - destruct (product_step_defined _ _ _ _ _ p Hps) as [_ ->]; [done..|].
    edestruct (vendor_step_purchase _ _ _ _ _ vd q c h Hvs)
      as [_ (v & l & Hv & ->)]; rewrite ?Ei1; try done.
    edestruct (sale_step_sale _ _ _ _ _ cu q pr Hss) as [-> (l' & ->)]; try done.
    destruct (add_vendor_frame vd (add_product n p self))
      as (Ep2 & _ & _ & _ & Esa2 & _).
    destruct cu as [cid|]; simpl; rewrite Ep2, Esa2, Ep1, Epu1, Ei1, Esa1;
      repeat split; try done; by exists v.
Qed.

Lemma one_row_yields_product_purchase_and_sale_witness :
  let self' := (process_row purchase_and_sale_row init).2 in
  (process_row purchase_and_sale_row init).1 = Ok () ∧
  size (products self') = 1%nat ∧
  length (purchases self') = 1%nat ∧
  inventory self' = {[ 1100 := 50 ]} ∧
  length (sales self') = 1%nat.
Proof.
  edestruct (one_row_yields_product_purchase_and_sale purchase_and_sale_row init 1100)
    as (H1 & H2 & (v & _ & H3) & _ & H4 & H5).
  - by exists [].
  - vm_compute. reflexivity.
  - vm_compute. reflexivity.
  - vm_compute. reflexivity.
  - vm_compute. reflexivity.
  - vm_compute. reflexivity.
  - vm_compute. reflexivity.
  - vm_compute. reflexivity.
  - vm_compute. reflexivity.
  - vm_compute. reflexivity.
  - vm_compute. reflexivity.
  - vm_compute. reflexivity.
  - simpl. rewrite H2, H3, H4, H5. split; [exact H1|]. repeat split.
Defined.

(** A row with a first-time item number, a vendor string that is not
    blank, a cost and a price that convert and a sale date, but a
    quantity that is not a number: the product is defined, then
    [int] raises, and the row leaves no purchase fact, no inventory
    snapshot and no sale fact. *)
Lemma unparseable_quantity_yields_no_fact :
  let self' := (process_row bad_quantity_row init).2 in
  (int (Row.Item_num bad_quantity_row) = Ok 1100 ∧
   products init !! 1100 = None ∧
   vendor_gate bad_quantity_row = true ∧
   is_Some (result_to_option (float (Row.cost bad_quantity_row))) ∧
   sale_gate bad_quantity_row = true ∧
   is_Some (result_to_option (float (Row.price bad_quantity_row)))) ∧
  (process_row bad_quantity_row init).1 = Raise ValueError ∧
  is_Some (products self' !! 1100) ∧
  purchases self' = [] ∧
  inventory self' !! 1100 = None ∧
  sales self' = [].
Proof. vm_compute. repeat split; eauto. Qed.




(** C7. Running the pipeline a second time on the sink the first run
    left, starting from an empty sink, changes none of the five
    dimension tables (so their row counts stay the same: a key that is
    present is passed over, without an error and without a second
    row), returns the same flag, and appends the facts once more, so
    that the two fact tables hold exactly twice the rows. *)
Theorem rerun_keeps_dimensions_doubles_facts (connected : bool) (df : list Row.t) :
  let first := main connected df Sink.empty in
  let db1 := first.1.2 in
  let second := main connected df db1 in
  let db2 := second.1.2 in
  (size (Sink.product_categories db2) = size (Sink.product_categories db1) ∧
   size (Sink.vendors db2) = size (Sink.vendors db1) ∧
   size (Sink.products db2) = size (Sink.products db1) ∧
   size (Sink.customers db2) = size (Sink.customers db1) ∧
   size (Sink.inventory db2) = size (Sink.inventory db1)) ∧
  (Sink.product_categories db2 = Sink.product_categories db1 ∧
   Sink.vendors db2 = Sink.vendors db1 ∧
   Sink.products db2 = Sink.products db1 ∧
   Sink.customers db2 = Sink.customers db1 ∧
   Sink.inventory db2 = Sink.inventory db1) ∧
  second.1.1 = first.1.1 ∧
  (length (Sink.purchase_orders db2) = 2 * length (Sink.purchase_orders db1))%nat ∧
  (length (Sink.sales_transactions db2) = 2 * length (Sink.sales_transactions db1))%nat.
Proof.
  unfold main, run_etl. destruct connected; simpl; [|done].
  destruct (parse_csv_data df init) as [[[]|e] s]; [|done].
  unfold load_products, load_categories, load_vendors, load_customers,
    load_inventory.
  rewrite !load_products_table. unfold mbind, result_bind.
  rewrite !load_categories_table, !load_vendors_table.
  destruct (product_rows s _) as [rows|e]; simpl.
  - rewrite !load_customers_table, !load_inventory_table,
      !load_purchases_table, !load_sales_table. simpl.
    rewrite !insert_all_ignore_idemp, !length_app, !length_fmap.
    repeat split; lia.
  - by rewrite !insert_all_ignore_idemp.
Qed.

(** C8 (as amended). [normalize_unit] returns ['each'] for a missing
    (NaN) cell. For text it lower-cases, then trims: the two spellings
    "12 ounce can" and "12-oz can" of the table give "12 oz can", every
    other text is returned lower-cased and trimmed, and the result is
    always in lower case and trimmed. Text that is empty or blank is
    not missing: it gives the empty string, not ['each']. *)
Theorem normalize_unit_spec (s : string) :
  let t := Text.strip (Text.lower s) in
  normalize_unit NaN = Ok "each" ∧
  normalize_unit (CStr s) =
    Ok (if bool_decide (t = "12 ounce can" ∨ t = "12-oz can")
        then "12 oz can" else t) ∧
  (∃ u, normalize_unit (CStr s) = Ok u ∧ Text.lower u = u ∧ Text.strip u = u) ∧
  normalize_unit (CStr "12 Ounce Can ") = Ok "12 oz can" ∧
  normalize_unit (CStr "12-oz can") = Ok "12 oz can" ∧
  normalize_unit (CStr " Bunch") = Ok "bunch" ∧
  normalize_unit (CStr "") = Ok "" ∧
  normalize_unit (CStr "   ") = Ok "".
Proof.
  intros t.
  assert (Hs : normalize_unit (CStr s) =
            Ok (if bool_decide (t = "12 ounce can" ∨ t = "12-oz can")
                then "12 oz can" else t)).
  { unfold normalize_unit. simpl. by rewrite unit_mappings_lookup. }
  split; [done|]. split; [done|]. split; [|by vm_compute].
  eexists. split; [exact Hs|].
  case_bool_decide; [by vm_compute|]. subst t. split.
  - by rewrite lower_strip, lower_idemp.
  - apply strip_idemp.
Qed.

(** Empty text and blank text are inputs of [normalize_unit] that do
    not return ['each']. *)
Lemma empty_unit_is_not_each :
  normalize_unit (CStr "") = Ok "" ∧
  normalize_unit (CStr "") ≠ Ok "each" ∧
  normalize_unit (CStr "  ") ≠ Ok "each".
Proof. vm_compute. repeat split; congruence. Qed.

(** C9. After the row pass over any DataFrame, whether it ended or
    raised, every purchase fact of the object names a product that is a
    key of [products] and a vendor id that the [vendors] dictionary
    assigned, which lies between 1 and the number of vendors, and every
    sale fact names a product that is a key of [products] and a
    customer that is null or in [customers]. *)
Theorem facts_reference_known_entities (df : list Row.t) :
  let self := (parse_csv_data df init).2 in
  Forall (λ f,
      is_Some (products self !! Purchase.product_id f) ∧
      (∃ k v, vendors self !! k = Some v ∧
              Vendor.vendor_id v = Purchase.vendor_id f) ∧
      1 ≤ Purchase.vendor_id f ≤ Z.of_nat (size (vendors self)))
    (purchases self) ∧
  Forall (λ f,
      is_Some (products self !! Sale.product_id f) ∧
      match Sale.customer_id f with
      | None => True
      | Some c => c ∈ customers self
      end)
    (sales self).
Proof.
  intros self.
  destruct (parse_csv_data_inv df init etl_inv_init) as [[Hv _] _ Hp Hs _ _].
  fold self in Hv, Hp, Hs. split.
  - eapply Forall_impl; [exact Hp|].
    intros f [H1 (k & v & H2 & H3)]. split; [done|]. split; [by exists k, v|].
    rewrite <- H3. by eapply Hv.
  - eapply Forall_impl; [exact Hs|].
    intros f [H1 H2]. split; [done|]. destruct (Sale.customer_id f); auto.
Qed.

(** C10. Whatever the input and the sink, every row the pipeline adds
    to [purchase_orders] has the status ['received']: the table after
    the run is the table before it followed by rows of that status. *)
Theorem purchase_orders_are_received (connected : bool) (df : list Row.t)
        (db : Sink.database) :
  ∃ new,
    Sink.purchase_orders (main connected df db).1.2 =
      (Sink.purchase_orders db ++ new)%list ∧
    new = (purchase_values <$>
             purchases (if (main connected df db).1.1
                        then (main connected df db).2 else init)) ∧
    Forall (λ r, Sink.status r = "received") new.
Proof.
  assert (Hnil : ∃ new, Sink.purchase_orders db = (Sink.purchase_orders db ++ new)%list ∧
            new = (purchase_values <$> purchases init) ∧
            Forall (λ r, Sink.status r = "received") new).
  { exists []. by rewrite app_nil_r. }
  unfold main, run_etl. destruct connected; simpl; [|done].
  destruct (parse_csv_data df init) as [[[]|e] s]; [|done].
  unfold load_products, load_categories, load_vendors, load_customers,
    load_inventory.
  rewrite load_products_table. unfold mbind, result_bind.
  rewrite load_categories_table, load_vendors_table.
  destruct (product_rows s _) as [rows|e]; simpl; [|done].
  rewrite load_customers_table, load_inventory_table,
    load_purchases_table, load_sales_table. simpl.
  assert (Hnew : Forall (λ r, Sink.status r = "received")
                        (purchase_values <$> purchases s)).
  { apply Forall_fmap, Forall_forall. by intros f _. }
  by exists (purchase_values <$> purchases s).
Qed.

(* ===================================================================== *)
(** * Part 8: further properties of the code                              *)
(* ===================================================================== *)

(** ** What the matcher accepts *)

Lemma str_app_cons x (a b : string) : String x a +:+ b = String x (a +:+ b).
Proof. reflexivity. Qed.

Lemma str_app_assoc (a b c : string) : (a +:+ b) +:+ c = a +:+ b +:+ c.
Proof. induction a as [|x a IH]; [done | rewrite !str_app_cons; by f_equal]. Qed.

Lemma str_app_length (a b : string) :
  String.length (a +:+ b) = (String.length a + String.length b)%nat.
Proof. induction a as [|x a IH]; [done | rewrite str_app_cons; simpl; by f_equal]. Qed.

Lemma str_app_nil_r (a : string) : a +:+ "" = a.
Proof. induction a as [|x a IH]; [done | rewrite str_app_cons; by f_equal]. Qed.

Lemma substring_app p rest : substring 0 (String.length p) (p +:+ rest) = p.
Proof.
  induction p as [|x p IH].
  - by destruct rest.
  - rewrite str_app_cons. simpl. by f_equal.
Qed.

Lemma consumed_app p rest : Regex.consumed (p +:+ rest) rest = p.
Proof.
  unfold Regex.consumed. rewrite str_app_length.
  replace (String.length p + String.length rest - String.length rest)%nat
    with (String.length p) by lia.
  apply substring_app.
Qed.

Lemma star_sound {R} f s (k : string → option R) x :
  Regex.star f s k = Some x →
  ∃ p rest, s = p +:+ rest ∧ Text.all_chars f p = true ∧ k rest = Some x.
Proof.
  induction s as [|c s IH]; simpl; intros Hs.
  - by exists "", "".
  - destruct (f c) eqn:Hc; [|by exists "", (String c s)].
    destruct (Regex.star f s k) as [r|] eqn:Hr.
    + destruct (IH Hs) as (p & rest & -> & Hp & Hk).
      exists (String c p), rest. simpl. by rewrite Hc, Hp.
    + by exists "", (String c s).
Qed.

(** Whatever the continuation accepts was reached by reading a text the
    expression matches. *)
Lemma run_sound {R} r : ∀ s cs (k : string → Regex.captures → option R) x,
  Regex.run r s cs k = Some x →
  ∃ p rest new, s = p +:+ rest ∧ matches r p new ∧
                k rest (new ++ cs)%list = Some x.
Proof.
  induction r as [|f|a IHa b IHb|a IHa b IHb|f|i a IHa]; simpl; intros s cs k x Hr.
  - exists "", s, []. split_and!; [done|constructor|done].
  - destruct s as [|c s]; [done|]. destruct (f c) eqn:Hc; [|done].
    exists (String c ""), s, []. split_and!; [done|by constructor|done].
  - apply IHa in Hr as (p & r1 & ca & -> & Ha & Hr).
    apply IHb in Hr as (q & r2 & cb & -> & Hb & Hr).
    exists (p +:+ q), r2, (cb ++ ca)%list.
    split_and!; [by rewrite str_app_assoc|by constructor|by rewrite <- app_assoc].
  - destruct (Regex.run a s cs k) as [y|] eqn:Ha.
    + simplify_eq. apply IHa in Ha as (p & rest & new & -> & Ha & Hk).
      exists p, rest, new. split_and!; [done|by apply m_alt_l|done].
    + apply IHb in Hr as (p & rest & new & -> & Hb & Hk).
      exists p, rest, new. split_and!; [done|by apply m_alt_r|done].
  - apply star_sound in Hr as (p & rest & -> & Hp & Hk).
    exists p, rest, []. split_and!; [done|by constructor|done].
  - apply IHa in Hr as (p & rest & new & -> & Ha & Hk).
    rewrite consumed_app in Hk.
    exists p, rest, ((i, p) :: new). split_and!; [done|by constructor|done].
Qed.

Lemma rmatch_sound r s cs rest :
  Regex.rmatch r s = Some (cs, rest) →
  ∃ p, s = p +:+ rest ∧ matches r p cs.
Proof.
  unfold Regex.rmatch. intros Hr.
  apply run_sound in Hr as (p & rest' & new & -> & Hm & Hk).
  rewrite app_nil_r in Hk. simplify_eq. by exists p.
Qed.

(** ** [strptime] yields dates of the calendar *)

Ltac inv_matches :=
  repeat match goal with
  | H : matches (Regex.Seq _ _) _ _ |- _ => inversion H; clear H; subst
  | H : matches (Regex.Alt _ _) _ _ |- _ => inversion H; clear H; subst
  | H : matches (Regex.Cls _) _ _ |- _ => inversion H; clear H; subst
  | H : matches (Regex.Group _ _) _ _ |- _ => inversion H; clear H; subst
  | H : matches (Regex.Star _) _ _ |- _ => inversion H; clear H; subst
  | H : matches Regex.Eps _ _ |- _ => inversion H; clear H; subst
  | H : bool_decide (_ = _) = true |- _ => apply bool_decide_eq_true in H; subst
  end.

Lemma in_range_code lo hi c :
  Text.in_range lo hi c = true → (lo ≤ Text.code c ≤ hi)%N.
Proof. unfold Text.in_range. intros [?%N.leb_le ?%N.leb_le]%andb_prop. lia. Qed.

Lemma isspace_c_above c : (33 ≤ Text.code c)%N → Text.isspace_c c = false.
Proof.
  intros Hc. unfold Text.isspace_c, Text.in_range.
  apply orb_false_intro; apply andb_false_intro2; apply N.leb_gt; lia.
Qed.

Lemma re_m_value p cs :
  matches Datetime.re_m p cs →
  cs = [] ∧ 1 ≤ Text.digits_value 0 (Text.lstrip_with Text.isspace_c p) ≤ 12.
Proof.
  unfold Datetime.re_m, Datetime.digit_in, Regex.Chr. intros Hm. inv_matches.
  all: repeat match goal with
       | H : Text.in_range _ _ _ = true |- _ => apply in_range_code in H
       end.
  all: split; [done|]; simpl.
  all: rewrite ?isspace_c_above by lia; simpl; unfold Text.digit_value; simpl; lia.
Qed.

Lemma re_d_value p cs :
  matches Datetime.re_d p cs →
  cs = [] ∧ 1 ≤ Text.digits_value 0 (Text.lstrip_with Text.isspace_c p) ≤ 31.
Proof.
  unfold Datetime.re_d, Datetime.digit_in, Datetime.digit, Text.isdigit, Regex.Chr.
  intros Hm. inv_matches.
  all: repeat match goal with
       | H : Text.in_range _ _ _ = true |- _ => apply in_range_code in H
       end.
  all: split; [done|]; simpl.
  all: rewrite ?isspace_c_above by lia; simpl; unfold Text.digit_value; simpl; lia.
Qed.

Lemma re_Y_value p cs :
  matches Datetime.re_Y p cs →
  cs = [] ∧ 0 ≤ Text.digits_value 0 (Text.lstrip_with Text.isspace_c p) ≤ 9999.
Proof.
  unfold Datetime.re_Y, Datetime.digit, Text.isdigit. simpl.
  intros Hm. inv_matches.
  all: repeat match goal with
       | H : Text.in_range _ _ _ = true |- _ => apply in_range_code in H
       end.
  all: split; [done|]; simpl.
  all: rewrite ?isspace_c_above by lia; simpl; unfold Text.digit_value; simpl; lia.
Qed.

Lemma strptime_valid s d : Datetime.strptime s = Ok d → valid_date d.
Proof.
  unfold Datetime.strptime.
  destruct (Regex.rmatch Datetime.format_regex s) as [[cs rest]|] eqn:Hm; [|done].
  destruct (negb (bool_decide (rest = ""))); [done|].
  apply rmatch_sound in Hm as (p & _ & Hm).
  unfold Datetime.format_regex, Regex.Chr in Hm. inv_matches.
  repeat match goal with
  | H : matches Datetime.re_m _ _ |- _ => apply re_m_value in H as [-> ?]
  | H : matches Datetime.re_d _ _ |- _ => apply re_d_value in H as [-> ?]
  | H : matches Datetime.re_Y _ _ |- _ => apply re_Y_value in H as [-> ?]
  end.
  unfold Datetime.group_int, Regex.group. simpl.
  destruct (_ && _) eqn:Hc; [|done]. intros [= <-].
  apply andb_prop in Hc as [?%Z.leb_le ?%Z.leb_le].
  unfold valid_date. simpl. lia.
Qed.

(** ** [normalize_location] *)

Lemma upper_char_idemp c : Text.upper_char (Text.upper_char c) = Text.upper_char c.
Proof. by destruct c as [[] [] [] [] [] [] [] []]. Qed.

Lemma isspace_upper_char c : Text.isspace (Text.upper_char c) = Text.isspace c.
Proof. by destruct c as [[] [] [] [] [] [] [] []]. Qed.

Lemma upper_idemp s : Text.upper (Text.upper s) = Text.upper s.
Proof.
  unfold Text.upper. induction s as [|c s IH]; simpl; [done|].
  by rewrite upper_char_idemp, IH.
Qed.

Lemma upper_strip s : Text.upper (Text.strip s) = Text.strip (Text.upper s).
Proof. symmetry. apply strip_map_chars, isspace_upper_char. Qed.

(** X1. [normalize_location] returns a code in normal form: the result
    is upper-case and trimmed, and normalising it again (as text)
    returns it unchanged. This holds for the default ["GENERAL"] of a
    missing cell as well. *)
Theorem normalize_location_idempotent (c : cell) (u : string) :
  normalize_location c = Ok u →
  Text.upper u = u ∧ Text.strip u = u ∧ normalize_location (CStr u) = Ok u.
Proof.
  unfold normalize_location. destruct (isna c) eqn:Hna.
  - intros [= <-]. by vm_compute.
  - destruct c as [z|f|s]; [done|done|]. intros [= <-]. simpl.
    rewrite upper_strip, upper_idemp, !strip_idemp. done.
Qed.

Lemma normalize_location_idempotent_witness :
  normalize_location (CStr "  d12 ") = Ok "D12" ∧
  normalize_location (CStr "D12") = Ok "D12".
Proof.
  split; [by vm_compute|].
  apply (normalize_location_idempotent (CStr "  d12 ") "D12"). by vm_compute.
Defined.

(** X2. [normalize_unit] returns a unit in normal form: the result is
    lower-case and trimmed, and normalising it again (as text) returns
    it unchanged; no canonical spelling of the table is itself a
    variant. This holds for the default ["each"] of a missing cell as
    well. *)
Theorem normalize_unit_idempotent (c : cell) (u : string) :
  normalize_unit c = Ok u →
  Text.lower u = u ∧ Text.strip u = u ∧ normalize_unit (CStr u) = Ok u.
Proof.
  unfold normalize_unit. destruct (isna c) eqn:Hna.
  - intros [= <-]. by vm_compute.
  - destruct c as [z|f|s]; [done|done|]. simpl.
    rewrite unit_mappings_lookup. case_bool_decide as Ht.
    + intros [= <-]. by vm_compute.
    + intros [= <-].
      assert (Text.lower (Text.strip (Text.lower s)) = Text.strip (Text.lower s)) as Hl
        by (by rewrite lower_strip, lower_idemp).
      rewrite Hl, strip_idemp. split_and!; [done..|].
      rewrite unit_mappings_lookup. by rewrite bool_decide_eq_false_2.
Qed.

Lemma normalize_unit_idempotent_witness :
  normalize_unit (CStr " 12-OZ Can") = Ok "12 oz can" ∧
  normalize_unit (CStr "12 oz can") = Ok "12 oz can".
Proof.
  split; [by vm_compute|].
  apply (normalize_unit_idempotent (CStr " 12-OZ Can") "12 oz can"). by vm_compute.
Defined.

Lemma length_string_of_list_ascii l :
  String.length (string_of_list_ascii l) = length l.
Proof. induction l as [|c l IH]; simpl; [done | by rewrite IH]. Qed.

Lemma zero_pad_length w s :
  (String.length s ≤ w)%nat → String.length (Datetime.zero_pad w s) = w.
Proof.
  intros Hs. unfold Datetime.zero_pad.
  rewrite str_app_length, length_string_of_list_ascii, repeat_length. lia.
Qed.

Lemma pretty_length_4 y : 0 ≤ y ≤ 9999 → (String.length (pretty y) ≤ 4)%nat.
Proof.
  intros Hy.
  assert (forallb (λ z, String.length (pretty z) <=? 4)%nat (seqZ 0 10000) = true) as Hall
    by (by vm_compute).
  rewrite forallb_forall in Hall.
  apply Nat.leb_le, Hall, list_elem_of_In, elem_of_seqZ. lia.
Qed.

Lemma pretty_length_2 y : 0 ≤ y ≤ 99 → (String.length (pretty y) ≤ 2)%nat.
Proof.
  intros Hy.
  assert (forallb (λ z, String.length (pretty z) <=? 2)%nat (seqZ 0 100) = true) as Hall
    by (by vm_compute).
  rewrite forallb_forall in Hall.
  apply Nat.leb_le, Hall, list_elem_of_In, elem_of_seqZ. lia.
Qed.

Lemma days_in_month_le y m : Datetime.days_in_month y m ≤ 31.
Proof. unfold Datetime.days_in_month. repeat case_match; lia. Qed.

Lemma strftime_length d : valid_date d → String.length (Datetime.strftime d) = 10%nat.
Proof.
  intros (Hy & Hm & Hd). pose proof (days_in_month_le (Datetime.year d) (Datetime.month d)).
  unfold Datetime.strftime. rewrite !str_app_length.
  rewrite (zero_pad_length 4) by (apply pretty_length_4; lia).
  rewrite !(zero_pad_length 2) by (apply pretty_length_2; lia).
  done.
Qed.

(** X3. A date [parse_date] returns is a date of the calendar: the
    cell is text whose trimmed content [strptime] reads as
    month/day/year with the month between 1 and 12, the day between 1
    and the length of that month and the year between 1 and 9999; the
    result is the rendering of that date, ten characters long from the
    year 1000 on, and nothing is logged. A date such as 2/30/2022 is
    not stored. *)
Theorem parse_date_returns_calendar_dates (c : cell) (s : GreenspotETL) (t : string) :
  (parse_date c s).1 = Ok (Some t) →
  ∃ text d, c = CStr text ∧
            Datetime.strptime (Text.strip text) = Ok d ∧
            valid_date d ∧
            t = Datetime.strftime d ∧
            (1000 ≤ Datetime.year d → String.length t = 10%nat) ∧
            (parse_date c s).2 = s.
Proof.
  destruct (parse_date_cases c s) as
    [(d & Hd & Hna & ->)|[(Hna & ->)|(Hd & Hna & ->)]]; simpl; [|done..].
  intros [= <-]. destruct c as [z|f|text]; simpl in Hd; [done..|].
  pose proof (strptime_valid _ _ Hd) as Hv.
  exists text, d. split_and!; [done..|intros _; by apply strftime_length|done].
Qed.

Lemma parse_date_returns_calendar_dates_witness :
  (parse_date (CStr " 2/29/2024") init).1 = Ok (Some "2024-02-29") ∧
  (parse_date (CStr "2/30/2022") init).1 = Ok None ∧
  ∃ text d, CStr " 2/29/2024" = CStr text ∧
            Datetime.strptime (Text.strip text) = Ok d ∧
            valid_date d ∧
            "2024-02-29" = Datetime.strftime d ∧
            (1000 ≤ Datetime.year d → String.length "2024-02-29" = 10%nat) ∧
            (parse_date (CStr " 2/29/2024") init).2 = init.
Proof.
  split; [by vm_compute|]. split; [by vm_compute|].
  apply (parse_date_returns_calendar_dates (CStr " 2/29/2024") init "2024-02-29").
  by vm_compute.
Defined.

(** ** [clean_vendor_data]: the fields it returns *)

Lemma isspace_above c : (33 ≤ Text.code c)%N → Text.isspace c = false.
Proof.
  intros Hc. unfold Text.isspace, Text.in_range.
  apply orb_false_intro; apply andb_false_intro2; apply N.leb_gt; lia.
Qed.

Lemma strip_with_head sp x c t : Text.strip_with sp x = String c t → sp c = false.
Proof.
  unfold Text.strip_with.
  destruct (lstrip_head sp x) as [->|(c' & t' & -> & Hc)]; [done|].
  rewrite rstrip_nonspace by done. by intros [= <- _].
Qed.

Lemma rstrip_no_space sp s :
  Text.all_chars (λ c, negb (sp c)) s = true → Text.rstrip_with sp s = s.
Proof.
  induction s as [|c s IH]; [done|]. simpl Text.all_chars.
  intros [Hc Hs]%andb_prop. apply negb_true_iff in Hc.
  by rewrite rstrip_nonspace, IH.
Qed.

Lemma strip_no_space sp s :
  Text.all_chars (λ c, negb (sp c)) s = true → Text.strip_with sp s = s.
Proof.
  intros Hs. unfold Text.strip_with.
  destruct s as [|c s]; [done|]. simpl Text.lstrip_with.
  pose proof Hs as Hs'. simpl in Hs'. apply andb_prop in Hs' as [Hc _].
  apply negb_true_iff in Hc. rewrite Hc. by apply rstrip_no_space.
Qed.

(** What a text that [location_pattern] matches looks like. *)
Lemma location_pattern_matches p cs :
  matches location_pattern p cs →
  ∃ c q a b d1 d2 d3 d4 d5 t,
    p = String c t ∧
    cs = [ (3%nat, String d1 (String d2 (String d3 (String d4 (String d5 "")))));
           (2%nat, String a (String b ""));
           (1%nat, String c q) ] ∧
    Forall (λ x, Text.isupper x = true) [a; b] ∧
    Forall (λ x, Text.isdigit x = true) [d1; d2; d3; d4; d5].
Proof.
  unfold location_pattern, Regex.Plus, Regex.Opt, Regex.Chr. simpl. intros Hm.
  inv_matches.
  all: do 10 eexists; split_and!; [reflexivity|reflexivity|..].
  all: by repeat constructor.
Qed.

Lemma location_pattern_groups x cs rest :
  Regex.rmatch location_pattern (Text.strip x) = Some (cs, rest) →
  group_strip 1 cs ≠ "" ∧
  String.length (group_strip 2 cs) = 2%nat ∧
  Text.all_chars Text.isupper (group_strip 2 cs) = true ∧
  String.length (group_strip 3 cs) = 5%nat ∧
  Text.all_chars Text.isdigit (group_strip 3 cs) = true.
Proof.
  intros Hm. apply rmatch_sound in Hm as (p & Hx & Hm).
  apply location_pattern_matches in Hm
    as (c & q & a & b & d1 & d2 & d3 & d4 & d5 & t & -> & -> & Hup & Hdg).
  rewrite str_app_cons in Hx. apply strip_with_head in Hx.
  repeat match goal with
  | H : Forall _ (_ :: _) |- _ => apply Forall_cons in H as [? H]
  end.
  change (group_strip 1 _) with (Text.strip (String c q)).
  change (group_strip 2 _) with (Text.strip (String a (String b ""))).
  change (group_strip 3 _)
    with (Text.strip (String d1 (String d2 (String d3 (String d4 (String d5 "")))))).
  unfold Text.strip.
  assert (∀ y, Text.isupper y = true → negb (Text.isspace y) = true) as Hu.
  { intros y Hy%in_range_code. rewrite isspace_above by lia. done. }
  assert (∀ y, Text.isdigit y = true → negb (Text.isspace y) = true) as Hd.
  { intros y Hy%in_range_code. rewrite isspace_above by lia. done. }
  rewrite (strip_no_space _ (String a _)), (strip_no_space _ (String d1 _))
    by (simpl; repeat (apply andb_true_intro; split); auto).
  split_and!.
  - unfold Text.strip_with. simpl. rewrite Hx. by rewrite rstrip_nonspace.
  - done.
  - simpl in *. by repeat match goal with
                    | H : ?f ?y = true |- context [?f ?y] => rewrite H
                    end.
  - done.
  - simpl in *. by repeat match goal with
                    | H : ?f ?y = true |- context [?f ?y] => rewrite H
                    end.
Qed.

(** X4. [clean_vendor_data] on text never raises; it returns [None]
    exactly for blank text; the name and the address it returns are
    trimmed; and the location is all or nothing: either city, state
    and zip code are all empty, or the city is not empty, the state is
    two capital letters and the zip code is five digits. *)
Theorem clean_vendor_data_fields (s : string) :
  ∃ r, clean_vendor_data (CStr s) = Ok r ∧
       (r = None ↔ Text.strip s = "") ∧
       ∀ vd, r = Some vd →
         Text.strip (VendorData.vendor_name vd) = VendorData.vendor_name vd ∧
         Text.strip (VendorData.address vd) = VendorData.address vd ∧
         ((VendorData.city vd = "" ∧ VendorData.state vd = "" ∧
           VendorData.zip_code vd = "") ∨
          (VendorData.city vd ≠ "" ∧
           String.length (VendorData.state vd) = 2%nat ∧
           Text.all_chars Text.isupper (VendorData.state vd) = true ∧
           String.length (VendorData.zip_code vd) = 5%nat ∧
           Text.all_chars Text.isdigit (VendorData.zip_code vd) = true)).
Proof.
  unfold clean_vendor_data. simpl isna. cbv iota.
  case_bool_decide as Hb.
  { exists None. split_and!; done. }
  set (parts := Text.split_comma_space s).
  set (name := if bool_decide (0 < length parts)%nat
               then Text.strip (default "" (parts !! 0%nat)) else "Unknown Vendor").
  set (addr := if bool_decide (1 < length parts)%nat
               then Text.strip (default "" (parts !! 1%nat)) else "").
  assert (Text.strip name = name) as Hname.
  { unfold name. case_bool_decide; [apply strip_idemp|by vm_compute]. }
  assert (Text.strip addr = addr) as Haddr.
  { unfold addr. case_bool_decide; [apply strip_idemp|by vm_compute]. }
  destruct (bool_decide (2 < length parts)%nat).
  - destruct (Regex.rmatch location_pattern _) as [[cs rest]|] eqn:Hm.
    + eexists. split; [done|]. split; [done|]. intros vd [= <-]. simpl.
      split_and!; [done..|]. right. by eapply location_pattern_groups.
    + eexists. split; [done|]. split; [done|]. intros vd [= <-]. simpl.
      split_and!; [done..|]. by left.
  - eexists. split; [done|]. split; [done|]. intros vd [= <-]. simpl.
    split_and!; [done..|]. by left.
Qed.

(** ** The row pass only adds *)

Lemma grows_refl s : grows s s.
Proof. by unfold grows; split_and!. Qed.

Lemma grows_trans s1 s2 s3 : grows s1 s2 → grows s2 s3 → grows s1 s3.
Proof.
  intros (?&?&?&?&?&?&?&?) (?&?&?&?&?&?&?&?).
  unfold grows; split_and!; by etrans.
Qed.

Lemma grows_logged s l : logged s `prefix_of` l → grows s (set_logged l s).
Proof. intros Hl. by unfold grows; split_and!. Qed.

Lemma grows_add_product n p s :
  products s !! n = None → grows s (add_product n p s).
Proof.
  intros Hn. unfold add_product. case_bool_decide as Hc.
  - unfold grows; split_and!; simpl; try done. by apply insert_subseteq.
  - unfold grows; split_and!; simpl; try done; apply insert_subseteq;
      first [done | by apply eq_None_not_Some].
Qed.

Lemma grows_add_vendor vd s : grows s (add_vendor vd s).
Proof.
  unfold add_vendor. case_bool_decide as Hc; [apply grows_refl|].
  unfold grows; split_and!; simpl; try done. apply insert_subseteq.
  by apply eq_None_not_Some.
Qed.

Lemma grows_add_customer c s : grows s (add_customer c s).
Proof.
  destruct c as [c|]; [|apply grows_refl].
  unfold grows; split_and!; simpl; try done. apply union_subseteq_r.
Qed.

Lemma parse_date_logged c s d l :
  parse_date c s = (Ok d, set_logged l s) → logged s `prefix_of` l.
Proof.
  intros Hd.
  destruct (parse_date_cases c s) as [(? & _ & _ & H)|[(_ & H)|(_ & _ & H)]];
    rewrite H in Hd; apply (f_equal (λ x, logged x.2)) in Hd;
    simpl in Hd; subst l; [done|done|by apply prefix_app_r].
Qed.

Lemma product_step_grows row n s r s' : product_step row n s r s' → grows s s'.
Proof. intros []; [apply grows_refl..|by apply grows_add_product]. Qed.

Lemma snapshot_step_grows row n s r s' : snapshot_step row n s r s' → grows s s'.
Proof.
  intros []; [apply grows_refl..|].
  unfold grows; split_and!; simpl; try done. by apply insert_subseteq.
Qed.

Lemma vendor_step_grows row n s r s' : vendor_step row n s r s' → grows s s'.
Proof.
  intros Hstep.
  inversion Hstep as [| | | | |vd v q c d l r' s2 Hg Hc Hv Hq Hf Hd Hsnap]; subst;
    try apply grows_refl; try apply grows_add_vendor.
  apply parse_date_logged in Hd. apply snapshot_step_grows in Hsnap.
  eapply grows_trans; [apply (grows_add_vendor vd)|].
  eapply grows_trans; [apply grows_logged, Hd|].
  eapply grows_trans; [|apply Hsnap].
  destruct (add_vendor_frame vd s) as (_&_&_&Hpu&_).
  unfold grows; split_and!; simpl; try done. rewrite Hpu. by apply prefix_app_r.
Qed.

Lemma sale_step_grows row n s r s' : sale_step row n s r s' → grows s s'.
Proof.
  intros Hstep.
  inversion Hstep as [| | | |c q p d l Hg Hc Hq Hf Hd]; subst;
    try apply grows_refl; try apply grows_add_customer.
  apply parse_date_logged in Hd.
  eapply grows_trans; [apply (grows_add_customer c)|].
  eapply grows_trans; [apply grows_logged, Hd|].
  destruct (add_customer_frame c s) as (_&_&_&_&Hsa&_).
  unfold grows; split_and!; simpl; try done. rewrite Hsa. by apply prefix_app_r.
Qed.

Lemma row_step_grows row s r s' : row_step row s r s' → grows s s'.
Proof.
  intros Hstep.
  inversion Hstep as [|n e s1 Hi Hp|n e s1 s2 Hi Hp Hv|n s1 s2 r' s3 Hi Hp Hv Hs];
    subst.
  - apply grows_refl.
  - by eapply product_step_grows.
  - eapply grows_trans; [by eapply product_step_grows|by eapply vendor_step_grows].
  - eapply grows_trans; [by eapply product_step_grows|].
    eapply grows_trans; [by eapply vendor_step_grows|by eapply sale_step_grows].
Qed.

Lemma iterrows_grows df s : grows s (iterrows df s).2.
Proof.
  revert s. induction df as [|row rest IH]; intros s; [apply grows_refl|].
  rewrite iterrows_cons. destruct (isna (Row.Item_num row)); [apply IH|].
  pose proof (process_row_step row s) as Hstep. apply row_step_grows in Hstep.
  destruct (process_row row s) as [[[]|e] s1]; simpl in *; [|done].
  eapply grows_trans; [done|apply IH].
Qed.

(** X5. The row pass only adds to the object, whether it returns or
    raises: an entry of [vendors], [products], [categories] or
    [inventory] that is there before [parse_csv_data] is there
    afterwards with the same value, no customer is removed, and
    [purchases], [sales] and the log keep what they held as a
    prefix. *)
Theorem parse_csv_data_only_adds (df : list Row.t) (s : GreenspotETL) :
  grows s (parse_csv_data df s).2.
Proof.
  unfold parse_csv_data, try_except.
  pose proof (iterrows_grows (dropna_all df) s) as Hg.
  destruct (iterrows (dropna_all df) s) as [[[]|e] s1]; simpl in *; [done|].
  run_M. eapply grows_trans; [done|]. apply grows_logged. by apply prefix_app_r.
Qed.

(** ** What each block leaves alone *)

Lemma snapshot_step_frame row n s r s' :
  snapshot_step row n s r s' →
  vendors s' = vendors s ∧ products s' = products s ∧
  customers s' = customers s ∧ categories s' = categories s ∧
  purchases s' = purchases s ∧ sales s' = sales s.
Proof. by intros []. Qed.

Lemma product_step_frame row n s r s' :
  product_step row n s r s' →
  vendors s' = vendors s ∧ customers s' = customers s ∧
  purchases s' = purchases s ∧ sales s' = sales s ∧
  inventory s' = inventory s.
Proof.
  intros []; try done.
  by destruct (add_product_frame n p s) as (?&_&?&?&?&?&_).
Qed.

Lemma vendor_step_frame row n s r s' :
  vendor_step row n s r s' →
  products s' = products s ∧ customers s' = customers s ∧
  categories s' = categories s ∧ sales s' = sales s.
Proof.
  intros Hstep.
  inversion Hstep as [| | |vd e|vd q e|vd v q c d l r' s2 Hg Hc Hv Hq Hf Hd Hsnap];
    subst; try done.
  - by destruct (add_vendor_frame vd s) as (?&?&?&_&?&_).
  - by destruct (add_vendor_frame vd s) as (?&?&?&_&?&_).
  - destruct (add_vendor_frame vd s) as (?&?&?&_&?&_).
    apply snapshot_step_frame in Hsnap as (_&Hp&Hcu&Hca&_&Hsa).
    simpl in *. by rewrite Hp, Hcu, Hca, Hsa.
Qed.

Lemma sale_step_frame row n s r s' :
  sale_step row n s r s' →
  vendors s' = vendors s ∧ products s' = products s ∧
  categories s' = categories s ∧ purchases s' = purchases s ∧
  inventory s' = inventory s.
Proof.
  intros []; try done; simpl;
    by destruct (add_customer_frame c s) as (?&?&?&?&_&?&_).
Qed.

(** The rows [dropna] removes have no item number. *)
Lemma find_dropna (P : Row.t → bool) df :
  (∀ row, P row = true → isna (Row.Item_num row) = false) →
  List.find P (dropna_all df) = List.find P df.
Proof.
  intros HP. unfold dropna_all. induction df as [|row rest IH]; [done|].
  rewrite filter_cons. case_decide as Hd; simpl.
  - destruct (P row); [done|apply IH].
  - apply Is_true_true in Hd.
    simpl in Hd. apply andb_prop in Hd as [Hna _].
    destruct (P row) eqn:Hrow; [|apply IH].
    apply HP in Hrow. congruence.
Qed.

Lemma filter_dropna (P : Row.t → bool) df :
  (∀ row, P row = true → isna (Row.Item_num row) = false) →
  List.filter P (dropna_all df) = List.filter P df.
Proof.
  intros HP. unfold dropna_all. induction df as [|row rest IH]; [done|].
  rewrite filter_cons. case_decide as Hd; simpl.
  - destruct (P row); [f_equal|]; apply IH.
  - apply Is_true_true in Hd.
    simpl in Hd. apply andb_prop in Hd as [Hna _].
    destruct (P row) eqn:Hrow; [|apply IH].
    apply HP in Hrow. congruence.
Qed.

Lemma notna_andb_isna (c : cell) (b : bool) :
  notna c && b = true → isna c = false.
Proof. unfold notna. by destruct (isna c). Qed.

(** ** A product keeps its first definition *)

Lemma product_step_products row n s s' m :
  product_step row n s (Ok ()) s' →
  match products s !! m with
  | Some p => products s' !! m = Some p
  | None =>
      if bool_decide (n = m)
      then ∃ p, product_fields row n = Ok p ∧ products s' !! m = Some p
      else products s' !! m = None
  end.
Proof.
  intros Hstep. inversion Hstep as [Hk| |p Hn Hf]; subst.
  - destruct (products s' !! m) eqn:Hm; [done|].
    case_bool_decide; [subst; destruct Hk; congruence|done].
  - destruct (add_product_frame n p s) as (_&Hp&_). rewrite Hp, lookup_insert.
    case_decide as Hnm.
    + subst m. rewrite Hn, bool_decide_eq_true_2 by done. by exists p.
    + rewrite bool_decide_eq_false_2 by done. by destruct (products s !! m).
Qed.

Lemma row_step_products row s s' m :
  isna (Row.Item_num row) = false →
  row_step row s (Ok ()) s' →
  match products s !! m with
  | Some p => products s' !! m = Some p
  | None =>
      if defines_product m row
      then ∃ p, product_fields row m = Ok p ∧ products s' !! m = Some p
      else products s' !! m = None
  end.
Proof.
  intros Hna Hstep.
  inversion Hstep as [| | |n s1 s2 r s3 Hi Hp Hv Hs]; subst.
  apply sale_step_frame in Hs as (_&Hs&_).
  apply vendor_step_frame in Hv as (Hv&_).
  pose proof (product_step_products _ _ _ _ m Hp) as H.
  rewrite Hs, Hv. unfold defines_product, notna. rewrite Hna, Hi. simpl.
  destruct (products s !! m); [done|]. case_bool_decide; [by subst|done].
Qed.

Lemma iterrows_products df s s' m :
  iterrows df s = (Ok (), s') →
  match products s !! m with
  | Some p => products s' !! m = Some p
  | None =>
      match List.find (defines_product m) df with
      | Some row => ∃ p, product_fields row m = Ok p ∧ products s' !! m = Some p
      | None => products s' !! m = None
      end
  end.
Proof.
  revert s. induction df as [|row rest IH]; intros s Hrun.
  - simpl in Hrun. unfold mret, M_ret in Hrun. simplify_eq.
    by destruct (products s' !! m).
  - rewrite iterrows_cons in Hrun. simpl.
    destruct (isna (Row.Item_num row)) eqn:Hna.
    + unfold defines_product at 1, notna. rewrite Hna. simpl. by apply IH.
    + pose proof (process_row_step row s) as Hstep.
      destruct (process_row row s) as [[[]|e] s1]; [|done]. simpl in Hstep.
      pose proof (row_step_products _ _ _ m Hna Hstep) as H.
      specialize (IH _ Hrun).
      destruct (products s !! m); [by rewrite H in IH|].
      destruct (defines_product m row).
      * destruct H as (p & Hf & Hp). rewrite Hp in IH. by exists p.
      * by rewrite H in IH.
Qed.

(** X6. Products are first-definition-wins: after a row pass that
    returned, the entry of [products] for an item number was built from
    the first row of the file that carries this item number, whose
    text cells all converted; later rows with the same item number do
    not change its name, category, unit or location. An item number no
    row carries has no entry. *)
Theorem product_keeps_first_definition (df : list Row.t) (s : GreenspotETL) (n : Z) :
  parse_csv_data df init = (Ok (), s) →
  match List.find (defines_product n) df with
  | Some row => ∃ p, product_fields row n = Ok p ∧ products s !! n = Some p
  | None => products s !! n = None
  end.
Proof.
  intros Hrun%parse_csv_data_ok.
  apply (iterrows_products _ _ _ n) in Hrun. simpl in Hrun.
  rewrite find_dropna in Hrun; [done|].
  intros row. apply notna_andb_isna.
Qed.

Lemma product_keeps_first_definition_witness :
  ∃ p, product_fields good_row 1000 = Ok p ∧
       products (parse_csv_data two_lines init).2 !! 1000 = Some p ∧
       Product.product_name p = "Bennet Farm free-range eggs".
Proof.
  assert (parse_csv_data two_lines init =
            (Ok (), (parse_csv_data two_lines init).2)) as Hrun
    by (vm_compute; reflexivity).
  pose proof (product_keeps_first_definition _ _ 1000 Hrun) as (p & Hf & Hp).
  exists p. split; [exact Hf|]. split; [exact Hp|].
  vm_compute in Hf. injection Hf as <-. reflexivity.
Defined.

(** ** A vendor keeps the details of its first purchase line *)

Lemma add_vendor_vendors vd s k :
  vendors (add_vendor vd s) !! k =
    match vendors s !! k with
    | Some v => Some v
    | None =>
        if bool_decide (VendorData.vendor_name vd = k)
        then Some {| Vendor.vendor_id := Z.of_nat (size (vendors s)) + 1;
                     Vendor.data := vd |}
        else None
    end.
Proof.
  unfold add_vendor. case_bool_decide as Hk; simpl.
  - destruct (vendors s !! k) eqn:Hv; [done|].
    case_bool_decide; [subst; destruct Hk; congruence|done].
  - rewrite lookup_insert. case_decide as Hn.
    + subst k. apply eq_None_not_Some in Hk.
      by rewrite Hk, bool_decide_eq_true_2.
    + rewrite bool_decide_eq_false_2 by done. by destruct (vendors s !! k).
Qed.

Lemma vendor_step_vendors row n s s' k :
  vendor_step row n s (Ok ()) s' →
  match vendors s !! k with
  | Some v => vendors s' !! k = Some v
  | None =>
      if vendor_gate row &&
         match clean_vendor_data (Row.vendor row) with
         | Ok (Some vd) => bool_decide (VendorData.vendor_name vd = k)
         | _ => false
         end
      then ∃ v, vendors s' !! k = Some v ∧
                clean_vendor_data (Row.vendor row) = Ok (Some (Vendor.data v))
      else vendors s' !! k = None
  end.
Proof.
  intros Hstep.
  inversion Hstep as [Hg|Hg Hc| | | |vd v q c d l r s2 Hg Hc Hv Hq Hf Hd Hsnap];
    subst.
  - rewrite Hg. by destruct (vendors s' !! k).
  - rewrite Hc, andb_false_r. by destruct (vendors s' !! k).
  - apply snapshot_step_frame in Hsnap as (Hve&_). simpl in Hve.
    rewrite Hve, Hg, Hc, add_vendor_vendors. simpl.
    destruct (vendors s !! k); [done|].
    case_bool_decide; [|done]. eexists. split; [done|]. done.
Qed.

Lemma row_step_vendors row s s' k :
  isna (Row.Item_num row) = false →
  row_step row s (Ok ()) s' →
  match vendors s !! k with
  | Some v => vendors s' !! k = Some v
  | None =>
      if names_vendor k row
      then ∃ v, vendors s' !! k = Some v ∧
                clean_vendor_data (Row.vendor row) = Ok (Some (Vendor.data v))
      else vendors s' !! k = None
  end.
Proof.
  intros Hna Hstep.
  inversion Hstep as [| | |n s1 s2 r s3 Hi Hp Hv Hs]; subst.
  apply sale_step_frame in Hs as (Hs&_).
  apply product_step_frame in Hp as (Hp&_).
  pose proof (vendor_step_vendors _ _ _ _ k Hv) as H.
  rewrite Hs. rewrite Hp in H. unfold names_vendor, notna. by rewrite Hna.
Qed.

Lemma iterrows_vendors df s s' k :
  iterrows df s = (Ok (), s') →
  match vendors s !! k with
  | Some v => vendors s' !! k = Some v
  | None =>
      match List.find (names_vendor k) df with
      | Some row => ∃ v, vendors s' !! k = Some v ∧
                         clean_vendor_data (Row.vendor row) = Ok (Some (Vendor.data v))
      | None => vendors s' !! k = None
      end
  end.
Proof.
  revert s. induction df as [|row rest IH]; intros s Hrun.
  - simpl in Hrun. unfold mret, M_ret in Hrun. simplify_eq.
    by destruct (vendors s' !! k).
  - rewrite iterrows_cons in Hrun. simpl.
    destruct (isna (Row.Item_num row)) eqn:Hna.
    + unfold names_vendor at 1, notna. rewrite Hna. simpl. by apply IH.
    + pose proof (process_row_step row s) as Hstep.
      destruct (process_row row s) as [[[]|e] s1]; [|done]. simpl in Hstep.
      pose proof (row_step_vendors _ _ _ k Hna Hstep) as H.
      specialize (IH _ Hrun).
      destruct (vendors s !! k); [by rewrite H in IH|].
      destruct (names_vendor k row).
      * destruct H as (v & Hv & Hc). rewrite Hv in IH. by exists v.
      * by rewrite H in IH.
Qed.

(** X7. Vendors are keyed by their cleaned name, first line wins: after
    a row pass that returned, the entry of [vendors] under a name holds
    the address, city, state and zip code cleaned from the first
    processed row whose vendor string has this name (with a cost
    present); a later row giving the same name with another address
    does not change it. A name no such row gives has no entry. *)
Theorem vendor_keeps_first_details (df : list Row.t) (s : GreenspotETL) (k : string) :
  parse_csv_data df init = (Ok (), s) →
  match List.find (names_vendor k) df with
  | Some row => ∃ v, vendors s !! k = Some v ∧
                     clean_vendor_data (Row.vendor row) = Ok (Some (Vendor.data v))
  | None => vendors s !! k = None
  end.
Proof.
  intros Hrun%parse_csv_data_ok.
  apply (iterrows_vendors _ _ _ k) in Hrun. simpl in Hrun.
  rewrite find_dropna in Hrun; [done|].
  intros row. unfold names_vendor. rewrite <- andb_assoc. apply notna_andb_isna.
Qed.

Lemma vendor_keeps_first_details_witness :
  ∃ v, vendors (parse_csv_data two_lines init).2 !! "Bennet Farms" = Some v ∧
       clean_vendor_data bennet = Ok (Some (Vendor.data v)) ∧
       VendorData.address (Vendor.data v) = "Rt. 17".
Proof.
  assert (parse_csv_data two_lines init =
            (Ok (), (parse_csv_data two_lines init).2)) as Hrun
    by (vm_compute; reflexivity).
  pose proof (vendor_keeps_first_details _ _ "Bennet Farms" Hrun) as (v & Hv & Hc).
  exists v. split; [exact Hv|]. split; [exact Hc|].
  destruct (Vendor.data v) as [name address city state zip].
  vm_compute in Hc. injection Hc as _ <- _ _ _. reflexivity.
Defined.

(** ** The facts follow the rows *)

Lemma purchase_of_grows s s' row f :
  grows s s' → purchase_of s row f → purchase_of s' row f.
Proof.
  intros (Hv&_) (Hi & (vd & v & Hc & Hl & Hid) & Hrest).
  split; [done|]. split; [|done]. exists vd, v. split_and!; [done| |done].
  by eapply lookup_weaken.
Qed.

Lemma vendor_step_purchases row n s s' :
  vendor_step row n s (Ok ()) s' →
  if records_purchase row
  then ∃ f, purchases s' = (purchases s ++ [f])%list ∧
            Purchase.product_id f = n ∧
            (∃ vd v, clean_vendor_data (Row.vendor row) = Ok (Some vd) ∧
                     vendors s' !! VendorData.vendor_name vd = Some v ∧
                     Purchase.vendor_id f = Vendor.vendor_id v) ∧
            quantity_of row = Ok (Purchase.quantity_ordered f) ∧
            float (Row.cost row) = Ok (Purchase.unit_cost f) ∧
            Purchase.purchase_date f = date_of (Row.purchase_date row) ∧
            is_Some (inventory s' !! n)
  else purchases s' = purchases s ∧ inventory s' = inventory s.
Proof.
  intros Hstep. unfold records_purchase.
  inversion Hstep as [Hg|Hg Hc| | | |vd v q c d l r s2 Hg Hc Hv Hq Hf Hd Hsnap];
    subst.
  - by rewrite Hg.
  - by rewrite Hc, andb_false_r.
  - assert (d = date_of (Row.purchase_date row)) as ->.
    { pose proof (parse_date_value (Row.purchase_date row) (add_vendor vd s)) as Hval.
      rewrite Hd in Hval. simpl in Hval. congruence. }
    destruct (add_vendor_frame vd s) as (_&_&_&Hpu&_).
    rewrite Hg, Hc. simpl.
    pose proof (snapshot_step_frame _ _ _ _ _ Hsnap) as (Hve&_&_&_&Hp&_).
    simpl in Hve, Hp.
    eexists. split; [exact Hp|]. simpl. split; [done|].
    split; [by exists vd, v; rewrite Hve|]. split_and!; [done..|].
    inversion Hsnap; subst; simpl; [done|]. by rewrite lookup_insert_eq.
Qed.

Lemma row_step_purchases row s s' :
  row_step row s (Ok ()) s' →
  if records_purchase row
  then ∃ f, purchases s' = (purchases s ++ [f])%list ∧ purchase_of s' row f ∧
            is_Some (inventory s' !! Purchase.product_id f)
  else purchases s' = purchases s ∧ inventory s' = inventory s.
Proof.
  intros Hstep. inversion Hstep as [| | |n s1 s2 r s3 Hi Hp Hv Hs]; subst.
  apply product_step_frame in Hp as (_&_&Hp&_&Hpi).
  apply vendor_step_purchases in Hv.
  apply sale_step_frame in Hs as (Hsv&_&_&Hs&Hsi).
  destruct (records_purchase row).
  - destruct Hv as (f & Hf & Hn & Hvd & Hq & Hc & Hd & Hinv).
    exists f. rewrite Hs, Hf, Hp, Hsi. split; [done|].
    split; [|by rewrite Hn].
    unfold purchase_of. rewrite Hsv, Hn. done.
  - destruct Hv as [Hv Hvi]. by rewrite Hs, Hv, Hp, Hsi, Hvi, Hpi.
Qed.

Lemma iterrows_purchases df s s' :
  iterrows df s = (Ok (), s') →
  ∃ fs, purchases s' = (purchases s ++ fs)%list ∧
        Forall2 (purchase_of s') (List.filter purchase_line df) fs.
Proof.
  revert s. induction df as [|row rest IH]; intros s Hrun.
  - simpl in Hrun. unfold mret, M_ret in Hrun. simplify_eq.
    exists []. by rewrite app_nil_r.
  - rewrite iterrows_cons in Hrun. simpl.
    destruct (isna (Row.Item_num row)) eqn:Hna.
    + unfold purchase_line at 1, notna. rewrite Hna. simpl. by apply IH.
    + pose proof (process_row_step row s) as Hstep.
      destruct (process_row row s) as [[[]|e] s1]; [|done]. simpl in Hstep.
      pose proof (iterrows_grows rest s1) as Hg. rewrite Hrun in Hg. simpl in Hg.
      apply row_step_purchases in Hstep.
      destruct (IH _ Hrun) as (fs & Hfs & Hall).
      unfold purchase_line at 1, notna. rewrite Hna. simpl.
      destruct (records_purchase row).
      * destruct Hstep as (f & Hf & Hof & _).
        exists (f :: fs). rewrite Hfs, Hf, <- app_assoc. split; [done|].
        constructor; [by eapply purchase_of_grows|done].
      * destruct Hstep as [Hstep _]. exists fs. by rewrite Hfs, Hstep.
Qed.

(** X8. After a row pass that returned, [purchases] holds exactly one
    purchase per processed row whose vendor cell and cost cell are
    present and whose vendor string is not blank, in the order of the
    file. The test is on the whole vendor string: the cleaned name may
    be empty, as for [", Rt. 17"], and the row records a purchase all
    the same. The product of the purchase is the item number of the
    row, the vendor id is the one [vendors] holds for the cleaned name
    of the row (so rows naming the same vendor share one id), and
    quantity, cost and date are the row's. *)
Theorem purchases_follow_the_rows (df : list Row.t) (s : GreenspotETL) :
  parse_csv_data df init = (Ok (), s) →
  Forall2 (purchase_of s) (List.filter purchase_line df) (purchases s).
Proof.
  intros Hrun%parse_csv_data_ok.
  apply iterrows_purchases in Hrun as (fs & Hfs & Hall). simpl in Hfs. subst fs.
  rewrite filter_dropna in Hall; [done|].
  intros row. apply notna_andb_isna.
Qed.

Lemma purchases_follow_the_rows_witness :
  Forall2 (purchase_of (parse_csv_data two_lines init).2)
    [good_row; second_line] (purchases (parse_csv_data two_lines init).2).
Proof.
  apply (purchases_follow_the_rows two_lines). vm_compute. reflexivity.
Defined.

Lemma sale_step_sales row n s s' :
  sale_step row n s (Ok ()) s' →
  if sale_gate row
  then ∃ g, sales s' = (sales s ++ [g])%list ∧
            Sale.product_id g = n ∧
            customer_of row = Ok (Sale.customer_id g) ∧
            quantity_of row = Ok (Sale.quantity_sold g) ∧
            float (Row.price row) = Ok (Sale.unit_price g) ∧
            Sale.sale_date g = date_of (Row.date_sold row) ∧
            customers s' = customers (add_customer (Sale.customer_id g) s)
  else sales s' = sales s ∧ customers s' = customers s.
Proof.
  intros Hstep.
  inversion Hstep as [Hg| | | |c q p d l Hg Hc Hq Hf Hd]; subst.
  - by rewrite Hg.
  - assert (d = date_of (Row.date_sold row)) as ->.
    { pose proof (parse_date_value (Row.date_sold row) (add_customer c s)) as Hval.
      rewrite Hd in Hval. simpl in Hval. congruence. }
    rewrite Hg. eexists. simpl. by split_and!.
Qed.

Lemma row_step_sales row s s' :
  row_step row s (Ok ()) s' →
  if sale_gate row
  then ∃ g, sales s' = (sales s ++ [g])%list ∧ sale_of row g ∧
            customers s' = customers (add_customer (Sale.customer_id g) s)
  else sales s' = sales s ∧ customers s' = customers s.
Proof.
  intros Hstep. inversion Hstep as [| | |n s1 s2 r s3 Hi Hp Hv Hs]; subst.
  apply product_step_frame in Hp as (_&Hpc&_&Hp&_).
  apply vendor_step_frame in Hv as (_&Hvc&_&Hv).
  apply sale_step_sales in Hs.
  destruct (sale_gate row).
  - destruct Hs as (g & Hg & Hn & Hcu & Hq & Hf & Hd & Hcs).
    exists g. rewrite Hg, Hv, Hp. split; [done|]. split.
    + unfold sale_of. by rewrite Hn.
    + rewrite Hcs. destruct (Sale.customer_id g); simpl; by rewrite Hvc, Hpc.
  - destruct Hs as [Hs Hsc]. by rewrite Hs, Hv, Hp, Hsc, Hvc, Hpc.
Qed.

Lemma iterrows_sales df s s' :
  iterrows df s = (Ok (), s') →
  (∀ c, c ∈ customers s → ∃ g, g ∈ sales s ∧ Sale.customer_id g = Some c) →
  (∀ c, c ∈ customers s' → ∃ g, g ∈ sales s' ∧ Sale.customer_id g = Some c) ∧
  ∃ gs, sales s' = (sales s ++ gs)%list ∧
        Forall2 sale_of (List.filter sale_line df) gs.
Proof.
  revert s. induction df as [|row rest IH]; intros s Hrun Hcs.
  - simpl in Hrun. unfold mret, M_ret in Hrun. simplify_eq.
    split; [done|]. exists []. by rewrite app_nil_r.
  - rewrite iterrows_cons in Hrun. simpl.
    destruct (isna (Row.Item_num row)) eqn:Hna.
    + unfold sale_line at 1, notna. rewrite Hna. simpl. by apply IH.
    + pose proof (process_row_step row s) as Hstep.
      destruct (process_row row s) as [[[]|e] s1]; [|done]. simpl in Hstep.
      apply row_step_sales in Hstep.
      unfold sale_line at 1, notna. rewrite Hna. simpl.
      destruct (sale_gate row).
      * destruct Hstep as (g & Hg & Hof & Hcu).
        destruct (IH _ Hrun) as (Hcs' & gs & Hgs & Hall).
        { intros c. rewrite Hcu, Hg. intros Hc.
          destruct (Sale.customer_id g) as [c'|] eqn:Hc'; simpl in Hc.
          - apply elem_of_union in Hc as [->%elem_of_singleton|Hc].
            + exists g. split; [|done]. apply elem_of_app. right. by left.
            + destruct (Hcs c Hc) as (g' & Hg' & Hid). exists g'.
              split; [|done]. apply elem_of_app. by left.
          - destruct (Hcs c Hc) as (g' & Hg' & Hid). exists g'.
            split; [|done]. apply elem_of_app. by left. }
        split; [done|]. exists (g :: gs). rewrite Hgs, Hg, <- app_assoc.
        split; [done|]. by constructor.
      * destruct Hstep as [Hs Hcu].
        destruct (IH _ Hrun) as (Hcs' & gs & Hgs & Hall).
        { intros c. rewrite Hcu, Hs. apply Hcs. }
        split; [done|]. exists gs. by rewrite Hgs, Hs.
Qed.

(** X9. After a row pass that returned, [sales] holds exactly one sale
    per processed row that has a price and a sale date, in the order
    of the file, with the item number, customer, quantity, price and
    date of the row; and [customers] is exactly the set of the
    customers of these sales: no customer without a sale, no sale with
    an unknown customer. *)
Theorem sales_follow_the_rows (df : list Row.t) (s : GreenspotETL) :
  parse_csv_data df init = (Ok (), s) →
  Forall2 sale_of (List.filter sale_line df) (sales s) ∧
  ∀ c, c ∈ customers s ↔ ∃ g, g ∈ sales s ∧ Sale.customer_id g = Some c.
Proof.
  intros Hrun.
  pose proof (parse_csv_data_inv df init etl_inv_init) as Hinv.
  rewrite Hrun in Hinv. simpl in Hinv.
  apply parse_csv_data_ok in Hrun.
  apply iterrows_sales in Hrun as (Hcs & gs & Hgs & Hall);
    [|intros c Hc; by apply elem_of_empty in Hc].
  simpl in Hgs. subst gs. split.
  - rewrite filter_dropna in Hall; [done|].
    intros row. apply notna_andb_isna.
  - intros c. split; [apply Hcs|]. intros (g & Hg & Hc).
    destruct Hinv as [_ _ _ Hsales _ _].
    rewrite Forall_forall in Hsales. by apply (Hsales g Hg).
Qed.

Lemma sales_follow_the_rows_witness :
  Forall2 sale_of [second_line] (sales (parse_csv_data two_lines init).2) ∧
  ∀ c, c ∈ customers (parse_csv_data two_lines init).2 ↔
       ∃ g, g ∈ sales (parse_csv_data two_lines init).2 ∧
            Sale.customer_id g = Some c.
Proof.
  apply (sales_follow_the_rows two_lines). vm_compute. reflexivity.
Defined.

(** ** Inventory records and purchases *)

Lemma emits_purchase_split p row :
  emits_purchase p row = defines_product p row && records_purchase row.
Proof.
  unfold emits_purchase, defines_product, records_purchase.
  by rewrite andb_assoc.
Qed.

Lemma iterrows_stocked df s s' :
  iterrows df s = (Ok (), s') →
  (∀ p, is_Some (inventory s !! p) ↔
        ∃ f, f ∈ purchases s ∧ Purchase.product_id f = p) →
  ∀ p, is_Some (inventory s' !! p) ↔
       ∃ f, f ∈ purchases s' ∧ Purchase.product_id f = p.
Proof.
  revert s. induction df as [|row rest IH]; intros s Hrun HR.
  - simpl in Hrun. unfold mret, M_ret in Hrun. by simplify_eq.
  - rewrite iterrows_cons in Hrun.
    destruct (isna (Row.Item_num row)) eqn:Hna; [by eapply IH|].
    pose proof (process_row_step row s) as Hstep.
    destruct (process_row row s) as [[[]|e] s1]; [|done]. simpl in Hstep.
    apply (IH _ Hrun). intros p.
    pose proof (row_step_inventory _ _ _ p Hna Hstep) as Hi.
    pose proof (row_step_purchases _ _ _ Hstep) as Hp.
    rewrite emits_purchase_split in Hi. unfold defines_product, notna in Hi.
    rewrite Hna in Hi. simpl in Hi.
    destruct (records_purchase row).
    + destruct Hp as (f & Hf & Hof & Hstock). rewrite Hf.
      pose proof Hof as (Hitem & _). split.
      * intros Hsome. destruct (inventory s !! p) as [q|] eqn:Hq.
        -- destruct (proj1 (HR p)) as (f' & Hf' & Hid); [by rewrite Hq|].
           exists f'. split; [|done]. apply elem_of_app. by left.
        -- rewrite Hitem, andb_true_r in Hi.
           case_bool_decide as Hfp.
           ++ exists f. split; [|done]. apply elem_of_app. right. by left.
           ++ rewrite Hi in Hsome. by destruct Hsome.
      * intros (f' & [Hf'|Hf']%elem_of_app & Hid).
        -- destruct (proj2 (HR p)) as [q Hq]; [by exists f'|].
           rewrite Hq in Hi. by rewrite Hi.
        -- apply list_elem_of_singleton in Hf'. by subst.
    + destruct Hp as [Hp Hinv]. rewrite Hp, Hinv. apply HR.
Qed.

(** X10. After a row pass that returned, the products with an inventory
    record are exactly the products with a purchase: every product
    bought at least once has a snapshot, and a product that is only
    sold or only described has none. *)
Theorem inventory_covers_purchased_products (df : list Row.t) (s : GreenspotETL) (p : Z) :
  parse_csv_data df init = (Ok (), s) →
  is_Some (inventory s !! p) ↔ ∃ f, f ∈ purchases s ∧ Purchase.product_id f = p.
Proof.
  intros Hrun%parse_csv_data_ok.
  apply (iterrows_stocked _ _ _ Hrun). intros q. simpl. split.
  - rewrite lookup_empty. by intros [? ?].
  - intros (f & Hf & _). by apply elem_of_nil in Hf.
Qed.

Lemma inventory_covers_purchased_products_witness :
  is_Some (inventory (parse_csv_data two_lines init).2 !! 1000) ↔
  ∃ f, f ∈ purchases (parse_csv_data two_lines init).2 ∧
       Purchase.product_id f = 1000.
Proof.
  apply (inventory_covers_purchased_products two_lines). vm_compute. reflexivity.
Defined.

(** ** Surrogate keys leave no gap *)

Lemma ids_ok_dense {V} (id : V → Z) (d : gmap string V) (i : Z) :
  ids_ok id d → 1 ≤ i ≤ Z.of_nat (size d) →
  ∃ k v, d !! k = Some v ∧ id v = i.
Proof.
  intros Hok Hi.
  pose proof (ids_ok_NoDup id d Hok) as Hnd.
  set (l := (λ kv : string * V, id kv.2) <$> map_to_list d) in *.
  assert (l ⊆+ seqZ 1 (Z.of_nat (size d))) as Hsub.
  { apply NoDup_submseteq; [done|]. intros x Hx.
    apply list_elem_of_fmap in Hx as ([k v] & -> & Hkv).
    apply elem_of_map_to_list in Hkv. destruct Hok as [Hr _].
    apply elem_of_seqZ. specialize (Hr k v Hkv). simpl. lia. }
  assert (l ≡ₚ seqZ 1 (Z.of_nat (size d))) as Hperm.
  { apply submseteq_length_Permutation; [done|].
    unfold l. rewrite length_fmap, length_map_to_list, length_seqZ. lia. }
  assert (i ∈ l) as Hin.
  { rewrite Hperm. apply elem_of_seqZ. lia. }
  apply list_elem_of_fmap in Hin as ([k v] & -> & Hkv).
  apply elem_of_map_to_list in Hkv. by exists k, v.
Qed.

(** X11. The surrogate keys are dense: in every object the row pass
    leaves, whether it returned or raised, the category ids are
    exactly 1..n for the n categories and the vendor ids exactly 1..m
    for the m vendors, each id carried by one name only. *)
Theorem surrogate_ids_are_dense (df : list Row.t) (i : Z) :
  let s := (parse_csv_data df init).2 in
  (1 ≤ i ≤ Z.of_nat (size (categories s)) ↔
   ∃ name, categories s !! name = Some i) ∧
  (1 ≤ i ≤ Z.of_nat (size (vendors s)) ↔
   ∃ name v, vendors s !! name = Some v ∧ Vendor.vendor_id v = i) ∧
  (∀ name1 name2, categories s !! name1 = Some i →
                  categories s !! name2 = Some i → name1 = name2) ∧
  (∀ name1 name2 v1 v2,
     vendors s !! name1 = Some v1 → vendors s !! name2 = Some v2 →
     Vendor.vendor_id v1 = i → Vendor.vendor_id v2 = i → name1 = name2).
Proof.
  intros s.
  pose proof (parse_csv_data_inv df init etl_inv_init) as [Hv Hc _ _ _ _].
  fold s in Hv, Hc. split_and!.
  - split.
    + intros Hi. destruct (ids_ok_dense _ _ i Hc Hi) as (k & v & Hk & Hid).
      exists k. by rewrite Hk, <- Hid.
    + intros (k & Hk). destruct Hc as [Hr _]. apply (Hr k i Hk).
  - split.
    + intros Hi. by apply ids_ok_dense.
    + intros (k & v & Hk & <-). destruct Hv as [Hr _]. apply (Hr k v Hk).
  - intros k1 k2 H1 H2. destruct Hc as [_ Hinj]. by apply (Hinj k1 k2 i i).
  - intros k1 k2 v1 v2 H1 H2 Hi1 Hi2. destruct Hv as [_ Hinj].
    apply (Hinj k1 k2 v1 v2); [done..|]. by rewrite Hi1, Hi2.
Qed.

(** ** Rows without an item number *)

Lemma iterrows_has_item df s :
  iterrows (dropna_all df) s = iterrows (List.filter has_item df) s.
Proof.
  revert s. unfold dropna_all. induction df as [|row rest IH]; intros s; [done|].
  rewrite filter_cons.
  change (List.filter has_item (row :: rest))
    with (if has_item row then row :: List.filter has_item rest
          else List.filter has_item rest).
  unfold has_item at 1, notna.
  case_decide as Hd.
  - destruct (isna (Row.Item_num row)) eqn:Hna; simpl negb; cbv iota.
    + rewrite iterrows_cons, Hna. apply IH.
    + rewrite !iterrows_cons, Hna.
      destruct (process_row row s) as [[[]|e] s1]; [apply IH|done].
  - apply Is_true_true in Hd. simpl in Hd. apply andb_prop in Hd as [Hna _].
    rewrite Hna. simpl negb. cbv iota. apply IH.
Qed.

Lemma filter_has_item_idemp df :
  List.filter has_item (List.filter has_item df) = List.filter has_item df.
Proof.
  induction df as [|row rest IH]; [done|]. simpl.
  destruct (has_item row) eqn:Hrow; simpl; [|done]. by rewrite Hrow, IH.
Qed.

(** X12. On the DataFrame that [pd.read_csv] returned, the cells
    already typed, [dropna(how='all')] is redundant and the rows
    without an item number do not count, whatever their other cells
    hold (a vendor with a cost, a price with a sale date): the run
    over a DataFrame returns the same flag, sink and object as the run
    over its rows that have an item number. The statement is about
    rows of one DataFrame, not about lines of the file: deleting lines
    from the file can change the types [read_csv] infers for the
    cells of the other rows. *)
Theorem rows_without_item_number_are_ignored
        (connected : bool) (df : list Row.t) (db : Sink.database) :
  main connected df db = main connected (List.filter has_item df) db.
Proof.
  unfold main, run_etl, parse_csv_data, try_except.
  by rewrite !iterrows_has_item, filter_has_item_idemp.
Qed.

(** ** The load phases of a run *)

Lemma main_tables df db0 db s :
  main true df db0 = (true, db, s) →
  parse_csv_data df init = (Ok (), s) ∧
  ∃ rows,
    product_rows s (map_to_list (products s)) = Ok rows ∧
    Sink.product_categories db =
      insert_all_ignore (category_rows (map_to_list (categories s)))
        (Sink.product_categories db0) ∧
    Sink.vendors db =
      insert_all_ignore (vendor_rows (map_to_list (vendors s))) (Sink.vendors db0) ∧
    Sink.products db = insert_all_ignore rows (Sink.products db0) ∧
    Sink.customers db =
      insert_all_ignore (customer_rows (elements (customers s))) (Sink.customers db0) ∧
    Sink.inventory db =
      insert_all_ignore (map_to_list (inventory s)) (Sink.inventory db0) ∧
    Sink.purchase_orders db =
      (Sink.purchase_orders db0 ++ (purchase_values <$> purchases s))%list ∧
    Sink.sales_transactions db =
      (Sink.sales_transactions db0 ++ (sale_values <$> sales s))%list.
Proof.
  unfold main, run_etl. simpl.
  destruct (parse_csv_data df init) as [[[]|e] s1]; [|done].
  unfold load_products. rewrite load_products_table.
  destruct (product_rows s1 _) as [rows|e] eqn:Hrows; simpl; [|done].
  unfold load_inventory, load_customers, load_vendors, load_categories.
  rewrite load_sales_table, load_purchases_table, load_inventory_table,
    load_customers_table, load_vendors_table, load_categories_table.
  intros [= <- <-]. split; [done|]. exists rows. by split_and!.
Qed.

(** X13. [load_products] never raises [KeyError]: in every object the
    row pass leaves, whether it returned or raised, the category of
    every product is a key of [categories], so the subscript
    [self.categories[product['category']]] is defined for every
    product, the row to insert is built for each of them, and the loop
    of [load_products] reaches its end on any sink. Errors of the
    connector are outside the statement. *)
Theorem load_products_never_raises_KeyError (df : list Row.t) (db : Sink.database) :
  let s := (parse_csv_data df init).2 in
  (∀ k p, products s !! k = Some p →
          ∃ cid row,
            subscript (categories s) (Product.category p) = Ok cid ∧
            product_values s p = Ok (k, row) ∧
            Sink.category_id row = cid) ∧
  ∃ db', load_products s db = Ok db'.
Proof.
  intros s.
  pose proof (parse_csv_data_inv df init etl_inv_init) as Hinv. fold s in Hinv.
  split.
  - intros k p Hp. destruct (inv_products s Hinv k p Hp) as [Hk [cid Hc]].
    unfold product_values, subscript. rewrite Hc, Hk.
    eexists _, _. by split_and!.
  - unfold load_products. rewrite load_products_table.
    destruct (product_rows_ok s Hinv) as [rows ->]. by eexists.
Qed.

(** ** Keys of the loaded tables *)

Lemma find_key_is_Some {V} (rows : list (Z * V)) k :
  is_Some (List.find (λ r : Z * V, bool_decide (r.1 = k)) rows) ↔ k ∈ rows.*1.
Proof.
  induction rows as [|[k' v] rows IH]; simpl.
  - split; [by intros [? ?]|by intros ?%elem_of_nil].
  - case_bool_decide as Hk; simpl in Hk.
    + subst. split; [intros _; by left|by eexists].
    + rewrite IH. split; [by right|].
      intros [->|H]%elem_of_cons; [done|done].
Qed.

Lemma insert_all_ignore_is_Some {V} (rows : list (Z * V)) (t : gmap Z V) k :
  is_Some (insert_all_ignore rows t !! k) ↔ is_Some (t !! k) ∨ k ∈ rows.*1.
Proof.
  rewrite insert_all_ignore_lookup. destruct (t !! k) as [v|] eqn:Ht.
  - split; [by left|by eexists].
  - rewrite fmap_is_Some, find_key_is_Some. split; [by right|].
    intros [[? ?]|?]; done.
Qed.

Lemma category_id_loaded (s : GreenspotETL) name i :
  categories s !! name = Some i →
  i ∈ (category_rows (map_to_list (categories s))).*1.
Proof.
  intros Hc. apply list_elem_of_fmap. eexists (i, _). split; [done|].
  apply list_elem_of_fmap. exists (name, i). split; [done|].
  by apply elem_of_map_to_list.
Qed.

Lemma vendor_id_loaded (s : GreenspotETL) name v :
  vendors s !! name = Some v →
  Vendor.vendor_id v ∈ (vendor_rows (map_to_list (vendors s))).*1.
Proof.
  intros Hc. apply list_elem_of_fmap. eexists (Vendor.vendor_id v, _).
  split; [done|].
  apply list_elem_of_fmap. exists (name, v). split; [done|].
  by apply elem_of_map_to_list.
Qed.

Lemma customer_id_loaded (s : GreenspotETL) c :
  c ∈ customers s → c ∈ (customer_rows (elements (customers s))).*1.
Proof.
  intros Hc. apply list_elem_of_fmap. eexists (c, _). split; [done|].
  apply list_elem_of_fmap. exists c. split; [done|]. by apply elem_of_elements.
Qed.

Lemma product_id_loaded (s : GreenspotETL) rows p :
  etl_inv s →
  product_rows s (map_to_list (products s)) = Ok rows →
  is_Some (products s !! p) → p ∈ rows.*1.
Proof.
  intros Hinv Hrows [prod Hp].
  rewrite (product_rows_keys _ _ _ Hrows).
  - apply list_elem_of_fmap. exists (p, prod). split; [done|].
    by apply elem_of_map_to_list.
  - apply Forall_forall. intros [k q] Hkq%elem_of_map_to_list.
    by destruct (inv_products s Hinv k q Hkq).
Qed.

Lemma find_primary_vendor_elem p l v :
  find_primary_vendor p l = Some v →
  ∃ f, f ∈ l ∧ Purchase.vendor_id f = v.
Proof.
  rewrite find_primary_vendor_find.
  destruct (List.find _ l) as [f|] eqn:Hf; [|done]. simpl. intros [= <-].
  apply find_some in Hf as [Hin _]. exists f. split; [|done].
  by apply list_elem_of_In.
Qed.

(** X14. Each load phase finds what it references. In a run that
    returned true on an empty sink, the phases being applied in the
    order of [run_etl], the sink each phase receives already holds the
    rows its statements name: when [load_products] runs, the category
    of every product row and its primary vendor, if any, are in
    [product_categories] and [vendors]; when [load_inventory] runs,
    every product with a snapshot is in [products]; when
    [load_purchases] runs, the product and the vendor of every
    purchase are in [products] and [vendors]; when [load_sales] runs,
    the product of every sale is in [products] and its customer, if
    any, in [customers]. *)
Theorem each_phase_finds_its_references
        (df : list Row.t) (db : Sink.database) (s : GreenspotETL) :
  main true df Sink.empty = (true, db, s) →
  let db1 := load_categories s Sink.empty in
  let db2 := load_vendors s db1 in
  ∃ db3,
    load_products s db2 = Ok db3 ∧
    let db4 := load_customers s db3 in
    let db5 := load_inventory s db4 in
    let db6 := load_purchases s db5 in
    db = load_sales s db6 ∧
    (∀ k p, products s !! k = Some p →
            ∃ row,
              product_values s p = Ok (k, row) ∧
              is_Some (Sink.product_categories db2 !! Sink.category_id row) ∧
              match Sink.primary_vendor_id row with
              | Some v => is_Some (Sink.vendors db2 !! v)
              | None => True
              end) ∧
    (∀ p, is_Some (inventory s !! p) → is_Some (Sink.products db4 !! p)) ∧
    Forall (λ f, is_Some (Sink.products db5 !! Purchase.product_id f) ∧
                 is_Some (Sink.vendors db5 !! Purchase.vendor_id f))
      (purchases s) ∧
    Forall (λ g, is_Some (Sink.products db6 !! Sale.product_id g) ∧
                 match Sale.customer_id g with
                 | Some c => is_Some (Sink.customers db6 !! c)
                 | None => True
                 end)
      (sales s).
Proof.
  intros Hmain db1 db2.
  pose proof (main_tables _ _ _ _ Hmain) as (Hrun & _).
  pose proof (parse_csv_data_inv df init etl_inv_init) as Hinv.
  rewrite Hrun in Hinv. simpl in Hinv.
  unfold main, run_etl in Hmain. simpl in Hmain. rewrite Hrun in Hmain.
  fold db1 db2 in Hmain.
  destruct (load_products s db2) as [db3|e] eqn:Hlp; [|done].
  injection Hmain as <-. exists db3. split; [done|]. cbv zeta. split; [done|].
  unfold load_products in Hlp. rewrite load_products_table in Hlp.
  destruct (product_rows s _) as [rows|e] eqn:Hrows; [|done].
  simpl in Hlp. injection Hlp as <-.
  assert (∀ name v, vendors s !! name = Some v →
            is_Some (Sink.vendors db2 !! Vendor.vendor_id v)) as Hvendor.
  { intros name v Hv. subst db2 db1. unfold load_vendors, load_categories.
    rewrite load_vendors_table, load_categories_table. simpl.
    apply insert_all_ignore_is_Some. right. by eapply vendor_id_loaded. }
  assert (∀ f, f ∈ purchases s →
            is_Some (Sink.vendors db2 !! Purchase.vendor_id f)) as Hsupplier.
  { intros f Hf. destruct Hinv as [_ _ Hpu _ _ _].
    rewrite Forall_forall in Hpu. destruct (Hpu f Hf) as [_ (k & v & Hk & <-)].
    by eapply Hvendor. }
  assert (∀ p, is_Some (products s !! p) →
            is_Some (insert_all_ignore rows (Sink.products db2) !! p)) as Hproduct.
  { intros p Hp. apply insert_all_ignore_is_Some. right.
    by eapply product_id_loaded. }
  unfold load_customers, load_inventory.
  rewrite load_purchases_table, load_inventory_table, load_customers_table.
  simpl. split_and!.
  - intros k p Hp. destruct (inv_products s Hinv k p Hp) as [Hk [cid Hc]].
    unfold product_values, subscript. rewrite Hc, Hk.
    eexists. split; [done|]. simpl. split.
    + subst db2 db1. unfold load_vendors, load_categories.
      rewrite load_vendors_table, load_categories_table. simpl.
      apply insert_all_ignore_is_Some. right. by eapply category_id_loaded.
    + destruct (find_primary_vendor k (purchases s)) as [v|] eqn:Hfind; [|done].
      apply find_primary_vendor_elem in Hfind as (f & Hf & <-).
      by apply Hsupplier.
  - intros p Hp. apply Hproduct. by apply (inv_inventory s Hinv).
  - apply Forall_forall. intros f Hf. split.
    + apply Hproduct. destruct Hinv as [_ _ Hpu _ _ _].
      rewrite Forall_forall in Hpu. by destruct (Hpu f Hf).
    + by apply Hsupplier.
  - apply Forall_forall. intros g Hg.
    destruct Hinv as [_ _ _ Hsa _ _]. rewrite Forall_forall in Hsa.
    destruct (Hsa g Hg) as [Hp Hc]. split; [by apply Hproduct|].
    destruct (Sale.customer_id g) as [c|]; [|done].
    apply insert_all_ignore_is_Some. right.
    apply customer_id_loaded. by apply Hc.
Qed.

Lemma each_phase_finds_its_references_witness :
  let s := (main true two_lines Sink.empty).2 in
  let db2 := load_vendors s (load_categories s Sink.empty) in
  ∃ db3,
    load_products s db2 = Ok db3 ∧
    (main true two_lines Sink.empty).1.2 =
      load_sales s (load_purchases s (load_inventory s (load_customers s db3))) ∧
    length (purchases s) = 2%nat ∧
    Forall (λ f,
        is_Some (Sink.products (load_inventory s (load_customers s db3))
                   !! Purchase.product_id f) ∧
        is_Some (Sink.vendors (load_inventory s (load_customers s db3))
                   !! Purchase.vendor_id f))
      (purchases s).
Proof.
  intros s db2.
  assert (main true two_lines Sink.empty =
            (true, (main true two_lines Sink.empty).1.2, s)) as Hmain
    by (vm_compute; reflexivity).
  pose proof (each_phase_finds_its_references _ _ _ Hmain) as H.
  cbv zeta in H. destruct H as (db3 & Hlp & Hdb & _ & _ & Hpo & _).
  exists db3. split; [exact Hlp|]. split; [exact Hdb|].
  split; [vm_compute; reflexivity|exact Hpo].
Defined.

(** ** Numbers in the text columns *)

Lemma strip_number c : is_number c = true → strip c = Raise AttributeError.
Proof. by destruct c. Qed.

Lemma product_fields_raises row n e :
  product_fields row n = Raise e → e = AttributeError.
Proof.
  unfold product_fields, if_notna, normalize_unit, normalize_location, strip.
  repeat case_match; congruence.
Qed.

Lemma product_fields_number row n :
  is_number (Row.item_type row) || is_number (Row.description row) ||
  is_number (Row.Unit row) || is_number (Row.Location row) = true →
  product_fields row n = Raise AttributeError.
Proof.
  intros Hnum.
  destruct (product_fields row n) as [p|e] eqn:Hf;
    [|by apply product_fields_raises in Hf as ->].
  exfalso. revert Hnum Hf.
  unfold product_fields, if_notna, normalize_unit, normalize_location, strip,
    is_number, notna.
  destruct (Row.item_type row) as [?|[]|?], (Row.description row) as [?|[]|?],
    (Row.Unit row) as [?|[]|?], (Row.Location row) as [?|[]|?]; simpl; congruence.
Qed.

(** X16. A number in a text column is fatal for a new product only. If
    the description, item type, unit or location cell of a row holds a
    number, then for an item number that [products] does not hold yet
    [process_row] raises [AttributeError] and leaves the object as it
    was; for a known item number the first block does not read these
    cells: it returns and changes nothing. *)
Theorem number_in_text_column (row : Row.t) (s : GreenspotETL) (n : Z) :
  int (Row.Item_num row) = Ok n →
  is_number (Row.item_type row) || is_number (Row.description row) ||
  is_number (Row.Unit row) || is_number (Row.Location row) = true →
  match products s !! n with
  | None => process_row row s = (Raise AttributeError, s)
  | Some _ => extract_product row n s = (Ok (), s)
  end.
Proof.
  intros Hi Hnum%(product_fields_number row n).
  pose proof (extract_product_step row n s) as Hstep.
  destruct (products s !! n) as [p|] eqn:Hp.
  - destruct (extract_product row n s) as [r s1]. simpl in Hstep.
    inversion Hstep; subst; [done|congruence..].
  - unfold process_row, mbind, M_bind, lift. rewrite Hi.
    destruct (extract_product row n s) as [r s1]. simpl in Hstep.
    inversion Hstep as [[? Hk]|e Hn He|q Hn Hq]; subst; [congruence| |congruence].
    rewrite Hnum in He. by simplify_eq.
Qed.

Lemma number_in_text_column_witness :
  process_row numeric_location_row init = (Raise AttributeError, init) ∧
  extract_product numeric_location_row 1000 (process_row good_row init).2 =
    (Ok (), (process_row good_row init).2).
Proof.
  split.
  - pose proof (number_in_text_column numeric_location_row init 1000) as H.
    apply H; vm_compute; reflexivity.
  - pose proof (number_in_text_column numeric_location_row
                  (process_row good_row init).2 1000) as H.
    assert (is_Some (products (process_row good_row init).2 !! 1000)) as [p Hp]
      by (vm_compute; eauto).
    rewrite Hp in H. apply H; vm_compute; reflexivity.
Defined.

(** ** No category without a product, no vendor without a purchase *)

Lemma product_step_categories row n s r s' :
  product_step row n s r s' →
  (∀ c, is_Some (categories s !! c) →
        ∃ k p, products s !! k = Some p ∧ Product.category p = c) →
  ∀ c, is_Some (categories s' !! c) →
       ∃ k p, products s' !! k = Some p ∧ Product.category p = c.
Proof.
  intros Hstep Hs. inversion Hstep as [| |p Hn Hf]; subst; [done..|].
  intros c Hc.
  destruct (add_product_frame n p s) as (_&Hp&_). rewrite Hp.
  destruct (decide (c = Product.category p)) as [->|Hne].
  { exists n, p. by rewrite lookup_insert_eq. }
  assert (is_Some (categories s !! c)) as Hold.
  { revert Hc. unfold add_product. case_bool_decide; simpl; [done|].
    by rewrite lookup_insert_ne. }
  destruct (Hs c Hold) as (k & q & Hk & Hq). exists k, q. split; [|done].
  rewrite lookup_insert_ne; [done|]. intros ->. congruence.
Qed.

Lemma iterrows_categories df s :
  (∀ c, is_Some (categories s !! c) →
        ∃ k p, products s !! k = Some p ∧ Product.category p = c) →
  ∀ c, is_Some (categories (iterrows df s).2 !! c) →
       ∃ k p, products (iterrows df s).2 !! k = Some p ∧ Product.category p = c.
Proof.
  revert s. induction df as [|row rest IH]; intros s Hs; [done|].
  rewrite iterrows_cons. destruct (isna (Row.Item_num row)); [by apply IH|].
  pose proof (process_row_step row s) as Hstep.
  assert (∀ c, is_Some (categories (process_row row s).2 !! c) →
            ∃ k p, products (process_row row s).2 !! k = Some p ∧
                   Product.category p = c) as Hs1.
  { destruct (process_row row s) as [r s1]. simpl in *.
    inversion Hstep as [|n e s0 Hi Hp|n e s0 s2 Hi Hp Hv|n s0 s2 r' s3 Hi Hp Hv Hsa];
      subst; [done|by eapply product_step_categories|..].
    - apply vendor_step_frame in Hv as (Hvp&_&Hvc&_). rewrite Hvp, Hvc.
      by eapply product_step_categories.
    - apply vendor_step_frame in Hv as (Hvp&_&Hvc&_).
      apply sale_step_frame in Hsa as (_&Hsp&Hsc&_).
      rewrite Hsp, Hsc, Hvp, Hvc. by eapply product_step_categories. }
  destruct (process_row row s) as [[[]|e] s1]; simpl in *; [by apply IH|done].
Qed.

Lemma iterrows_suppliers df s s' :
  iterrows df s = (Ok (), s') →
  (∀ k v, vendors s !! k = Some v →
          ∃ f, f ∈ purchases s ∧ Purchase.vendor_id f = Vendor.vendor_id v) →
  ∀ k v, vendors s' !! k = Some v →
         ∃ f, f ∈ purchases s' ∧ Purchase.vendor_id f = Vendor.vendor_id v.
Proof.
  revert s. induction df as [|row rest IH]; intros s Hrun Hs.
  - simpl in Hrun. unfold mret, M_ret in Hrun. by simplify_eq.
  - rewrite iterrows_cons in Hrun.
    destruct (isna (Row.Item_num row)) eqn:Hna; [by eapply IH|].
    pose proof (process_row_step row s) as Hstep.
    destruct (process_row row s) as [[[]|e] s1]; [|done]. simpl in Hstep.
    apply (IH _ Hrun). intros k v Hk.
    pose proof (row_step_vendors _ _ _ k Hna Hstep) as Hv.
    pose proof (row_step_purchases _ _ _ Hstep) as Hp.
    unfold names_vendor, notna in Hv. rewrite Hna in Hv. simpl in Hv.
    fold (records_purchase row) in Hp.
    assert (purchases s `prefix_of` purchases s1) as [fs Hfs].
    { destruct (records_purchase row).
      - destruct Hp as (f & -> & _). by eexists.
      - destruct Hp as [-> _]. by exists []; rewrite app_nil_r. }
    destruct (vendors s !! k) as [v0|] eqn:Hk0.
    + rewrite Hk in Hv. simplify_eq.
      destruct (Hs k v0 Hk0) as (f & Hf & Hid). exists f. split; [|done].
      rewrite Hfs. apply elem_of_app. by left.
    + destruct (vendor_gate row) eqn:Hg; simpl in Hv; [|congruence].
      destruct (clean_vendor_data (Row.vendor row)) as [[vd|]|e] eqn:Hc;
        [|congruence..].
      case_bool_decide as Hname; [|congruence]. subst k.
      unfold records_purchase in Hp. rewrite Hg, Hc in Hp. simpl in Hp.
      destruct Hp as (f & Hf & (_ & (vd' & v' & Hc' & Hv' & Hid) & _) & _).
      rewrite Hc in Hc'. injection Hc' as <-.
      rewrite Hk in Hv'. injection Hv' as <-.
      exists f. split; [|done].
      rewrite Hf. apply elem_of_app. right. by left.
Qed.

(** X17. Nothing is left without a use. In every object the row pass
    leaves, whether it returned or raised, every category of
    [categories] is the category of a product of [products]; and after
    a pass that returned, every vendor of [vendors] is the vendor of a
    purchase of [purchases]. *)
Theorem no_unused_category_or_vendor (df : list Row.t) :
  let s := (parse_csv_data df init).2 in
  (∀ c, is_Some (categories s !! c) →
        ∃ k p, products s !! k = Some p ∧ Product.category p = c) ∧
  ((parse_csv_data df init).1 = Ok () →
   ∀ k v, vendors s !! k = Some v →
          ∃ f, f ∈ purchases s ∧ Purchase.vendor_id f = Vendor.vendor_id v).
Proof.
  intros s. split.
  - subst s. unfold parse_csv_data, try_except.
    pose proof (iterrows_categories (dropna_all df) init) as H.
    destruct (iterrows (dropna_all df) init) as [[[]|e] s1]; simpl in *.
    + apply H. intros c. rewrite lookup_empty. by intros [? ?].
    + run_M. apply H. intros c. rewrite lookup_empty. by intros [? ?].
  - intros Hok.
    assert (parse_csv_data df init = (Ok (), s)) as Hrun.
    { subst s. by destruct (parse_csv_data df init) as [[[]|?] ?]. }
    apply parse_csv_data_ok in Hrun.
    apply (iterrows_suppliers _ _ _ Hrun). intros k v. simpl.
    by rewrite lookup_empty.
Qed.

(** ** The sink only grows *)

Lemma insert_all_ignore_subseteq {V} (rows : list (Z * V)) (t : gmap Z V) :
  t ⊆ insert_all_ignore rows t.
Proof.
  apply map_subseteq_spec. intros k v Hk.
  by rewrite insert_all_ignore_lookup, Hk.
Qed.

(** X18. A run never changes or deletes what the sink holds, whatever
    the input and whether it succeeds: every row of a dimension table
    is still there under its key with the same columns ([INSERT
    IGNORE] never updates, so a corrected name or address in a later
    file does not reach the table), and the fact tables keep their
    rows as a prefix. *)
Theorem run_never_changes_existing_rows
        (connected : bool) (df : list Row.t) (db0 : Sink.database) :
  let db := (main connected df db0).1.2 in
  Sink.product_categories db0 ⊆ Sink.product_categories db ∧
  Sink.vendors db0 ⊆ Sink.vendors db ∧
  Sink.products db0 ⊆ Sink.products db ∧
  Sink.customers db0 ⊆ Sink.customers db ∧
  Sink.inventory db0 ⊆ Sink.inventory db ∧
  Sink.purchase_orders db0 `prefix_of` Sink.purchase_orders db ∧
  Sink.sales_transactions db0 `prefix_of` Sink.sales_transactions db.
Proof.
  intros db. subst db. unfold main, run_etl.
  destruct connected; simpl; [|done].
  destruct (parse_csv_data df init) as [[[]|e] s]; [|done].
  unfold load_products, load_categories, load_vendors, load_customers,
    load_inventory.
  rewrite load_products_table. unfold mbind, result_bind.
  rewrite load_categories_table, load_vendors_table.
  destruct (product_rows s _) as [rows|e]; simpl.
  - rewrite load_customers_table, load_inventory_table,
      load_purchases_table, load_sales_table. simpl.
    split_and!; try apply insert_all_ignore_subseteq; by apply prefix_app_r.
  - split_and!; try apply insert_all_ignore_subseteq; done.
Qed.

(** ** The summary *)

Lemma NoDup_length_le {A} (l k : list A) :
  NoDup l → (∀ x, x ∈ l → x ∈ k) → (length l ≤ length k)%nat.
Proof. intros Hnd Hsub. by apply submseteq_length, NoDup_submseteq. Qed.

Lemma purchases_length df s :
  parse_csv_data df init = (Ok (), s) →
  length (purchases s) = length (List.filter purchase_line df).
Proof.
  intros Hrun%parse_csv_data_ok.
  apply iterrows_purchases in Hrun as (fs & Hfs & Hall). simpl in Hfs. subst fs.
  apply Forall2_length in Hall. rewrite <- Hall, filter_dropna; [done|].
  intros row. apply notna_andb_isna.
Qed.

Lemma sales_length df s :
  parse_csv_data df init = (Ok (), s) →
  length (sales s) = length (List.filter sale_line df).
Proof.
  intros Hrun%parse_csv_data_ok.
  apply iterrows_sales in Hrun as (_ & gs & Hgs & Hall);
    [|intros c Hc; by apply elem_of_empty in Hc].
  simpl in Hgs. subst gs.
  apply Forall2_length in Hall. rewrite <- Hall, filter_dropna; [done|].
  intros row. apply notna_andb_isna.
Qed.

(** X15. The summary counts what the pass parsed, whatever the loaders
    stored: after a row pass that returned, the numbers [print_summary]
    prints for purchase orders and sales transactions are the numbers
    of rows of the DataFrame that record a purchase and a sale, and
    the other numbers are consistent with them: no more categories
    than products, no more vendors than purchase orders, no more
    customers than sales, and no more inventory records than products
    or than purchase orders. *)
Theorem summary_counts_what_was_parsed (df : list Row.t) (s : GreenspotETL) :
  parse_csv_data df init = (Ok (), s) →
  print_summary s =
    [ String "010"%char rule;
      "ETL SUMMARY";
      rule;
      "Categories loaded: " +:+ str_of_len (size (categories s));
      "Vendors loaded: " +:+ str_of_len (size (vendors s));
      "Products loaded: " +:+ str_of_len (size (products s));
      "Customers loaded: " +:+ str_of_len (size (customers s));
      "Inventory records: " +:+ str_of_len (size (inventory s));
      "Purchase orders: " +:+
        str_of_len (length (List.filter purchase_line df));
      "Sales transactions: " +:+
        str_of_len (length (List.filter sale_line df));
      rule ] ∧
  (size (categories s) ≤ size (products s))%nat ∧
  (size (vendors s) ≤ length (List.filter purchase_line df))%nat ∧
  (size (customers s) ≤ length (List.filter sale_line df))%nat ∧
  (size (inventory s) ≤ size (products s))%nat ∧
  (size (inventory s) ≤ length (List.filter purchase_line df))%nat.
Proof.
  intros Hrun.
  pose proof (parse_csv_data_inv df init etl_inv_init) as Hinv.
  rewrite Hrun in Hinv. simpl in Hinv.
  pose proof (purchases_length _ _ Hrun) as Hpo.
  pose proof (sales_length _ _ Hrun) as Hst.
  pose proof (parse_csv_data_ok _ _ _ Hrun) as Hit.
  rewrite <- Hpo, <- Hst. split_and!.
  - done.
  - rewrite <- !length_map_to_list.
    rewrite <- (length_fmap fst (map_to_list (categories s))).
    rewrite <- (length_fmap (λ kp, Product.category kp.2) (map_to_list (products s))).
    apply NoDup_length_le; [apply NoDup_fst_map_to_list|].
    intros c ([c' i] & -> & Hc%elem_of_map_to_list)%list_elem_of_fmap. simpl.
    pose proof (iterrows_categories (dropna_all df) init) as Hcat.
    rewrite Hit in Hcat. simpl in Hcat.
    assert (∀ c0, is_Some (categories init !! c0) →
              ∃ k p, products init !! k = Some p ∧ Product.category p = c0) as H0.
    { intros c0. simpl. rewrite lookup_empty. by intros [? ?]. }
    destruct (Hcat H0 c') as (k & p & Hk & Hp); [by eexists|].
    apply list_elem_of_fmap. exists (k, p). split; [done|].
    by apply elem_of_map_to_list.
  - rewrite <- length_map_to_list.
    rewrite <- (length_fmap (λ kv, Vendor.vendor_id kv.2) (map_to_list (vendors s))).
    rewrite <- (length_fmap Purchase.vendor_id (purchases s)).
    apply NoDup_length_le; [apply ids_ok_NoDup, Hinv|].
    intros i ([k v] & -> & Hv%elem_of_map_to_list)%list_elem_of_fmap. simpl.
    destruct (iterrows_suppliers _ _ _ Hit) with (k := k) (v := v)
      as (f & Hf & Hid); [intros k0 v0; simpl; by rewrite lookup_empty|done|].
    apply list_elem_of_fmap. by exists f.
  - change (size (customers s)) with (length (elements (customers s))).
    rewrite <- (length_fmap Some (elements (customers s))).
    rewrite <- (length_fmap Sale.customer_id (sales s)).
    apply NoDup_length_le.
    { apply NoDup_fmap; [apply _|apply NoDup_elements]. }
    intros x (c & -> & Hc%elem_of_elements)%list_elem_of_fmap.
    apply iterrows_sales in Hit as (Hcs & _);
      [|intros c0 Hc0; by apply elem_of_empty in Hc0].
    destruct (Hcs c Hc) as (g & Hg & Hid).
    apply list_elem_of_fmap. by exists g.
  - rewrite <- !length_map_to_list.
    rewrite <- (length_fmap fst (map_to_list (inventory s))).
    rewrite <- (length_fmap fst (map_to_list (products s))).
    apply NoDup_length_le; [apply NoDup_fst_map_to_list|].
    intros p ([p' q] & -> & Hq%elem_of_map_to_list)%list_elem_of_fmap. simpl.
    destruct (inv_inventory s Hinv p') as [prod Hprod]; [by eexists|].
    apply list_elem_of_fmap. exists (p', prod). split; [done|].
    by apply elem_of_map_to_list.
  - rewrite <- length_map_to_list.
    rewrite <- (length_fmap fst (map_to_list (inventory s))).
    rewrite <- (length_fmap Purchase.product_id (purchases s)).
    apply NoDup_length_le; [apply NoDup_fst_map_to_list|].
    intros p ([p' q] & -> & Hq%elem_of_map_to_list)%list_elem_of_fmap. simpl.
    assert (∀ p0, is_Some (inventory init !! p0) ↔
              ∃ f, f ∈ purchases init ∧ Purchase.product_id f = p0) as H0.
    { intros p0. simpl. split.
      - rewrite lookup_empty. by intros [? ?].
      - intros (f & Hf & _). by apply elem_of_nil in Hf. }
    destruct (proj1 (iterrows_stocked _ _ _ Hit H0 p')) as (f & Hf & Hid);
      [by eexists|].
    apply list_elem_of_fmap. by exists f.
Qed.

Lemma summary_counts_what_was_parsed_witness :
  print_summary (parse_csv_data two_lines init).2 =
    [ String "010"%char rule;
      "ETL SUMMARY";
      rule;
      "Categories loaded: 1";
      "Vendors loaded: 1";
      "Products loaded: 1";
      "Customers loaded: 1";
      "Inventory records: 1";
      "Purchase orders: 2";
      "Sales transactions: 1";
      rule ].
Proof.
  destruct (summary_counts_what_was_parsed two_lines
              (parse_csv_data two_lines init).2) as [H _].
  - vm_compute. reflexivity.
  - rewrite H. vm_compute. reflexivity.
Defined.

